(** * HA-PUPPET-TRMNL: scheduled dashboard screenshots for e-ink displays

    A shallow embedding of the scheduler (scheduler.js), of the browser
    session controller and its operation queue (screenshot.js) and of the
    bitmap encoder the controller calls, followed by the properties proved
    about them.

    Conventions.  A JavaScript value that may be [undefined] is an [option];
    a call into the browser engine, the raster library or the file system
    takes its outcome from an environment record, so that every place where
    the source can throw is a place where the model can fail; the calls made
    are recorded in a log of actions. *)

From Stdlib Require Import ZArith QArith Qround String Ascii List Lia Bool ZifyNat.
From stdpp Require Import gmap strings list fin_maps.
Import ListNotations.

Close Scope Q_scope.
Open Scope string_scope.
Open Scope list_scope.
Open Scope Z_scope.
Open Scope nat_scope.

(** ** The operation queue (screenshot.js, [Browser.enqueue] and
       [Browser.processQueue]) *)

Module Queue.

(** A queued unit [{ taskFn, resolve, reject }] is identified by a key. *)
Definition task := nat.

Inductive event :=
  | Pushed (t : task)
  | Started (w : nat) (t : task)
  | Resolved (w : nat) (t : task)
  | Rejected (w : nat) (t : task).

(** [queue] and [processing] are the fields of the source.  [awaiting]
    holds the activations of [processQueue] that are suspended at
    [await taskFn()], each with the task it waits for; [activations]
    counts the calls of [processQueue] that went past its guard. *)
Record Browser := mkBrowser {
    queue : list task;
    processing : bool;
    awaiting : list (nat * task);
    activations : nat;
    trace : list event
  }.

Definition init : Browser := mkBrowser [] false [] 0 [].

(** The head of [while (this.queue.length > 0)] in activation [w], run up
    to the next suspension: either [shift] a unit and call its [taskFn],
    or leave the loop and clear [processing]. *)
Definition loop (w : nat) (b : Browser) : Browser :=
    match queue b with
    | [] => mkBrowser [] false (awaiting b) (activations b) (trace b)
    | t :: rest =>
        mkBrowser rest (processing b) ((w, t) :: awaiting b) (activations b)
          (trace b ++ [Started w t])
    end.

Definition processQueue (b : Browser) : Browser :=
    if processing b || (length (queue b) =? 0) then b
    else
      let w := activations b in
      loop w (mkBrowser (queue b) true (awaiting b) (S w) (trace b)).

Definition enqueue (t : task) (b : Browser) : Browser :=
    processQueue
      (mkBrowser (queue b ++ [t]) (processing b) (awaiting b) (activations b)
         (trace b ++ [Pushed t])).

Fixpoint take_awaiting (w : nat) (l : list (nat * task))
    : option (task * list (nat * task)) :=
    match l with
    | [] => None
    | (w', t) :: l' =>
        if w' =? w then Some (t, l')
        else match take_awaiting w l' with
             | Some (t', r) => Some (t', (w', t) :: r)
             | None => None
             end
    end.

(** The task awaited by activation [w] settles: [resolve(result)] when
    [ok], [reject(err)] otherwise, and the loop goes round again. *)
Definition settle (w : nat) (ok : bool) (b : Browser) : Browser :=
    match take_awaiting w (awaiting b) with
    | None => b
    | Some (t, others) =>
        loop w
          (mkBrowser (queue b) (processing b) others (activations b)
             (trace b ++ [if ok then Resolved w t else Rejected w t]))
    end.

Inductive input :=
  | Enqueue (t : task)
  | Settle (w : nat) (ok : bool).

Definition step (b : Browser) (i : input) : Browser :=
    match i with
    | Enqueue t => enqueue t b
    | Settle w ok => settle w ok b
    end.

Definition run (ins : list input) (b : Browser) : Browser :=
    fold_left step ins b.

Definition pushed (tr : list event) : list task :=
    flat_map (fun e => match e with Pushed t => [t] | _ => [] end) tr.

Definition started (tr : list event) : list task :=
    flat_map (fun e => match e with Started _ t => [t] | _ => [] end) tr.

Definition settled (tr : list event) : list task :=
    flat_map (fun e => match e with
                       | Resolved _ t | Rejected _ t => [t]
                       | _ => []
                       end) tr.

(** Either nothing runs and nothing waits, or exactly one activation is
    suspended on a task. *)
Definition queue_inv (b : Browser) : Prop :=
    (processing b = false /\ queue b = [] /\ awaiting b = [])
    \/ (processing b = true /\ exists w t, awaiting b = [(w, t)]).

(** Tasks are started in the order of their arrival and settled in the
    order of their start. *)
Definition queue_order (b : Browser) : Prop :=
    started (trace b) ++ queue b = pushed (trace b)
    /\ settled (trace b) ++ map snd (awaiting b) = started (trace b).

End Queue.

(** ** The browser session controller (screenshot.js) *)

Module Session.

Record Viewport := mkViewport { width : Z; height : Z }.

(** A pixel of a decoded frame, as red, green and blue samples. *)
Definition pixel : Type := Z * Z * Z.

Record frame := mkFrame {
    f_width : Z;
    f_height : Z;
    f_pixels : list pixel
  }.

Inductive error :=
  | CannotOpenPageError (status : Z) (url : string)
  | Thrown (message : string).

(** The operations chained on a [sharp] instance, in call order. *)
Inductive sharp_op :=
  | Rotate (angle : Z)
  | Threshold (level : Z) (greyscale : bool)
  | Negate
  | ToColourspace (space : string)
  | Raw
  | Jpeg
  | Webp
  | Png (colours : option Z).

(** What [_screenshotPage] returns as [image]: the buffer of a [sharp]
    pipeline over the captured frame, or the output of
    [new BMPEncoder(info.width, info.height, bitsPerPixel).encode(data)]
    on the raw buffer of such a pipeline. *)
Inductive image :=
  | SharpBuffer (ops : list sharp_op) (input : frame)
  | BmpBuffer (bitsPerPixel : Z) (ops : list sharp_op) (input : frame).

(** Calls into the browser engine, in call order. *)
Inductive action :=
  | Launch
  | SetViewport (v : Viewport)
  | EvaluateOnNewDocument
  | Goto (url : string) (networkidle0 : bool)
  | RemoveScript
  | ZoomAndDismissToast (zoom : Q)
  | SetZoom (zoom : Q)
  | WaitForLoaded (timed_out : bool)
  | Sleep (ms : Z)
  | SelectLanguage (lang : string)
  | SetTheme (theme : string) (dark : bool)
  | Screenshot (type : string) (y : Z) (w : Z) (h : Z).

(** The request parameters built by the scheduler. *)
Record Params := mkParams {
    pagePath : string;
    viewport : Viewport;
    extraWait : option Z;
    einkColors : option Z;
    invert : bool;
    zoom : Q;
    format : string;
    rotate : option Z;
    lang : option string;
    theme : option string;
    dark : bool
  }.

(** The fields of [Browser] that navigation and capture use.  [page] is
    [None] while no browser is running and otherwise holds what
    [page.viewport()] returns. *)
Record Browser := mkBrowser {
    page : option (option Viewport);
    lastRequestedPath : option string;
    lastRequestedLang : option string;
    lastRequestedTheme : option string;
    lastRequestedDarkMode : option bool;
    log : list action
  }.

Definition fresh : Browser := mkBrowser None None None None None [].

(** Outcomes of the engine and library calls of one operation: [Some e]
    where a call throws [e]. *)
Record Env := mkEnv {
    launch : error + option Viewport;
    setViewport_throws : option error;
    evaluateOnNewDocument_throws : option error;
    goto_result : error + Z;
    toast_result : error + bool;
    setZoom_throws : option error;
    waitForFunction_times_out : bool;
    selectLanguage_throws : option error;
    setTheme_throws : option error;
    screenshot_result : error + frame;
    toBuffer_throws : option error;
    bmp_throws : option error
  }.

(** State and exceptions. *)
Definition M (A : Type) : Type := Browser -> (error + A) * Browser.

Definition ret {A} (a : A) : M A := fun b => (inr a, b).
Definition throw {A} (e : error) : M A := fun b => (inl e, b).
Definition bind {A B} (m : M A) (k : A -> M B) : M B :=
    fun b => match m b with
             | (inl e, b') => (inl e, b')
             | (inr a, b') => k a b'
             end.
Definition catch {A} (m : M A) (h : error -> M A) : M A :=
    fun b => match m b with
             | (inl e, b') => h e b'
             | (inr a, b') => (inr a, b')
             end.
Definition get : M Browser := fun b => (inr b, b).
Definition modify (f : Browser -> Browser) : M unit := fun b => (inr tt, f b).

Notation "'let*' x ':=' m 'in' k" := (bind m (fun x => k))
    (at level 10, x pattern, m at level 100, k at level 200).
Notation "m '>>' k" := (bind m (fun _ => k))
    (at level 90, right associativity).

Definition set_page (v : option Viewport) (b : Browser) : Browser :=
    mkBrowser (Some v) (lastRequestedPath b) (lastRequestedLang b)
      (lastRequestedTheme b) (lastRequestedDarkMode b) (log b).
Definition set_lastRequestedPath (p : option string) (b : Browser) : Browser :=
    mkBrowser (page b) p (lastRequestedLang b) (lastRequestedTheme b)
      (lastRequestedDarkMode b) (log b).
Definition set_lastRequestedLang (l : option string) (b : Browser) : Browser :=
    mkBrowser (page b) (lastRequestedPath b) l (lastRequestedTheme b)
      (lastRequestedDarkMode b) (log b).
Definition set_lastRequestedTheme (t : option string) (b : Browser) : Browser :=
    mkBrowser (page b) (lastRequestedPath b) (lastRequestedLang b) t
      (lastRequestedDarkMode b) (log b).
Definition set_lastRequestedDarkMode (d : option bool) (b : Browser) : Browser :=
    mkBrowser (page b) (lastRequestedPath b) (lastRequestedLang b)
      (lastRequestedTheme b) d (log b).
Definition add_log (a : action) (b : Browser) : Browser :=
    mkBrowser (page b) (lastRequestedPath b) (lastRequestedLang b)
      (lastRequestedTheme b) (lastRequestedDarkMode b) (log b ++ [a]).

(** An engine call that returns nothing: it is logged, then it throws or
    returns. *)
Definition call (a : action) (throws : option error) : M unit :=
    modify (add_log a) >>
    match throws with
    | Some e => throw e
    | None => ret tt
    end.

(** An engine call with a result. *)
Definition call_with {A} (a : action) (r : error + A) : M A :=
    modify (add_log a) >>
    match r with
    | inl e => throw e
    | inr x => ret x
    end.

Definition HEADER_HEIGHT : Z := 56.

(** [Math.round(x)] on a rational. *)
Definition Math_round (x : Q) : Z := Qfloor (x + (1 # 2))%Q.

(** [a || d] on a string that may be [undefined]. *)
Definition or_default (a : option string) (d : string) : string :=
    match a with
    | Some s => if String.eqb s "" then d else s
    | None => d
    end.

(** [response.ok()]: a status in the range 200-299. *)
Definition response_ok (status : Z) : bool :=
    ((200 <=? status) && (status <=? 299))%Z.

(** [new URL(pagePath, homeAssistantUrl).toString()] for an absolute path
    and a base without a path. *)
Definition page_url (homeAssistantUrl pagePath : string) : string :=
    homeAssistantUrl ++ pagePath.

Definition getPage (env : Env) : M (option Viewport) :=
    let* b := get in
    match page b with
    | Some v => ret v
    | None =>
        let* v := call_with Launch (launch env) in
        modify (set_page v) >> ret v
    end.

Definition viewport_differs (cur : option Viewport) (v : Viewport) : bool :=
    match cur with
    | None => true
    | Some c =>
        negb (width c =? width v)%Z || negb (height c =? height v)%Z
    end.

Section WithConst.
(** From const.js. *)
Variable isAddOn : bool.
Variable homeAssistantUrl : string.

(** Token injection, [page.goto] and the check of its response, shared
    by the first load and the change of path. *)
Definition open_url (env : Env) (pagePath : string) (networkidle0 : bool)
      : M unit :=
      let pageUrl := page_url homeAssistantUrl pagePath in
      call EvaluateOnNewDocument (evaluateOnNewDocument_throws env) >>
      let* status := call_with (Goto pageUrl networkidle0) (goto_result env) in
      (if response_ok status then ret tt
       else throw (CannotOpenPageError status pageUrl)) >>
      (* not awaited: a failure does not reach the caller *)
      modify (add_log RemoveScript).

(** The [try] block of [_navigatePage]. *)
Definition _navigatePage_try (p : Params) (env : Env) : M (Viewport * Z) :=
      let headerHeight := Math_round (inject_Z HEADER_HEIGHT * zoom p)%Q in
        (let* cur := getPage env in
         let vp := mkViewport (width (viewport p))
                     (height (viewport p) + headerHeight)%Z in
         (if viewport_differs cur vp then
            call (SetViewport vp) (setViewport_throws env) >>
            modify (set_page (Some vp))
          else ret tt) >>
         let defaultWait : Z := if isAddOn then 2000%Z else 1000%Z in
         let* b := get in
         let* (defaultWait, openedNewPage, changedPath) :=
           match lastRequestedPath b with
           | None =>
               open_url env (pagePath p) false >>
               ret (if isAddOn then (defaultWait + 5000)%Z else defaultWait,
                    true, false)
           | Some last =>
               if negb (String.eqb last (pagePath p)) then
                 open_url env (pagePath p) true >>
                 ret (if isAddOn then 3000%Z else 2000%Z, false, true)
               else ret (0%Z, false, false)
           end in
         modify (set_lastRequestedPath (Some (pagePath p))) >>
         let* dismissed :=
           if negb openedNewPage
           then call_with (ZoomAndDismissToast (zoom p)) (toast_result env)
           else ret false in
         let* defaultWait :=
           if dismissed then ret (defaultWait + 1000)%Z
           else call (SetZoom (zoom p)) (setZoom_throws env) >> ret defaultWait in
         (* a timeout of the readiness poll is caught and logged *)
         modify (add_log (WaitForLoaded (waitForFunction_times_out env))) >>
         (if changedPath then modify (add_log (Sleep 500)) else ret tt) >>
         let* b := get in
         let* defaultWait :=
           if negb (bool_decide (lang p = lastRequestedLang b)) then
             call (SelectLanguage (or_default (lang p) "en"))
               (selectLanguage_throws env) >>
             modify (set_lastRequestedLang (lang p)) >>
             ret (defaultWait + 1000)%Z
           else ret defaultWait in
         let* b := get in
         let* defaultWait :=
           if negb (bool_decide (theme p = lastRequestedTheme b))
              || negb (bool_decide (Some (dark p) = lastRequestedDarkMode b))
           then
             call (SetTheme (or_default (theme p) "") (dark p))
               (setTheme_throws env) >>
             modify (set_lastRequestedTheme (theme p)) >>
             modify (set_lastRequestedDarkMode (Some (dark p))) >>
             ret (defaultWait + 500)%Z
           else ret defaultWait in
         let extraWait :=
           match extraWait p with
           | None => defaultWait
           | Some w => w
           end in
         (if (extraWait =? 0)%Z then ret tt
          else modify (add_log (Sleep extraWait))) >>
         ret (vp, extraWait)).

(** [_navigatePage].  Returns the viewport object of the request as the
    function leaves it (its height is increased in place) and the wait
    that was applied.  The handler is [catch (err) { throw err; }]. *)
Definition _navigatePage (p : Params) (env : Env) : M (Viewport * Z) :=
      catch (_navigatePage_try p env) (fun err => throw err).

(** A number that may be [undefined], used as a condition. *)
Definition truthy (n : option Z) : bool :=
      match n with
      | Some k => negb (k =? 0)%Z
      | None => false
      end.

Definition is_num (n : option Z) (k : Z) : bool :=
      match n with
      | Some m => (m =? k)%Z
      | None => false
      end.

(** [await sharpInstance.toBuffer()] *)
Definition toBuffer (env : Env) (ops : list sharp_op) (input : frame)
      : M image :=
      match toBuffer_throws env with
      | Some e => throw e
      | None => ret (SharpBuffer ops input)
      end.

(** [new BMPEncoder(info.width, info.height, bits).encode(data)] on the
    raw buffer of the pipeline. *)
Definition bmp_encode (env : Env) (bits : Z) (ops : list sharp_op)
        (input : frame) : M image :=
      toBuffer env ops input >>
      match bmp_throws env with
      | Some e => throw e
      | None => ret (BmpBuffer bits ops input)
      end.

(** The [try] block of [_screenshotPage]. *)
Definition _screenshotPage_try (p : Params) (env : Env) : M image :=
      let headerHeight := Math_round (inject_Z HEADER_HEIGHT * zoom p)%Q in
        (getPage env >>
         let screenshotType :=
           if truthy (einkColors p) || String.eqb (format p) "bmp"
           then "png" else format p in
         let* shot :=
           call_with
             (Screenshot screenshotType headerHeight (width (viewport p))
                (height (viewport p) - headerHeight)%Z)
             (screenshot_result env) in
         let ops : list sharp_op :=
           match rotate p with
           | Some r => if (r =? 0)%Z then [] else [Rotate r]
           | None => []
           end in
         let ops :=
           if is_num (einkColors p) 2 then
             ops ++ [Threshold 220 true] ++ (if invert p then [Negate] else [])
           else ops in
         if truthy (einkColors p) then
           let ops :=
             if is_num (einkColors p) 2 then ops ++ [ToColourspace "b-w"]
             else ops in
           if String.eqb (format p) "bmp" then
             let bitsPerPixel : Z :=
               if is_num (einkColors p) 2 then 1%Z
               else if is_num (einkColors p) 4 then 2%Z
               else if is_num (einkColors p) 16 then 4%Z
               else 8%Z in
             bmp_encode env bitsPerPixel (ops ++ [Raw]) shot
           else if String.eqb (format p) "jpeg" then
             toBuffer env (ops ++ [Jpeg]) shot
           else if String.eqb (format p) "webp" then
             toBuffer env (ops ++ [Webp]) shot
           else toBuffer env (ops ++ [Png (einkColors p)]) shot
         else if String.eqb (format p) "jpeg" then
           toBuffer env (ops ++ [Jpeg]) shot
         else if String.eqb (format p) "webp" then
           toBuffer env (ops ++ [Webp]) shot
         else if String.eqb (format p) "bmp" then
           bmp_encode env 24%Z (ops ++ [Raw]) shot
         else toBuffer env (ops ++ [Png None]) shot).

(** [_screenshotPage] *)
Definition _screenshotPage (p : Params) (env : Env) : M image :=
      catch (_screenshotPage_try p env)
        (fun err =>
           (* trigger a full page navigation on next request *)
           modify (set_lastRequestedPath None) >>
           throw err).

Definition with_viewport (p : Params) (v : Viewport) : Params :=
      mkParams (pagePath p) v (extraWait p) (einkColors p) (invert p) (zoom p)
        (format p) (rotate p) (lang p) (theme p) (dark p).

(** The unit of work that [navigateAndScreenshot] puts on the queue.
    Both phases receive the same [params] object, so capture sees the
    viewport as navigation left it. *)
Definition navigateAndScreenshot (p : Params) (env : Env) : M image :=
      let* (vp, _) := _navigatePage p env in
      _screenshotPage (with_viewport p vp) env.

End WithConst.

Definition is_inr {A B} (x : A + B) : bool :=
    match x with inr _ => true | inl _ => false end.

Definition is_None {A} (x : option A) : bool :=
    match x with None => true | Some _ => false end.

(** An environment in which no call throws and the remote application
    answers with a success status. *)
Definition healthy (env : Env) : bool :=
    is_inr (launch env)
    && is_None (setViewport_throws env)
    && is_None (evaluateOnNewDocument_throws env)
    && match goto_result env with
       | inr status => response_ok status
       | inl _ => false
       end
    && is_inr (toast_result env)
    && is_None (setZoom_throws env)
    && is_None (selectLanguage_throws env)
    && is_None (setTheme_throws env)
    && is_inr (screenshot_result env)
    && is_None (toBuffer_throws env)
    && is_None (bmp_throws env).

(** The actions that load a document. *)
Definition is_load (a : action) : bool :=
    match a with
    | Goto _ _ | EvaluateOnNewDocument | Launch => true
    | _ => false
    end.

Definition sets_zoom (a : action) : bool :=
    match a with
    | ZoomAndDismissToast _ | SetZoom _ => true
    | _ => false
    end.

Definition selects_language (a : action) : bool :=
    match a with
    | SelectLanguage _ => true
    | _ => false
    end.

Definition sets_theme (a : action) : bool :=
    match a with
    | SetTheme _ _ => true
    | _ => false
    end.

(** *** The raster operations, as the library documents them

    [threshold(t, { greyscale: true })] converts to greyscale and sets a
    pixel to white when its value is at least [t] and to black otherwise;
    [negate({ alpha: false })] replaces each colour sample [v] by
    [255 - v].  The greyscale conversion and the rotation are the
    library's own. *)
Section Raster.
Variable luminance : pixel -> Z.
Variable rotate_pixels : Z -> list pixel -> list pixel.

Definition black : pixel := (0, 0, 0)%Z.
Definition white : pixel := (255, 255, 255)%Z.

Definition threshold_pixel (level : Z) (greyscale : bool) (px : pixel)
      : pixel :=
      if greyscale then
        if (level <=? luminance px)%Z then white else black
      else
        let '(r, g, b) := px in
        let t v := if (level <=? v)%Z then 255%Z else 0%Z in
        (t r, t g, t b).

Definition negate_pixel (px : pixel) : pixel :=
      let '(r, g, b) := px in ((255 - r)%Z, (255 - g)%Z, (255 - b)%Z).

Definition apply_op (op : sharp_op) (pxs : list pixel) : list pixel :=
      match op with
      | Rotate a => rotate_pixels a pxs
      | Threshold level grey => map (threshold_pixel level grey) pxs
      | Negate => map negate_pixel pxs
      | ToColourspace _ | Raw | Jpeg | Webp | Png _ => pxs
      end.

(** The pixels that a pipeline produces, the operations applied in call
    order. *)
Definition pipeline_pixels (ops : list sharp_op) (pxs : list pixel)
      : list pixel :=
      fold_left (fun acc op => apply_op op acc) ops pxs.

Definition image_pixels (i : image) : list pixel :=
      match i with
      | SharpBuffer ops input | BmpBuffer _ ops input =>
          pipeline_pixels ops (f_pixels input)
      end.

Definition image_ops (i : image) : list sharp_op :=
      match i with
      | SharpBuffer ops _ | BmpBuffer _ ops _ => ops
      end.
End Raster.

End Session.

(** ** The file store (file-manager.js) *)

Module FileManager.

(** [getExtension] *)
Definition getExtension (format : string) (einkColors : option Z) : string :=
    if Session.truthy einkColors && String.eqb format "bmp" then "bmp"
    else if String.eqb format "" then "png" else format.

Definition latest_path (base name format : string) (einkColors : option Z)
    : string :=
    base ++ "/" ++ name ++ "/latest." ++ getExtension format einkColors.

(** [getLocalUrl] *)
Definition getLocalUrl (name format : string) (einkColors : option Z)
    : string :=
    "/local/screenshots/" ++ name ++ "/latest." ++ getExtension format einkColors.

End FileManager.

(** ** The scheduler (scheduler.js) *)

Module Scheduler.

(** A screenshot entry as the options file gives it.  Numbers follow the
    option schema of the add-on: integers, except [zoom]. *)
Record ViewportConfig := mkViewportConfig {
    vc_width : option Z;
    vc_height : option Z
  }.

Record ScreenshotConfig := mkScreenshotConfig {
    name : option string;
    path : option string;
    viewport : option ViewportConfig;
    width : option Z;
    height : option Z;
    interval : option Z;
    wait : option Z;
    eink : option Z;
    invert : option bool;
    zoom : option Q;
    format : option string;
    rotate : option Z;
    lang : option string;
    theme : option string;
    dark : option bool
  }.

Record OffHoursConfig := mkOffHoursConfig {
    oh_start : option string;
    oh_end : option string
  }.

(** [screenshots] is [None] when the property is missing or is not an
    array. *)
Record Config := mkConfig {
    screenshots : option (list ScreenshotConfig);
    off_hours : option OffHoursConfig
  }.

(** [configPath]: the options object itself, or the path of a file,
    given here by what the file holds ([None] when it does not exist). *)
Inductive ConfigSource :=
  | FromOptions (c : Config)
  | FromFile (contents : option Config).

Inductive ConfigError :=
  | ConfigFileNotFound
  | NoScreenshotsArray
  | OffHoursIncomplete
  | InvalidOffHoursStart (s : string)
  | InvalidOffHoursEnd (s : string)
  | MissingName (index : nat)
  | MissingPath (name : string)
  | MissingViewport (name : string)
  | ViewportMissingDimension (name : string)
  | InvalidInterval (name : string).

(** A screenshot entry that passed [loadConfig]: the fields it checked are
    present, and the viewport is in its normal form. *)
Record Job := mkJob {
    j_name : string;
    j_path : string;
    j_width : Z;
    j_height : Z;
    j_interval : Z;
    j_wait : option Z;
    j_eink : option Z;
    j_invert : option bool;
    j_zoom : option Q;
    j_format : option string;
    j_rotate : option Z;
    j_lang : option string;
    j_theme : option string;
    j_dark : option bool
  }.

Definition truthy_string (s : option string) : option string :=
    match s with
    | Some x => if String.eqb x "" then None else Some x
    | None => None
    end.

Definition truthy_number (n : option Z) : option Z :=
    match n with
    | Some k => if (k =? 0)%Z then None else Some k
    | None => None
    end.

Definition is_digit (c : ascii) : bool :=
    (48 <=? nat_of_ascii c) && (nat_of_ascii c <=? 57).

Definition in_range (lo hi : nat) (c : ascii) : bool :=
    (lo <=? nat_of_ascii c) && (nat_of_ascii c <=? hi).

(** [/^([01]?[0-9]|2[0-3]):([0-5][0-9])$/.test(s)] *)
Definition timeRegex_test (s : string) : bool :=
    match list_ascii_of_string s with
    | [h; c; m1; m2] =>
        is_digit h && Ascii.eqb c ":" && in_range 48 53 m1 && is_digit m2
    | [h1; h2; c; m1; m2] =>
        ((in_range 48 49 h1 && is_digit h2)
         || (Ascii.eqb h1 "2" && in_range 48 51 h2))
        && Ascii.eqb c ":" && in_range 48 53 m1 && is_digit m2
    | _ => false
    end.

(** The body of [config.screenshots.forEach((screenshot, index) => ...)]
    for one entry. *)
Definition validate_one (index : nat) (c : ScreenshotConfig)
    : ConfigError + Job :=
    match truthy_string (name c) with
    | None => inl (MissingName index)
    | Some n =>
        match truthy_string (path c) with
        | None => inl (MissingPath n)
        | Some pth =>
            let normalized : ConfigError + ViewportConfig :=
              match viewport c with
              | Some v => inr v
              | None =>
                  match truthy_number (width c), truthy_number (height c) with
                  | Some w, Some h => inr (mkViewportConfig (Some w) (Some h))
                  | _, _ => inl (MissingViewport n)
                  end
              end in
            match normalized with
            | inl e => inl e
            | inr v =>
                match truthy_number (vc_width v), truthy_number (vc_height v) with
                | Some w, Some h =>
                    match truthy_number (interval c) with
                    | None => inl (InvalidInterval n)
                    | Some i =>
                        if (i <? 1)%Z then inl (InvalidInterval n)
                        else inr (mkJob n pth w h i (wait c) (eink c) (invert c)
                                    (zoom c) (format c) (rotate c) (lang c)
                                    (theme c) (dark c))
                    end
                | _, _ => inl (ViewportMissingDimension n)
                end
            end
        end
    end.

Fixpoint validate_from (index : nat) (l : list ScreenshotConfig)
    : ConfigError + list Job :=
    match l with
    | [] => inr []
    | c :: rest =>
        match validate_one index c with
        | inl e => inl e
        | inr j =>
            match validate_from (S index) rest with
            | inl e => inl e
            | inr js => inr (j :: js)
            end
        end
    end.

(** The check of [config.off_hours]: the window to store, if any. *)
Definition validate_off_hours (o : option OffHoursConfig)
    : ConfigError + option (string * string) :=
    match o with
    | None => inr None
    | Some oh =>
        match truthy_string (oh_start oh), truthy_string (oh_end oh) with
        | Some st, Some en =>
            if negb (timeRegex_test st) then inl (InvalidOffHoursStart st)
            else if negb (timeRegex_test en) then inl (InvalidOffHoursEnd en)
            else inr (Some (st, en))
        | _, _ => inl OffHoursIncomplete
        end
    end.

Inductive timer_kind :=
  | Timeout (ms : Z)
  | Interval (ms : Z).

Record timer := mkTimer {
    timer_id : nat;
    kind : timer_kind;
    timer_job : Job
  }.

(** The scheduler and what it owns.  [timers] are the live timers of the
    event loop, [launched] the captures that [scheduleJob] started
    directly, [disk] the files written so far. *)
Record Scheduler := mkScheduler {
    jobs : gmap string (Job * nat);
    isShuttingDown : bool;
    offHours : option (string * string);
    timers : list timer;
    next_timer : nat;
    launched : list Job;
    browser : Session.Browser;
    disk : gmap string Session.image
  }.

Definition new : Scheduler :=
    mkScheduler ∅ false None [] 0 [] Session.fresh ∅.

Definition set_offHours (o : option (string * string)) (s : Scheduler)
    : Scheduler :=
    mkScheduler (jobs s) (isShuttingDown s) o (timers s) (next_timer s)
      (launched s) (browser s) (disk s).

(** [loadConfig].  The off-hours window is stored before the entries are
    checked. *)
Definition loadConfig (src : ConfigSource) (s : Scheduler)
    : (ConfigError + list Job) * Scheduler :=
    match src with
    | FromFile None => (inl ConfigFileNotFound, s)
    | FromOptions config | FromFile (Some config) =>
        match screenshots config with
        | None => (inl NoScreenshotsArray, s)
        | Some entries =>
            match validate_off_hours (off_hours config) with
            | inl e => (inl e, s)
            | inr o =>
                let s' := match o with
                          | Some _ => set_offHours o s
                          | None => s
                          end in
                (validate_from 0 entries, s')
            end
        end
    end.

(** [Number(x)] for a string of decimal digits. *)
Definition Number_of_digits (x : string) : Z :=
    fold_left (fun acc c => (acc * 10 + Z.of_nat (nat_of_ascii c - 48))%Z)
      (list_ascii_of_string x) 0%Z.

(** [x.split(':')], first two parts, for a string with one colon. *)
Fixpoint split_colon (x : string) : string * string :=
    match x with
    | EmptyString => ("", "")
    | String c rest =>
        if Ascii.eqb c ":" then ("", rest)
        else let '(a, b) := split_colon rest in (String c a, b)
    end.

Definition minutes_of (x : string) : Z :=
    let '(h, m) := split_colon x in
    (Number_of_digits h * 60 + Number_of_digits m)%Z.

(** [isOffHours], the local time given by [getHours()] and
    [getMinutes()]. *)
Definition isOffHours (window : option (string * string)) (hours minutes : Z)
    : bool :=
    match window with
    | None => false
    | Some (st, en) =>
        let currentMinutes := (hours * 60 + minutes)%Z in
        let startMinutes := minutes_of st in
        let endMinutes := minutes_of en in
        if (startMinutes <=? endMinutes)%Z then
          (startMinutes <=? currentMinutes)%Z && (currentMinutes <? endMinutes)%Z
        else
          (startMinutes <=? currentMinutes)%Z || (currentMinutes <? endMinutes)%Z
    end.

(** The configuration object that [loadConfig] reads. *)
Definition source_config (src : ConfigSource) : option Config :=
    match src with
    | FromOptions c => Some c
    | FromFile contents => contents
    end.

(** The viewport of an entry after normalisation, when it has one. *)
Definition effective_viewport (c : ScreenshotConfig) : option (Z * Z) :=
    match viewport c with
    | Some v =>
        match truthy_number (vc_width v), truthy_number (vc_height v) with
        | Some w, Some h => Some (w, h)
        | _, _ => None
        end
    | None =>
        match truthy_number (width c), truthy_number (height c) with
        | Some w, Some h => Some (w, h)
        | _, _ => None
        end
    end.

(** What [loadConfig] requires of an entry, in one predicate: a name, a
    path, a viewport with width and height, an interval of at least one
    second. *)
Definition has_required_fields (c : ScreenshotConfig) : bool :=
    match truthy_string (name c), truthy_string (path c),
          effective_viewport c, interval c with
    | Some _, Some _, Some _, Some i => (1 <=? i)%Z
    | _, _, _, _ => false
    end.

(** The bounds that the documentation gives for the numeric fields:
    width 100-7680, height 100-4320, interval at least 1, wait 0-30000,
    zoom 0.1-5.0. *)
Definition within_documented_bounds (c : ScreenshotConfig) : bool :=
    match effective_viewport c with
    | Some (w, h) =>
        (100 <=? w)%Z && (w <=? 7680)%Z && (100 <=? h)%Z && (h <=? 4320)%Z
    | None => false
    end
    && match interval c with
       | Some i => (1 <=? i)%Z
       | None => false
       end
    && match wait c with
       | Some w => (0 <=? w)%Z && (w <=? 30000)%Z
       | None => true
       end
    && match zoom c with
       | Some z => Qle_bool (1 # 10) z && Qle_bool z 5
       | None => true
       end.

(** The names of the entries, where present. *)
Definition entry_names (l : list ScreenshotConfig) : list string :=
    omap (fun c => truthy_string (name c)) l.

Definition is_interval (t : timer) : bool :=
    match kind t with
    | Interval _ => true
    | Timeout _ => false
    end.

(** The outcome record of one firing.  [error] holds the error caught,
    where the source keeps its message. *)
Inductive failure :=
  | BrowserFailure (e : Session.error)
  | CannotCreateDirectory (dir : string)
  | CannotWriteFile (file : string).

Record Outcome := mkOutcome {
    success : bool;
    o_path : option string;
    o_url : option string;
    o_error : option failure;
    skipped : bool;
    reason : option string
  }.

(** Outcomes of the file system calls of one firing. *)
Record FileEnv := mkFileEnv {
    mkdir_throws : bool;
    writeFile_throws : bool
  }.

Definition set_browser (b : Session.Browser) (s : Scheduler) : Scheduler :=
    mkScheduler (jobs s) (isShuttingDown s) (offHours s) (timers s)
      (next_timer s) (launched s) b (disk s).

Definition set_disk (d : gmap string Session.image) (s : Scheduler)
    : Scheduler :=
    mkScheduler (jobs s) (isShuttingDown s) (offHours s) (timers s)
      (next_timer s) (launched s) (browser s) d.

Section WithConst.
(** From const.js, and the output directory chosen in [main]. *)
Variable isAddOn : bool.
Variable hassUrl : string.
Variable outputPath : string.

(** [requestParams] *)
Definition requestParams (c : Job) : Session.Params :=
      Session.mkParams (j_path c)
        (Session.mkViewport (j_width c) (j_height c))
        (truthy_number (j_wait c))
        (truthy_number (j_eink c))
        (default false (j_invert c))
        (match j_zoom c with
         | Some z => if Qeq_bool z 0 then 1%Q else z
         | None => 1%Q
         end)
        (default "png" (truthy_string (j_format c)))
        (truthy_number (j_rotate c))
        (j_lang c) (j_theme c)
        (default false (j_dark c)).

(** [fileManager.saveScreenshot(name, image, format, einkColors, false)] *)
Definition saveScreenshot (fenv : FileEnv) (name : string)
        (image : Session.image) (format : string) (einkColors : option Z)
        (d : gmap string Session.image)
      : (failure + string) * gmap string Session.image :=
      let screenshotDir := (outputPath ++ "/" ++ name)%string in
      if mkdir_throws fenv then (inl (CannotCreateDirectory screenshotDir), d)
      else
        let latestPath :=
          FileManager.latest_path outputPath name format einkColors in
        if writeFile_throws fenv then (inl (CannotWriteFile latestPath), d)
        else (inr latestPath, <[latestPath := image]> d).

(** The body of the [try] block of [captureScreenshot]. *)
Definition capture_body (c : Job) (env : Session.Env) (fenv : FileEnv)
        (s : Scheduler) : (failure + (string * string)) * Scheduler :=
      let p := requestParams c in
      match Session.navigateAndScreenshot isAddOn hassUrl p env (browser s) with
      | (inl e, b') => (inl (BrowserFailure e), set_browser b' s)
      | (inr image, b') =>
          let s1 := set_browser b' s in
          match saveScreenshot fenv (j_name c) image (Session.format p)
                  (Session.einkColors p) (disk s1) with
          | (inl e, d') => (inl e, set_disk d' s1)
          | (inr savedPath, d') =>
              let localUrl :=
                FileManager.getLocalUrl (j_name c) (Session.format p)
                  (Session.einkColors p) in
              (inr (savedPath, localUrl), set_disk d' s1)
          end
      end.

(** [captureScreenshot] at local time [hours]:[minutes]. *)
Definition captureScreenshot (c : Job) (hours minutes : Z)
        (env : Session.Env) (fenv : FileEnv) (s : Scheduler)
      : Outcome * Scheduler :=
      if isOffHours (offHours s) hours minutes then
        (mkOutcome false None None None true (Some "off-hours"), s)
      else
        match capture_body c env fenv s with
        | (inr (savedPath, localUrl), s') =>
            (mkOutcome true (Some savedPath) (Some localUrl) None false None, s')
        | (inl err, s') =>
            (mkOutcome false None None (Some err) false None, s')
        end.

(** [scheduleJob] *)
Definition scheduleJob (c : Job) (startupDelayMs : Z) (s : Scheduler)
      : Scheduler :=
      match jobs s !! j_name c with
      | Some _ => s
      | None =>
          let first_timeout := (0 <? startupDelayMs)%Z in
          let n := next_timer s in
          let timerId := if first_timeout then S n else n in
          let new_timers :=
            (if first_timeout then [mkTimer n (Timeout startupDelayMs) c]
             else [])
            ++ [mkTimer timerId (Interval (j_interval c * 1000)%Z) c] in
          mkScheduler
            (<[j_name c := (c, timerId)]> (jobs s))
            (isShuttingDown s) (offHours s)
            (timers s ++ new_timers) (S timerId)
            (if first_timeout then launched s else launched s ++ [c])
            (browser s) (disk s)
      end.

Definition STAGGER_DELAY : Z := 2000.

Fixpoint schedule_from (index : nat) (l : list Job) (s : Scheduler)
      : Scheduler :=
      match l with
      | [] => s
      | c :: rest =>
          schedule_from (S index) rest
            (scheduleJob c (Z.of_nat index * STAGGER_DELAY)%Z s)
      end.

(** [start] *)
Definition start (src : ConfigSource) (s : Scheduler)
      : (ConfigError + unit) * Scheduler :=
      match loadConfig src s with
      | (inl err, s') => (inl err, s')
      | (inr entries, s') => (inr tt, schedule_from 0 entries s')
      end.

Definition find_timer (tid : nat) (s : Scheduler) : option timer :=
      find (fun t => timer_id t =? tid) (timers s).

Fixpoint drop_timer (tid : nat) (l : list timer) : list timer :=
      match l with
      | [] => []
      | t :: rest =>
          if timer_id t =? tid then rest else t :: drop_timer tid rest
      end.

Definition remove_timer (tid : nat) (s : Scheduler) : Scheduler :=
      mkScheduler (jobs s) (isShuttingDown s) (offHours s)
        (drop_timer tid (timers s)) (next_timer s)
        (launched s) (browser s) (disk s).

(** Timer [tid] fires: the callback given to [setTimeout] or
    [setInterval] runs.  A timeout is spent after it fired. *)
Definition fire (tid : nat) (hours minutes : Z) (env : Session.Env)
        (fenv : FileEnv) (s : Scheduler) : option Outcome * Scheduler :=
      match find_timer tid s with
      | None => (None, s)
      | Some t =>
          let s1 := match kind t with
                    | Timeout _ => remove_timer tid s
                    | Interval _ => s
                    end in
          if isShuttingDown s1 then (None, s1)
          else
            let '(o, s2) :=
              captureScreenshot (timer_job t) hours minutes env fenv s1 in
            (Some o, s2)
      end.

Record firing := mkFiring {
      fi_timer : nat;
      fi_hours : Z;
      fi_minutes : Z;
      fi_env : Session.Env;
      fi_fenv : FileEnv
    }.

Definition fire_all (fs : list firing) (s : Scheduler)
      : list (option Outcome) * Scheduler :=
      fold_left
        (fun acc f =>
           let '(o, s') :=
             fire (fi_timer f) (fi_hours f) (fi_minutes f) (fi_env f)
               (fi_fenv f) (snd acc) in
           (fst acc ++ [o], s'))
        fs ([], s).

End WithConst.

(** What a capture leaves untouched. *)
Definition same_schedule (s s' : Scheduler) : Prop :=
  timers s' = timers s
  /\ jobs s' = jobs s
  /\ isShuttingDown s' = isShuttingDown s
  /\ offHours s' = offHours s.

(** The part of the scheduler that decides future firings: the recurring
    timers, the job table, the shutdown flag and the off-hours window. *)
Definition same_recurring (s s' : Scheduler) : Prop :=
  List.filter is_interval (timers s') = List.filter is_interval (timers s)
  /\ jobs s' = jobs s
  /\ isShuttingDown s' = isShuttingDown s
  /\ offHours s' = offHours s.

End Scheduler.

(** ** The bitmap encoder (bmp.js) *)

Module Bmp.

(** Modelled from the spec: the bitmap encoder [BMPEncoder] of bmp.js, which
    screenshot.js imports and which is not among the sources.  The layout is
    the classic one that the specification names: a file header of 14
    bytes, an info header of 40 bytes, for depths up to 8 a grey colour
    table of [2 ^ depth] entries of four bytes, then the rows from the
    bottom one to the top one, each padded to a multiple of four bytes;
    numbers are little-endian.  A sample of the raw buffer is a grey level
    for depths up to 8 (one sample per pixel, turned into a palette index
    by its leading bits) and a colour sample for depth 24 (three per
    pixel, stored in reverse order).  Header fields on which the
    specification is silent are zero. *)
Definition le16 (n : Z) : list Z := [n mod 256; (n / 256) mod 256]%Z.

Definition le32 (n : Z) : list Z :=
  [n mod 256; (n / 256) mod 256; (n / 256 / 256) mod 256;
   (n / 256 / 256 / 256) mod 256]%Z.

Definition supported (bits : nat) : Prop :=
  bits = 1 \/ bits = 2 \/ bits = 4 \/ bits = 8 \/ bits = 24.

(** The stored size of a row: its bits, rounded up to whole 32-bit words. *)
Definition row_size (width bits : nat) : nat := (width * bits + 31) / 32 * 4.

Definition palette_entries (bits : nat) : nat :=
  if bits <=? 8 then 2 ^ bits else 0.

(** Entry [i] of the grey colour table. *)
Definition grey_level (bits i : nat) : Z :=
  Z.of_nat (i * 255 / (2 ^ bits - 1)).

Definition color_table (bits : nat) : list Z :=
  flat_map (fun i => let g := grey_level bits i in [g; g; g; 0%Z])
    (seq 0 (palette_entries bits)).

Definition data_offset (bits : nat) : nat := 14 + 40 + 4 * palette_entries bits.

Definition image_size (width height bits : nat) : nat :=
  row_size width bits * height.

Definition file_header (width height bits : nat) : list Z :=
  [66%Z; 77%Z]
  ++ le32 (Z.of_nat (data_offset bits + image_size width height bits))
  ++ le16 0 ++ le16 0
  ++ le32 (Z.of_nat (data_offset bits)).

Definition info_header (width height bits : nat) : list Z :=
  le32 40
  ++ le32 (Z.of_nat width) ++ le32 (Z.of_nat height)
  ++ le16 1 ++ le16 (Z.of_nat bits)
  ++ le32 0
  ++ le32 (Z.of_nat (image_size width height bits))
  ++ le32 0 ++ le32 0
  ++ le32 (Z.of_nat (palette_entries bits)) ++ le32 0.

(** The palette index of a grey sample: its [bits] leading bits. *)
Definition index_of (bits : nat) (sample : Z) : Z :=
  (sample / 2 ^ Z.of_nat (8 - bits))%Z.

Definition pixels_per_byte (bits : nat) : nat := 8 / bits.

(** Byte [j] of row [y]: the indices of its pixels, the first pixel in the
    leading bits; positions past the width are zero. *)
Definition packed_byte (bits width : nat) (data : list Z) (y j : nat) : Z :=
  fold_left
    (fun acc k =>
       let x := j * pixels_per_byte bits + k in
       (acc * 2 ^ Z.of_nat bits
        + (if (x <? width)%nat then index_of bits (nth (y * width + x) data 0%Z)
           else 0))%Z)
    (seq 0 (pixels_per_byte bits)) 0%Z.

Definition row_bytes (bits width : nat) (data : list Z) (y : nat) : list Z :=
  if bits =? 24 then
    flat_map
      (fun x =>
         let i := 3 * (y * width + x) in
         [nth (i + 2) data 0%Z; nth (i + 1) data 0%Z; nth i data 0%Z])
      (seq 0 width)
  else
    map (packed_byte bits width data y) (seq 0 ((width * bits + 7) / 8)).

Definition padded_row (bits width : nat) (data : list Z) (y : nat) : list Z :=
  let r := row_bytes bits width data y in
  r ++ repeat 0%Z (row_size width bits - length r).

Definition pixel_rows (width height bits : nat) (data : list Z) : list Z :=
  flat_map (padded_row bits width data) (rev (seq 0 height)).

(** [new BMPEncoder(width, height, bits).encode(data)] *)
Definition encode (width height bits : nat) (data : list Z) : list Z :=
  file_header width height bits ++ info_header width height bits
  ++ color_table bits ++ pixel_rows width height bits data.

(** *** A reference reader *)

Definition rd16 (f : list Z) (off : nat) : Z :=
  (nth off f 0 + 256 * nth (off + 1) f 0)%Z.

Definition rd32 (f : list Z) (off : nat) : Z :=
  (nth off f 0
   + 256 * (nth (off + 1) f 0
            + 256 * (nth (off + 2) f 0 + 256 * nth (off + 3) f 0)))%Z.

(** The samples of the pixel in column [x] of row [y], rows counted from
    the top. *)
Definition decode_pixel (f : list Z) (off width height bits y x : nat)
  : list Z :=
  let row := off + (height - 1 - y) * row_size width bits in
  if bits =? 24 then
    [nth (row + 3 * x + 2) f 0%Z; nth (row + 3 * x + 1) f 0%Z;
     nth (row + 3 * x) f 0%Z]
  else
    let ppb := 8 / bits in
    let byte := nth (row + x / ppb) f 0%Z in
    let index :=
      ((byte / 2 ^ Z.of_nat (bits * (ppb - 1 - x mod ppb)))
       mod 2 ^ Z.of_nat bits)%Z in
    [nth (54 + 4 * Z.to_nat index) f 0%Z].

(** Reads width, height, depth and the samples of all pixels, top row
    first. *)
Definition decode (f : list Z) : option (nat * nat * nat * list Z) :=
  if ((nth 0 f 0 =? 66) && (nth 1 f 0 =? 77))%Z then
    let off := Z.to_nat (rd32 f 10) in
    let width := Z.to_nat (rd32 f 18) in
    let height := Z.to_nat (rd32 f 22) in
    let bits := Z.to_nat (rd16 f 28) in
    Some (width, height, bits,
          flat_map
            (fun y => flat_map (decode_pixel f off width height bits y)
                        (seq 0 width))
            (seq 0 height))
  else None.

(** The raw buffers that a depth can represent. *)
Definition representable (bits : nat) (data : list Z) : Prop :=
  bits = 24
  \/ Forall (fun s => exists i, i < 2 ^ bits /\ s = grey_level bits i) data.

Definition samples_per_pixel (bits : nat) : nat := if bits =? 24 then 3 else 1.

End Bmp.

(** ** Sample data, used where a statement is instantiated *)

Module Samples.

Definition two_pixels : Session.frame :=
    Session.mkFrame 2 1 [(200, 200, 200)%Z; (230, 230, 230)%Z].

(** Every call succeeds; no toast is shown. *)
Definition ok_env : Session.Env :=
    Session.mkEnv (inr None) None None (inr 200%Z) (inr false) None false
      None None (inr two_pixels) None None.

(** The remote application answers 404. *)
Definition not_found_env : Session.Env :=
    Session.mkEnv (inr None) None None (inr 404%Z) (inr false) None false
      None None (inr two_pixels) None None.

(** Every call succeeds and an update toast is dismissed. *)
Definition toast_env : Session.Env :=
    Session.mkEnv (inr None) None None (inr 200%Z) (inr true) None false
      None None (inr two_pixels) None None.

(** The page loads, then the script that sets the zoom fails. *)
Definition zoom_fails_env : Session.Env :=
    Session.mkEnv (inr None) None None (inr 200%Z) (inr false)
      (Some (Session.Thrown "Execution context was destroyed")) false
      None None (inr two_pixels) None None.

(** The browser engine fails to capture. *)
Definition capture_fails_env : Session.Env :=
    Session.mkEnv (inr None) None None (inr 200%Z) (inr false) None false
      None None (inl (Session.Thrown "Protocol error")) None None.

(** A screenshot entry with a viewport object and the other fields left
    out. *)
Definition entry (name : string) (w h interval : Z) : Scheduler.ScreenshotConfig :=
    Scheduler.mkScreenshotConfig (Some name) (Some "/lovelace/0")
      (Some (Scheduler.mkViewportConfig (Some w) (Some h))) None None
      (Some interval) None None None None None None None None None.

(** Two entries with one name, a viewport of 50 by 50, a wait of 99999 ms
    and a zoom of 10. *)
Definition out_of_bounds_entry : Scheduler.ScreenshotConfig :=
    Scheduler.mkScreenshotConfig (Some "kitchen") (Some "/lovelace/0")
      (Some (Scheduler.mkViewportConfig (Some 50%Z) (Some 50%Z))) None None
      (Some 60%Z) (Some 99999%Z) None None (Some (10 # 1)%Q) None None None
      None None.

Definition duplicated_config : Scheduler.Config :=
    Scheduler.mkConfig (Some [out_of_bounds_entry; out_of_bounds_entry]) None.

Definition two_jobs : Scheduler.Config :=
    Scheduler.mkConfig
      (Some [entry "kitchen" 800 480 60; entry "hall" 1920 1080 300]) None.

Definition disk_ok : Scheduler.FileEnv := Scheduler.mkFileEnv false false.

Definition params (path format : string) (eink : option Z) (invert : bool)
    : Session.Params :=
    Session.mkParams path (Session.mkViewport 800 480) None eink invert 1%Q
      format None None None false.

(** The average of the three samples, standing for the library's
    greyscale conversion. *)
Definition mean_luminance (px : Session.pixel) : Z :=
    let '(r, g, b) := px in ((r + g + b) / 3)%Z.

Definition no_rotation (angle : Z) (pxs : list Session.pixel)
    : list Session.pixel := pxs.

End Samples.

(** ** The rest of the session controller (screenshot.js) *)

Module Lifecycle.

(** The calls that release the engine. *)
Inductive release :=
  | ClosePage (throws : bool)
  | CloseBrowser (throws : bool).

(** [cleanup].  [browser] and [page] are set together by [getPage], so one
    field stands for both.  An error of [page.close()] or of
    [browser.close()] is caught and logged; the result lists the calls
    made. *)
Definition cleanup (page_close_throws browser_close_throws : bool)
    (b : Session.Browser) : list release * Session.Browser :=
  match Session.page b with
  | None => ([], b)
  | Some _ =>
      ([ClosePage page_close_throws; CloseBrowser browser_close_throws],
       Session.mkBrowser None None None None None (Session.log b))
  end.

Definition is_screenshot (a : Session.action) : bool :=
  match a with
  | Session.Screenshot _ _ _ _ => true
  | _ => false
  end.

Definition is_launch (a : Session.action) : bool :=
  match a with
  | Session.Launch => true
  | _ => false
  end.

Definition is_goto (a : Session.action) : bool :=
  match a with
  | Session.Goto _ _ => true
  | _ => false
  end.

(** [params] with another value of [invert]. *)
Definition with_invert (p : Session.Params) (i : bool) : Session.Params :=
  Session.mkParams (Session.pagePath p) (Session.viewport p)
    (Session.extraWait p) (Session.einkColors p) i (Session.zoom p)
    (Session.format p) (Session.rotate p) (Session.lang p) (Session.theme p)
    (Session.dark p).

End Lifecycle.

(** ** Assertions about operations of the session *)

Module Hoare.

(** [triple P m Q E]: from a state that satisfies [P], [m] either returns
    [a] in a state that satisfies [Q a] or throws in a state that satisfies
    [E]. *)
Definition triple {A} (P : Session.Browser -> Prop) (m : Session.M A)
    (Q : A -> Session.Browser -> Prop) (E : Session.Browser -> Prop) : Prop :=
  forall b, P b ->
    match m b with
    | (inr a, b') => Q a b'
    | (inl _, b') => E b'
    end.

End Hoare.

(** ** Units of work run one after the other *)

Module Units.

(** The actions added since [b0] hold no capture, and no launch when [b0]
    had a page, which is then still there. *)
Definition log_extends (b0 b : Session.Browser) : Prop :=
  exists acts,
    Session.log b = Session.log b0 ++ acts
    /\ existsb Lifecycle.is_screenshot acts = false
    /\ (Session.page b0 <> None ->
        existsb Lifecycle.is_launch acts = false /\ Session.page b <> None).

Section WithConst.
Variable isAddOn : bool.
Variable homeAssistantUrl : string.

(** The queue runs its units one at a time and in order, so a series of
    [navigateAndScreenshot] calls acts on the session as their bodies run
    in sequence; an error of one unit is handed to its caller and the next
    unit starts from the state the failed one left. *)
Definition run_units (us : list (Session.Params * Session.Env))
    (b : Session.Browser) : Session.Browser :=
  fold_left
    (fun b u =>
       snd (Session.navigateAndScreenshot isAddOn homeAssistantUrl (fst u)
              (snd u) b))
    us b.

End WithConst.

End Units.

(** ** Start-up and shutdown of the scheduler (scheduler.js) *)

Module Startup.



(** Every recurring timer is the timer of an entry of [jobs]. *)
Definition intervals_owned (s : Scheduler.Scheduler) : Prop :=
  forall t, In t (Scheduler.timers s) -> Scheduler.is_interval t = true ->
    exists name c,
      Scheduler.jobs s !! name = Some (c, Scheduler.timer_id t).

(** Every entry of [jobs] is filed under the name of its job and has its
    recurring timer, of period [interval * 1000] ms. *)
Definition jobs_timed (s : Scheduler.Scheduler) : Prop :=
  forall name c tid,
    Scheduler.jobs s !! name = Some (c, tid) ->
    Scheduler.j_name c = name
    /\ In (Scheduler.mkTimer tid
             (Scheduler.Interval (Scheduler.j_interval c * 1000)%Z) c)
          (Scheduler.timers s).

(** The files that hold a configuration, by path.  A file that is not
    JSON, on which [JSON.parse] throws, is not represented. *)
Definition files := gmap string Scheduler.Config.

Inductive located :=
  | Exit
  | Located (src : Scheduler.ConfigSource).

Definition configPaths : list string :=
  ["./screenshots-dev.json"; "./screenshots.json"; "/data/screenshots.json"].

(** [loadConfiguration].  A path it returns is given as the source that
    [loadConfig] reads at that path. *)
Definition loadConfiguration (isAddOn : bool) (fs : files) : located :=
  let from_files :=
    match List.find (fun path => bool_decide (is_Some (fs !! path)))
            configPaths with
    | Some path => Located (Scheduler.FromFile (fs !! path))
    | None => Exit
    end in
  if isAddOn then
    match fs !! "/data/options.json" with
    | Some options =>
        match Scheduler.screenshots options with
        | Some entries =>
            Located
              (Scheduler.FromOptions
                 (Scheduler.mkConfig (Some entries)
                    (Scheduler.off_hours options)))
        | None => from_files
        end
    | None => from_files
    end
  else from_files.

(** The first entry of a list of jobs that has a given name. *)
Definition first_named (name : string) (l : list Scheduler.Job)
  : option Scheduler.Job :=
  List.find (fun c => String.eqb (Scheduler.j_name c) name) l.

(** Kind and job of each timer, without the ids. *)
Definition timer_plan (l : list Scheduler.timer)
  : list (Scheduler.timer_kind * Scheduler.Job) :=
  map (fun t => (Scheduler.kind t, Scheduler.timer_job t)) l.

(** The timers that [start] creates for a list of jobs with distinct
    names, the first of them at position [index]. *)
Fixpoint planned (index : nat) (l : list Scheduler.Job)
  : list (Scheduler.timer_kind * Scheduler.Job) :=
  match l with
  | [] => []
  | c :: rest =>
      (if (0 <? Z.of_nat index * Scheduler.STAGGER_DELAY)%Z
       then [(Scheduler.Timeout (Z.of_nat index * Scheduler.STAGGER_DELAY)%Z, c)]
       else [])
      ++ [(Scheduler.Interval (Scheduler.j_interval c * 1000)%Z, c)]
      ++ planned (S index) rest
  end.

(** The outcome of a firing during off-hours. *)
Definition skipped_outcome : Scheduler.Outcome :=
  Scheduler.mkOutcome false None None None true (Some "off-hours").

End Startup.

(** ** What is stored *)

Module Store.



End Store.

(* ================================================================== *)
(** * Properties *)
(* ================================================================== *)

(** ** The operation queue *)

Section QueueFacts.
Import Queue.

Lemma pushed_app tr1 tr2 : pushed (tr1 ++ tr2) = pushed tr1 ++ pushed tr2.
Proof. apply flat_map_app. Qed.

Lemma started_app tr1 tr2 : started (tr1 ++ tr2) = started tr1 ++ started tr2.
Proof. apply flat_map_app. Qed.

Lemma settled_app tr1 tr2 : settled (tr1 ++ tr2) = settled tr1 ++ settled tr2.
Proof. apply flat_map_app. Qed.

Lemma step_inv b i : queue_inv b -> queue_inv (step b i).
Proof.
    intros [(Hp & Hq & Ha) | (Hp & w & t & Ha)]; destruct i as [t' | w' ok];
      destruct b as [q p a n tr]; simpl in *; subst.
    - right. split; [reflexivity | exists n, t'; reflexivity].
    - left. auto.
    - right. unfold enqueue, processQueue. simpl. eauto.
    - unfold settle. simpl. destruct (w =? w') eqn:E.
      + unfold loop. simpl. destruct q as [| t1 q]; simpl.
        * left. auto.
        * right. eauto.
      + right. simpl. eauto.
Qed.

Ltac queue_norm :=
    unfold enqueue, processQueue, settle, loop, queue_order in *; simpl in *;
    rewrite ?started_app, ?pushed_app, ?settled_app in *; simpl in *;
    rewrite ?app_nil_r in *; rewrite <- ?app_assoc in *; simpl in *.

Lemma step_order b i : queue_inv b -> queue_order b -> queue_order (step b i).
Proof.
    intros Hinv Ho. destruct b as [q p a n tr].
    destruct Hinv as [(Hp & Hq & Ha) | (Hp & w & t & Ha)];
      destruct i as [t' | w' ok]; simpl in *; subst.
    - queue_norm. destruct Ho as [Hs Hd]. rewrite <- Hs, Hd. auto.
    - exact Ho.
    - queue_norm. destruct Ho as [Hs Hd]. rewrite <- Hs.
      rewrite <- app_assoc. auto.
    - unfold settle. simpl. destruct (w =? w') eqn:E; [| exact Ho].
      destruct Ho as [Hs Hd]. simpl in Hs, Hd.
      destruct q as [| t1 q]; destruct ok; queue_norm;
        rewrite <- ?Hs, <- ?Hd, <- ?app_assoc; simpl; auto.
Qed.

Lemma run_inv ins : forall b,
    queue_inv b -> queue_order b ->
    queue_inv (run ins b) /\ queue_order (run ins b).
Proof.
    induction ins as [| i ins IH]; intros b Hi Ho; simpl; [auto |].
    apply IH; [apply step_inv | apply step_order]; assumption.
Qed.

Lemma init_inv : queue_inv init /\ queue_order init.
Proof. split; [left | split]; auto. Qed.

(** One activation works through everything that is queued behind the
    task it awaits, whatever the outcome of each task. *)
Lemma drain_to_last q : forall b w t0 t oks,
    awaiting b = [(w, t0)] -> queue b = q ++ [t] ->
    length oks = S (length q) ->
    let b' := run (map (Settle w) oks) b in
    queue b' = [] /\ awaiting b' = [(w, t)]
    /\ processing b' = processing b /\ activations b' = activations b.
Proof.
    induction q as [| t1 q IH]; intros b w t0 t oks Ha Hq Hl.
    - destruct oks as [| ok [| ? ?]]; simpl in Hl; try discriminate.
      destruct b as [q0 p a n tr]. simpl in *. subst.
      unfold settle. simpl. rewrite Nat.eqb_refl. simpl. auto.
    - destruct oks as [| ok oks]; simpl in Hl; [discriminate |].
      injection Hl as Hl.
      destruct b as [q0 p a n tr]. simpl in Ha, Hq. subst.
      cbn [map run fold_left step].
      set (b1 := settle w ok _).
      assert (H1 : awaiting b1 = [(w, t1)] /\ queue b1 = q ++ [t]
                   /\ processing b1 = p /\ activations b1 = n).
      { unfold b1, settle. simpl. rewrite Nat.eqb_refl. simpl. auto. }
      destruct H1 as (A1 & Q1 & P1 & N1).
      destruct (IH b1 w t1 t oks A1 Q1 Hl) as (R1 & R2 & R3 & R4).
      fold (run (map (Settle w) oks) b1).
      simpl. rewrite R3, R4, P1, N1. auto.
Qed.

End QueueFacts.

(** C1.  The operation queue runs at most one enqueued operation at a time
    (at most one activation of [processQueue] is ever suspended on a task,
    and a task is started only after every task started before it has
    settled), tasks are started in the order in which they were enqueued,
    the loop clears [processing] only with an empty queue, and a task
    enqueued while the loop is running triggers no new activation: the
    activation already running starts it once the tasks ahead of it have
    settled, whether they resolve or reject. *)
Theorem queue_serial_fifo_drain (ins : list Queue.input) :
  let b := Queue.run ins Queue.init in
  length (Queue.awaiting b) <= 1
  /\ Queue.started (Queue.trace b) ++ Queue.queue b = Queue.pushed (Queue.trace b)
  /\ Queue.settled (Queue.trace b) ++ map snd (Queue.awaiting b)
     = Queue.started (Queue.trace b)
  /\ (Queue.processing b = false -> Queue.queue b = [] /\ Queue.awaiting b = [])
  /\ (Queue.processing b = true ->
      exists w, map fst (Queue.awaiting b) = [w]
        /\ forall t oks,
             Queue.activations (Queue.enqueue t b) = Queue.activations b
             /\ (length oks = S (length (Queue.queue b)) ->
                 let b' := Queue.run (map (Queue.Settle w) oks) (Queue.enqueue t b) in
                 Queue.awaiting b' = [(w, t)] /\ Queue.queue b' = []
                 /\ Queue.activations b' = Queue.activations b)).
Proof.
  intros b.
  destruct (run_inv ins Queue.init (proj1 init_inv) (proj2 init_inv))
    as [Hinv [Hs Hd]].
  fold b in Hinv, Hs, Hd.
  split; [| split; [exact Hs | split; [exact Hd | split]]].
  - destruct Hinv as [(_ & _ & Ha) | (_ & w & t & Ha)]; rewrite Ha; simpl; lia.
  - intros Hp. destruct Hinv as [(_ & Hq & Ha) | (Hp' & _)]; [auto | congruence].
  - intros Hp. destruct Hinv as [(Hp' & _) | (_ & w & t0 & Ha)]; [congruence |].
    exists w. split; [rewrite Ha; reflexivity |].
    intros t oks.
    assert (He : Queue.enqueue t b
                 = Queue.mkBrowser (Queue.queue b ++ [t]) true [(w, t0)]
                     (Queue.activations b) (Queue.trace b ++ [Queue.Pushed t])).
    { unfold Queue.enqueue, Queue.processQueue. simpl. rewrite Hp, Ha. reflexivity. }
    split; [rewrite He; reflexivity |].
    intros Hl b'.
    destruct (drain_to_last (Queue.queue b) (Queue.enqueue t b) w t0 t oks)
      as (R1 & R2 & _ & R4); try (rewrite He; reflexivity); [exact Hl |].
    fold b' in R1, R2, R4. rewrite He in R4. auto.
Qed.

Lemma queue_serial_fifo_drain_witness :
  let b := Queue.run [Queue.Enqueue 1; Queue.Enqueue 2] Queue.init in
  exists w,
    Queue.awaiting
      (Queue.run (map (Queue.Settle w) [true; false]) (Queue.enqueue 3 b))
    = [(w, 3)].
Proof.
  intros b.
  destruct (queue_serial_fifo_drain [Queue.Enqueue 1; Queue.Enqueue 2])
    as (_ & _ & _ & _ & H).
  destruct (H eq_refl) as (w & _ & Hd).
  exists w. exact (proj1 (proj2 (Hd 3 [true; false]) eq_refl)).
Defined.

(** ** Off-hours *)

(** C4.  With the window given as minutes of the day [s] (start) and [e]
    (end) and the current time as minute [t]: when [s <= e] the predicate
    holds exactly for [s <= t < e]; when [s > e] it holds exactly for
    [t >= s] or [t < e]; without a window it never holds.  For 09:00-17:00
    the minutes 540 to 1019 are suppressed and 539 and 1020 are not; for
    22:00-06:00, 23:00 and 05:00 are suppressed and 06:00 and 21:59 are
    not. *)
Theorem isOffHours_window (st en : string) (hours minutes : Z) :
  let s := Scheduler.minutes_of st in
  let e := Scheduler.minutes_of en in
  let t := (hours * 60 + minutes)%Z in
  ((s <= e)%Z ->
     (Scheduler.isOffHours (Some (st, en)) hours minutes = true
      <-> (s <= t < e)%Z))
  /\ ((s > e)%Z ->
     (Scheduler.isOffHours (Some (st, en)) hours minutes = true
      <-> (t >= s \/ t < e)%Z))
  /\ Scheduler.isOffHours None hours minutes = false
  /\ (Scheduler.minutes_of "09:00" = 540%Z /\ Scheduler.minutes_of "17:00" = 1020%Z)
  /\ ((0 <= minutes < 60)%Z ->
      (Scheduler.isOffHours (Some ("09:00", "17:00")) hours minutes = true
       <-> (540 <= t <= 1019)%Z))
  /\ Scheduler.isOffHours (Some ("09:00", "17:00")) 8 59 = false
  /\ Scheduler.isOffHours (Some ("09:00", "17:00")) 17 0 = false
  /\ Scheduler.isOffHours (Some ("22:00", "06:00")) 23 0 = true
  /\ Scheduler.isOffHours (Some ("22:00", "06:00")) 5 0 = true
  /\ Scheduler.isOffHours (Some ("22:00", "06:00")) 6 0 = false
  /\ Scheduler.isOffHours (Some ("22:00", "06:00")) 21 59 = false.
Proof.
  intros s e t.
  assert (H9 : Scheduler.minutes_of "09:00" = 540%Z) by reflexivity.
  assert (H17 : Scheduler.minutes_of "17:00" = 1020%Z) by reflexivity.
  assert (Hgen : forall a b,
            Scheduler.isOffHours (Some (a, b)) hours minutes
            = if (Scheduler.minutes_of a <=? Scheduler.minutes_of b)%Z
              then (Scheduler.minutes_of a <=? t)%Z && (t <? Scheduler.minutes_of b)%Z
              else (Scheduler.minutes_of a <=? t)%Z || (t <? Scheduler.minutes_of b)%Z)
    by reflexivity.
  split; [| split; [| split; [reflexivity | split; [auto | split]]]].
  - intros Hle. rewrite Hgen. fold s e.
    destruct (Z.leb_spec s e); [| lia]. rewrite andb_true_iff. lia.
  - intros Hgt. rewrite Hgen. fold s e.
    destruct (Z.leb_spec s e); [lia |]. rewrite orb_true_iff. lia.
  - intros Hm. rewrite Hgen, H9, H17. simpl. rewrite andb_true_iff. lia.
  - repeat split; reflexivity.
Qed.

Lemma isOffHours_window_witness :
  Scheduler.isOffHours (Some ("09:00", "17:00")) 16 59 = true
  /\ Scheduler.isOffHours (Some ("22:00", "06:00")) 2 30 = true.
Proof.
  split.
  - apply (proj1 (isOffHours_window "09:00" "17:00" 16 59)); vm_compute;
      [discriminate | split; [discriminate | reflexivity]].
  - apply (proj1 (proj2 (isOffHours_window "22:00" "06:00" 2 30)));
      vm_compute; [reflexivity | right; reflexivity].
Defined.

(** ** Capture *)

Import Session.

Lemma catch_reset_path {A} (m : M A) (b : Browser) :
    match catch m (fun err => modify (set_lastRequestedPath None) >> throw err) b with
    | (inl err, b') => fst (m b) = inl err /\ lastRequestedPath b' = None
    | (inr a, b') => m b = (inr a, b')
    end.
Proof.
    unfold catch, bind, modify, throw.
    destruct (m b) as [[e | a] b']; simpl; auto.
Qed.

Lemma catch_inl {A} (m : M A) h b e b' :
    m b = (inl e, b') -> catch m h b = h e b'.
Proof. unfold catch. intros ->. reflexivity. Qed.

Lemma bind_inl {A B} (m : M A) (k : A -> M B) b e b' :
    m b = (inl e, b') -> bind m k b = (inl e, b').
Proof. unfold bind. intros ->. reflexivity. Qed.

Lemma bind_inr {A B} (m : M A) (k : A -> M B) b a b' :
    m b = (inr a, b') -> bind m k b = k a b'.
Proof. unfold bind. intros ->. reflexivity. Qed.

Lemma getPage_present env b v :
    page b = Some v -> getPage env b = (inr v, b).
Proof. unfold getPage, bind, get, ret. intros ->. reflexivity. Qed.

Lemma getPage_launch_fails env b e :
    page b = None -> launch env = inl e ->
    getPage env b = (inl e, add_log Launch b).
Proof.
    unfold getPage, bind, get, call_with, modify, throw.
    intros -> ->. reflexivity.
Qed.

Lemma getPage_launch env b v :
    page b = None -> launch env = inr v ->
    getPage env b = (inr v, set_page v (add_log Launch b)).
Proof.
    unfold getPage, bind, get, call_with, modify, ret.
    intros -> ->. reflexivity.
Qed.


(** C7.  When anything in the [try] block of [_screenshotPage] throws, the
    function resets [lastRequestedPath] to [undefined] and throws the same
    error; this covers a failing browser launch, a failing
    [page.screenshot], a failing [toBuffer] and a failing bitmap encoder. *)
Theorem screenshot_error_resets_path
    (p : Session.Params) (env : Session.Env) (b : Session.Browser) :
  match Session._screenshotPage p env b with
  | (inl err, b') =>
      fst (Session._screenshotPage_try p env b) = inl err
      /\ Session.lastRequestedPath b' = None
  | (inr img, b') => Session._screenshotPage_try p env b = (inr img, b')
  end
  /\ (forall e, Session.page b = None -> Session.launch env = inl e ->
        fst (Session._screenshotPage p env b) = inl e)
  /\ (forall v e, Session.page b = Some v ->
        Session.screenshot_result env = inl e ->
        fst (Session._screenshotPage p env b) = inl e)
  /\ (forall v f e, Session.page b = Some v ->
        Session.screenshot_result env = inr f ->
        Session.toBuffer_throws env = Some e ->
        fst (Session._screenshotPage p env b) = inl e)
  /\ (forall v f e, Session.page b = Some v ->
        Session.screenshot_result env = inr f ->
        Session.toBuffer_throws env = None ->
        Session.bmp_throws env = Some e ->
        Session.format p = "bmp" ->
        fst (Session._screenshotPage p env b) = inl e).
Proof.
  split; [apply catch_reset_path |].
  unfold Session._screenshotPage.
  split; [| split; [| split]].
  - intros e Hp Hl.
    erewrite catch_inl; [reflexivity |].
    unfold Session._screenshotPage_try.
    erewrite bind_inl; [reflexivity | apply getPage_launch_fails; eassumption].
  - intros v e Hp Hs.
    erewrite catch_inl; [reflexivity |].
    unfold Session._screenshotPage_try.
    erewrite bind_inr; [| apply getPage_present; eassumption].
    unfold Session.call_with. rewrite Hs.
    unfold Session.bind, Session.modify, Session.throw. reflexivity.
  - intros v f e Hp Hs Ht.
    assert (Hb : exists b', Session._screenshotPage_try p env b = (inl e, b')).
    { unfold Session._screenshotPage_try.
      erewrite bind_inr; [| apply getPage_present; eassumption].
      unfold Session.call_with, Session.bmp_encode, Session.toBuffer.
      rewrite Hs, Ht.
      unfold Session.bind, Session.modify, Session.throw, Session.ret.
      repeat match goal with
             | |- context [if ?c then _ else _] => destruct c
             end; eauto. }
    destruct Hb as [b' Hb]. erewrite catch_inl; [reflexivity | exact Hb].
  - intros v f e Hp Hs Ht Hbmp Hf.
    assert (Hb : exists b', Session._screenshotPage_try p env b = (inl e, b')).
    { unfold Session._screenshotPage_try.
      erewrite bind_inr; [| apply getPage_present; eassumption].
      unfold Session.call_with, Session.bmp_encode, Session.toBuffer.
      rewrite Hs, Ht, Hbmp, Hf.
      unfold Session.bind, Session.modify, Session.throw, Session.ret.
      simpl.
      repeat match goal with
             | |- context [if ?c then _ else _] => destruct c
             end; eauto. }
    destruct Hb as [b' Hb]. erewrite catch_inl; [reflexivity | exact Hb].
Qed.

Lemma screenshot_error_resets_path_witness :
  let b := Session.set_lastRequestedPath (Some "/lovelace/0")
             (Session.set_page None Session.fresh) in
  fst (Session._screenshotPage (Samples.params "/lovelace/0" "png" None false)
         Samples.capture_fails_env b)
  = inl (Session.Thrown "Protocol error").
Proof.
  intros b.
  apply (proj1 (proj2 (proj2
           (screenshot_error_resets_path
              (Samples.params "/lovelace/0" "png" None false)
              Samples.capture_fails_env b))) None);
    reflexivity.
Defined.


Lemma healthy_inv env :
    healthy env = true ->
    exists v st d f,
      env = mkEnv (inr v) None None (inr st) (inr d) None
              (waitForFunction_times_out env) None None (inr f) None None
      /\ response_ok st = true.
Proof.
    destruct env as [l sv ev g t sz w sl sth sc tb bm].
    unfold healthy. simpl. rewrite !andb_true_iff.
    intros ((((((((((Hl & Hsv) & Hev) & Hg) & Ht) & Hsz) & Hsl) & Hsth)
               & Hsc) & Htb) & Hbm).
    destruct l as [| v]; [discriminate |].
    destruct sv; [discriminate |]. destruct ev; [discriminate |].
    destruct g as [| st]; [discriminate |].
    destruct t as [| d]; [discriminate |]. destruct sz; [discriminate |].
    destruct sl; [discriminate |]. destruct sth; [discriminate |].
    destruct sc as [| f]; [discriminate |]. destruct tb; [discriminate |].
    destruct bm; [discriminate |].
    exists v, st, d, f. auto.
Qed.

Ltac session_run :=
    cbv beta iota zeta delta
      [_screenshotPage _screenshotPage_try _navigatePage _navigatePage_try
       navigateAndScreenshot open_url
       catch bind getPage call call_with modify get ret throw toBuffer
       bmp_encode
       page launch setViewport_throws evaluateOnNewDocument_throws
       goto_result toast_result setZoom_throws
       waitForFunction_times_out selectLanguage_throws setTheme_throws
       screenshot_result toBuffer_throws bmp_throws
       set_page add_log set_lastRequestedPath set_lastRequestedLang
       set_lastRequestedTheme set_lastRequestedDarkMode
       lastRequestedPath lastRequestedLang
       lastRequestedTheme lastRequestedDarkMode log fst snd negb orb andb].

Ltac split_ifs :=
    repeat match goal with
           | |- context [if ?c then _ else _] => destruct c; session_run
           end.

(** With a healthy environment a capture returns an image of the captured
    frame and leaves the cached path alone. *)
Lemma screenshot_healthy p env b :
    healthy env = true ->
    exists img b' f,
      _screenshotPage p env b = (inr img, b')
      /\ screenshot_result env = inr f
      /\ lastRequestedPath b' = lastRequestedPath b.
Proof.
    intros H. destruct (healthy_inv env H) as (v & st & d & f & -> & _).
    destruct b as [[pg |] lp ll lt ld lg]; session_run; split_ifs;
      do 3 eexists; (split; [reflexivity | split; reflexivity]).
Qed.


(** C8.  On the bmp path the colour count of the e-ink display fixes the
    bit depth given to the bitmap encoder: 2 gives 1 bit, 4 gives 2 bits,
    16 gives 4 bits, 256 and every other count give 8 bits; without
    [einkColors] ([undefined], or 0, which JavaScript treats alike) the
    depth is 24 bits. *)
Theorem bmp_bit_depth (p : Params) (env : Env) (b : Browser) :
  healthy env = true ->
  format p = "bmp" ->
  exists bits ops f b',
    _screenshotPage p env b = (inr (BmpBuffer bits ops f), b')
    /\ screenshot_result env = inr f
    /\ match einkColors p with
       | None => bits = 24%Z
       | Some n =>
           (n = 2%Z -> bits = 1%Z) /\ (n = 4%Z -> bits = 2%Z)
           /\ (n = 16%Z -> bits = 4%Z) /\ (n = 256%Z -> bits = 8%Z)
           /\ (n <> 0%Z -> n <> 2%Z -> n <> 4%Z -> n <> 16%Z -> bits = 8%Z)
           /\ (n = 0%Z -> bits = 24%Z)
       end.
Proof.
  intros H Hf. destruct (healthy_inv env H) as (v & st & d & f & -> & _).
  destruct p as [pp vp ew ec inv zm fm rt lng th dk]. simpl in Hf. subst fm.
  destruct b as [pg lp ll lt ld lg].
  destruct ec as [n |].
  - destruct (Z.eq_dec n 0%Z) as [-> | Hn0];
      [| destruct (Z.eq_dec n 2%Z) as [-> | Hn2];
         [| destruct (Z.eq_dec n 4%Z) as [-> | Hn4];
            [| destruct (Z.eq_dec n 16%Z) as [-> | Hn16]]]].
    5: { assert (E0 : (n =? 0)%Z = false) by (apply Z.eqb_neq; assumption).
         assert (E2 : (n =? 2)%Z = false) by (apply Z.eqb_neq; assumption).
         assert (E4 : (n =? 4)%Z = false) by (apply Z.eqb_neq; assumption).
         assert (E16 : (n =? 16)%Z = false) by (apply Z.eqb_neq; assumption).
         destruct pg; session_run;
           cbv beta iota zeta delta [einkColors format truthy is_num rotate invert];
           rewrite E0, E2, E4, E16; simpl;
           do 4 eexists; (split; [reflexivity | split; [reflexivity |]]);
           repeat split; intros; try reflexivity; congruence. }
    all: destruct pg; session_run; simpl;
      do 4 eexists; (split; [reflexivity | split; [reflexivity |]]);
      repeat split; intros; try reflexivity; try discriminate;
      congruence.
  - destruct pg; session_run; simpl;
      do 4 eexists; (split; [reflexivity | split; reflexivity]).
Qed.

Lemma bmp_bit_depth_witness :
  exists ops f b',
    _screenshotPage (Samples.params "/lovelace/0" "bmp" (Some 16%Z) false)
      Samples.ok_env fresh
    = (inr (BmpBuffer 4 ops f), b').
Proof.
  destruct (bmp_bit_depth (Samples.params "/lovelace/0" "bmp" (Some 16%Z) false)
              Samples.ok_env fresh eq_refl eq_refl)
    as (bits & ops & f & b' & Hr & _ & Hb).
  simpl in Hb. destruct Hb as (_ & _ & H16 & _).
  rewrite (H16 eq_refl) in Hr. eauto.
Defined.

(** C9.  With [einkColors = 2] the pipeline thresholds the frame in
    greyscale at 220, negates the result when [invert] is set, and marks the
    output as black and white (colourspace b-w, and one bit per pixel on the
    bmp path).  A pixel of luminance 200 comes out black and one of
    luminance 230 white; with [invert] they come out white and black. *)
Theorem eink2_threshold
    (luminance : pixel -> Z) (rotate_pixels : Z -> list pixel -> list pixel)
    (p : Params) (env : Env) (b : Browser) :
  healthy env = true ->
  einkColors p = Some 2%Z ->
  exists img b' f,
    _screenshotPage p env b = (inr img, b')
    /\ screenshot_result env = inr f
    /\ (exists pre post,
          image_ops img
          = pre ++ [Threshold 220 true]
              ++ (if invert p then [Negate] else [])
              ++ [ToColourspace "b-w"] ++ [post]
          /\ Forall (fun op => exists r, op = Rotate r) pre)
    /\ (format p = "bmp" -> exists ops, img = BmpBuffer 1 ops f)
    /\ image_pixels luminance rotate_pixels img
       = map (fun px =>
                let bw := if (220 <=? luminance px)%Z then white else black in
                if invert p then negate_pixel bw else bw)
           (match rotate p with
            | Some r => if (r =? 0)%Z then f_pixels f
                        else rotate_pixels r (f_pixels f)
            | None => f_pixels f
            end)
    /\ (forall px, luminance px = 200%Z ->
          threshold_pixel luminance 220 true px = black
          /\ negate_pixel (threshold_pixel luminance 220 true px) = white)
    /\ (forall px, luminance px = 230%Z ->
          threshold_pixel luminance 220 true px = white
          /\ negate_pixel (threshold_pixel luminance 220 true px) = black).
Proof.
  intros H He. destruct (healthy_inv env H) as (v & st & d & f & -> & _).
  destruct p as [pp vp ew ec inv zm fm rt lng th dk]. simpl in He. subst ec.
  assert (Hpx : forall (g : pixel -> pixel) l,
            map g (map (threshold_pixel luminance 220 true) l)
            = map (fun px => g (if (220 <=? luminance px)%Z then white else black)) l).
  { intros g l. rewrite map_map. reflexivity. }
  destruct b as [pg lp ll lt ld lg].
  assert (Hrot : forall r : Z, Forall (fun op => exists r0, op = Rotate r0) [Rotate r]).
  { intros r. constructor; [eauto | constructor]. }
  destruct (String.eqb fm "bmp") eqn:Eb;
    destruct (String.eqb fm "jpeg") eqn:Ej;
    destruct (String.eqb fm "webp") eqn:Ew.
  all: destruct pg; session_run;
    cbv beta iota zeta delta [einkColors format truthy is_num rotate invert];
    rewrite ?Eb, ?Ej, ?Ew; simpl.
  all: do 3 eexists; split; [reflexivity |]; split; [reflexivity |].
  all: split;
    [ destruct rt as [r |]; [destruct (r =? 0)%Z |]; simpl;
      [ eexists [], _ | eexists [Rotate r], _ | eexists [], _ ];
      (split; [destruct inv; reflexivity | auto])
    | split;
      [ intros Hf; simpl in Hf; try (rewrite Hf in Eb; discriminate Eb); eauto
      | split;
        [ unfold image_pixels, pipeline_pixels;
          destruct rt as [r |]; [destruct (r =? 0)%Z |]; destruct inv; simpl;
          rewrite ?map_map; reflexivity
        | split; intros px Hl; unfold threshold_pixel; rewrite Hl; simpl;
          split; reflexivity ] ] ].
Qed.

Lemma eink2_threshold_witness :
  exists img b',
    _screenshotPage (Samples.params "/lovelace/0" "bmp" (Some 2%Z) false)
      Samples.ok_env fresh = (inr img, b')
    /\ image_pixels Samples.mean_luminance Samples.no_rotation img
       = [black; white].
Proof.
  destruct (eink2_threshold Samples.mean_luminance Samples.no_rotation
              (Samples.params "/lovelace/0" "bmp" (Some 2%Z) false)
              Samples.ok_env fresh eq_refl eq_refl)
    as (img & b' & f & Hr & Hf & _ & _ & Hpx & _).
  exists img, b'. split; [exact Hr |].
  rewrite Hpx. injection Hf as <-. reflexivity.
Defined.

(** ** Navigation *)

(** What navigation does when the requested path is the cached one and the
    calls it makes succeed. *)
Lemma navigate_same_path (isAddOn : bool) (homeAssistantUrl : string)
    (p : Params) (env : Env) (b : Browser) (cur : option Viewport) (d : bool) :
  page b = Some cur ->
  lastRequestedPath b = Some (pagePath p) ->
  setViewport_throws env = None ->
  toast_result env = inr d ->
  setZoom_throws env = None ->
  selectLanguage_throws env = None ->
  setTheme_throws env = None ->
  let vp := mkViewport (width (viewport p))
              (height (viewport p)
               + Math_round (inject_Z HEADER_HEIGHT * zoom p)%Q)%Z in
  let lang_differs := negb (bool_decide (lang p = lastRequestedLang b)) in
  let theme_differs :=
    negb (bool_decide (theme p = lastRequestedTheme b))
    || negb (bool_decide (Some (dark p) = lastRequestedDarkMode b)) in
  let defaultWait :=
    ((if d then 1000 else 0) + (if lang_differs then 1000 else 0)
     + (if theme_differs then 500 else 0))%Z in
  let wait := match extraWait p with Some w => w | None => defaultWait end in
  let acts :=
    (if viewport_differs cur vp then [SetViewport vp] else [])
    ++ [ZoomAndDismissToast (zoom p)]
    ++ (if d then [] else [SetZoom (zoom p)])
    ++ [WaitForLoaded (waitForFunction_times_out env)]
    ++ (if lang_differs then [SelectLanguage (or_default (lang p) "en")] else [])
    ++ (if theme_differs
        then [SetTheme (or_default (theme p) "") (dark p)] else [])
    ++ (if (wait =? 0)%Z then [] else [Sleep wait]) in
  _navigatePage isAddOn homeAssistantUrl p env b
  = (inr (vp, wait),
     mkBrowser (Some (if viewport_differs cur vp then Some vp else cur))
       (Some (pagePath p)) (lang p) (theme p) (Some (dark p))
       (log b ++ acts)).
Proof.
  destruct b as [pg lp ll lt ld lg].
  destruct p as [pp vp0 ew ec inv zm fm rt lng th dk].
  destruct env as [l sv ev g t sz w sl sth sc tb bm].
  simpl. intros -> -> -> -> -> -> ->.
  session_run.
  cbv beta iota zeta delta [viewport zoom pagePath extraWait lang theme dark].
  set (vp := mkViewport _ _).
  destruct (viewport_differs cur vp); session_run.
  all: rewrite String.eqb_refl; session_run.
  all: destruct d; session_run.
  all: destruct (bool_decide (lng = ll)) eqn:El; session_run.
  all: destruct (bool_decide (th = lt)) eqn:Et; session_run.
  all: destruct (bool_decide (Some dk = ld)) eqn:Ed; session_run.
  all: try (apply bool_decide_eq_true in El; subst ll).
  all: try (apply bool_decide_eq_true in Et; subst lt).
  all: try (apply bool_decide_eq_true in Ed; subst ld).
  all: clearbody vp; destruct ew as [x |]; simpl; session_run.
  all: try (destruct (x =? 0)%Z); session_run.
  all: rewrite <- ?app_assoc; reflexivity.
Qed.

(** C6, as the code has it.  When the requested path is the cached one and
    the calls succeed, navigation loads nothing; the zoom is set on every
    request (no zoom is cached); the language is selected again exactly
    when it differs from the cached one, and theme and dark mode exactly
    when one of them differs; afterwards the cache holds the requested
    language, theme and dark mode.  The default wait is 0, plus 1000 when an
    update toast was dismissed, plus 1000 when the language was selected
    again, plus 500 when the theme was set again. *)
Theorem navigate_same_path_noop (isAddOn : bool) (homeAssistantUrl : string)
    (p : Params) (env : Env) (b : Browser) (cur : option Viewport) (d : bool) :
  page b = Some cur ->
  lastRequestedPath b = Some (pagePath p) ->
  setViewport_throws env = None ->
  toast_result env = inr d ->
  setZoom_throws env = None ->
  selectLanguage_throws env = None ->
  setTheme_throws env = None ->
  exists vp wait acts b',
    _navigatePage isAddOn homeAssistantUrl p env b = (inr (vp, wait), b')
    /\ log b' = log b ++ acts
    /\ existsb is_load acts = false
    /\ existsb sets_zoom acts = true
    /\ existsb selects_language acts
       = negb (bool_decide (lang p = lastRequestedLang b))
    /\ existsb sets_theme acts
       = negb (bool_decide (theme p = lastRequestedTheme b))
         || negb (bool_decide (Some (dark p) = lastRequestedDarkMode b))
    /\ lastRequestedPath b' = Some (pagePath p)
    /\ lastRequestedLang b' = lang p
    /\ lastRequestedTheme b' = theme p
    /\ lastRequestedDarkMode b' = Some (dark p)
    /\ wait = match extraWait p with
              | Some w => w
              | None =>
                  ((if d then 1000 else 0)
                   + (if bool_decide (lang p = lastRequestedLang b)
                      then 0 else 1000)
                   + (if bool_decide (theme p = lastRequestedTheme b)
                         && bool_decide (Some (dark p) = lastRequestedDarkMode b)
                      then 0 else 500))%Z
              end.
Proof.
  intros Hp Hl Hsv Ht Hz Hsl Hth.
  pose proof (navigate_same_path isAddOn homeAssistantUrl p env b cur d
                Hp Hl Hsv Ht Hz Hsl Hth) as Hnav.
  cbv zeta in Hnav.
  do 4 eexists. split; [exact Hnav |]. clear Hnav. simpl log.
  split; [reflexivity |].
  set (vp := mkViewport _ _).
  set (wait := match extraWait p with Some w => w | None => _ end).
  assert (Hw : wait = match extraWait p with
              | Some w => w
              | None =>
                  ((if d then 1000 else 0)
                   + (if bool_decide (lang p = lastRequestedLang b)
                      then 0 else 1000)
                   + (if bool_decide (theme p = lastRequestedTheme b)
                         && bool_decide (Some (dark p) = lastRequestedDarkMode b)
                      then 0 else 500))%Z
              end).
  { unfold wait. destruct (extraWait p); [reflexivity |].
    destruct (bool_decide (lang p = lastRequestedLang b)),
      (bool_decide (theme p = lastRequestedTheme b)),
      (bool_decide (Some (dark p) = lastRequestedDarkMode b)), d; reflexivity. }
  clearbody wait vp.
  repeat split; try exact Hw;
    destruct (viewport_differs cur vp), d,
      (bool_decide (lang p = lastRequestedLang b)),
      (bool_decide (theme p = lastRequestedTheme b)),
      (bool_decide (Some (dark p) = lastRequestedDarkMode b)),
      (wait =? 0)%Z; reflexivity.
Qed.

Lemma navigate_same_path_noop_witness :
  let p := Samples.params "/lovelace/0" "png" None false in
  let b1 := snd (_navigatePage false "http://ha:8123" p Samples.ok_env fresh) in
  exists vp wait acts b',
    _navigatePage false "http://ha:8123" p Samples.ok_env b1
    = (inr (vp, wait), b')
    /\ log b' = log b1 ++ acts
    /\ existsb is_load acts = false.
Proof.
  intros p b1.
  destruct (navigate_same_path_noop false "http://ha:8123" p Samples.ok_env b1
              (Some (mkViewport 800 536)) false)
    as (vp & wait & acts & b' & Hr & Hlog & Hload & _);
    try reflexivity.
  exists vp, wait, acts, b'. auto.
Defined.

(** The claim C6 as the specification words it fails: a request that
    repeats the previous one in every parameter still sets the zoom, and
    when an update toast is dismissed the default wait is 1000, not 0. *)
Lemma navigate_same_path_counterexample :
  let p := Samples.params "/lovelace/0" "png" None false in
  let b1 := snd (_navigatePage false "http://ha:8123" p Samples.ok_env fresh) in
  lastRequestedPath b1 = Some (pagePath p)
  /\ lastRequestedLang b1 = lang p
  /\ lastRequestedTheme b1 = theme p
  /\ lastRequestedDarkMode b1 = Some (dark p)
  /\ existsb sets_zoom
       (skipn (length (log b1))
          (log (snd (_navigatePage false "http://ha:8123" p Samples.ok_env b1))))
     = true
  /\ fst (_navigatePage false "http://ha:8123" p Samples.toast_env b1)
     = inr (mkViewport 800 536, 1000%Z).
Proof. vm_compute. repeat split; reflexivity. Qed.

(** C3 fails on the code.  When the remote application answers a change of
    path with a status outside 200-299, [_navigatePage] throws
    [CannotOpenPageError] and the cached path is still the previous one: the
    handler of [_navigatePage] only rethrows. *)
Theorem navigate_error_keeps_path (isAddOn : bool) (homeAssistantUrl : string)
    (p : Params) (env : Env) (b : Browser) (cur : option Viewport)
    (last : string) (status : Z) :
  page b = Some cur ->
  lastRequestedPath b = Some last ->
  last <> pagePath p ->
  setViewport_throws env = None ->
  evaluateOnNewDocument_throws env = None ->
  goto_result env = inr status ->
  response_ok status = false ->
  exists b',
    _navigatePage isAddOn homeAssistantUrl p env b
    = (inl (CannotOpenPageError status (page_url homeAssistantUrl (pagePath p))),
       b')
    /\ lastRequestedPath b' = Some last.
Proof.
  destruct b as [pg lp ll lt ld lg].
  destruct p as [pp vp0 ew ec inv zm fm rt lng th dk].
  destruct env as [l sv ev g t sz w sl sth sc tb bm].
  simpl. intros -> -> Hne -> -> -> Hok.
  apply String.eqb_neq in Hne.
  session_run.
  cbv beta iota zeta delta [viewport zoom pagePath extraWait lang theme dark].
  set (vp := mkViewport _ _).
  destruct (viewport_differs cur vp); session_run;
    rewrite Hne; session_run; rewrite Hok; session_run;
    eexists; split; reflexivity.
Qed.

Lemma navigate_error_keeps_path_witness :
  let b := mkBrowser (Some None) (Some "/lovelace/a") None None None [] in
  let p := Samples.params "/lovelace/b" "png" None false in
  let r := _navigatePage false "http://ha:8123" p Samples.not_found_env b in
  fst r = inl (CannotOpenPageError 404 "http://ha:8123/lovelace/b")
  /\ lastRequestedPath (snd r) = Some "/lovelace/a"
  /\ lastRequestedPath (snd r) <> None.
Proof.
  intros b p r.
  destruct (navigate_error_keeps_path false "http://ha:8123" p
              Samples.not_found_env b None "/lovelace/a" 404%Z)
    as (b' & Hr & Hl); try reflexivity; try discriminate.
  subst r. rewrite Hr. simpl. rewrite Hl.
  split; [reflexivity | split; [reflexivity | discriminate]].
Defined.

(** After the failed change of path, a request for the previous path is
    taken for a page that is already loaded: nothing is loaded again. *)
Example navigate_after_error_is_stale :
  let b := mkBrowser (Some None) (Some "/lovelace/a") None None None [] in
  let failed :=
    _navigatePage false "http://ha:8123"
      (Samples.params "/lovelace/b" "png" None false) Samples.not_found_env b in
  let again :=
    _navigatePage false "http://ha:8123"
      (Samples.params "/lovelace/a" "png" None false) Samples.ok_env
      (snd failed) in
  is_inr (fst again) = true
  /\ existsb is_load (skipn (length (log (snd failed))) (log (snd again)))
     = false.
Proof. vm_compute. split; reflexivity. Qed.

(** A first load whose zoom script fails leaves the requested path cached,
    so that the next request for it loads nothing. *)
Example navigate_error_after_load_keeps_path :
  let p := Samples.params "/lovelace/a" "png" None false in
  let failed :=
    _navigatePage false "http://ha:8123" p Samples.zoom_fails_env fresh in
  let again := _navigatePage false "http://ha:8123" p Samples.ok_env (snd failed) in
  fst failed = inl (Thrown "Execution context was destroyed")
  /\ lastRequestedPath (snd failed) = Some "/lovelace/a"
  /\ is_inr (fst again) = true
  /\ existsb is_load (skipn (length (log (snd failed))) (log (snd again)))
     = false.
Proof. vm_compute. repeat split; reflexivity. Qed.

(** With a healthy environment navigation succeeds from every state of the
    session. *)
Lemma navigate_healthy (isAddOn : bool) (homeAssistantUrl : string)
    (p : Params) (env : Env) (b : Browser) :
  healthy env = true ->
  exists r b', _navigatePage isAddOn homeAssistantUrl p env b = (inr r, b').
Proof.
  intros H. destruct (healthy_inv env H) as (v & st & d & f & -> & Hok).
  destruct b as [pg lp ll lt ld lg].
  destruct p as [pp vp0 ew ec inv zm fm rt lng th dk].
  destruct pg as [cur |], lp as [last |], ew as [x |]; session_run;
    cbv beta iota zeta delta [viewport zoom pagePath extraWait lang theme dark];
    repeat match goal with
           | |- context [response_ok st] => rewrite Hok; session_run
           | |- context [if ?c then _ else _] => destruct c; session_run
           end;
    eauto.
Qed.

Lemma navigateAndScreenshot_healthy (isAddOn : bool) (homeAssistantUrl : string)
    (p : Params) (env : Env) (b : Browser) :
  healthy env = true ->
  exists img b',
    navigateAndScreenshot isAddOn homeAssistantUrl p env b = (inr img, b').
Proof.
  intros H.
  destruct (navigate_healthy isAddOn homeAssistantUrl p env b H)
    as ([vp w] & b1 & Hn).
  destruct (screenshot_healthy (with_viewport p vp) env b1 H)
    as (img & b2 & f & Hs & _).
  exists img, b2. unfold navigateAndScreenshot.
  erewrite bind_inr; [| exact Hn]. exact Hs.
Qed.

(** ** Configuration *)

Lemma validate_one_ok (index : nat) (c : Scheduler.ScreenshotConfig) :
  (exists j, Scheduler.validate_one index c = inr j)
  <-> Scheduler.has_required_fields c = true.
Proof.
  unfold Scheduler.validate_one, Scheduler.has_required_fields,
    Scheduler.effective_viewport.
  destruct (Scheduler.truthy_string (Scheduler.name c));
    [| split; [intros [j Hj]; discriminate | discriminate]].
  destruct (Scheduler.truthy_string (Scheduler.path c));
    [| split; [intros [j Hj]; discriminate | discriminate]].
  assert (Hi : forall (w h : Z) n0 p0,
    (exists j,
       match Scheduler.truthy_number (Scheduler.interval c) with
       | Some i =>
           if (i <? 1)%Z then inl (Scheduler.InvalidInterval n0)
           else inr (Scheduler.mkJob n0 p0 w h i (Scheduler.wait c)
                       (Scheduler.eink c) (Scheduler.invert c)
                       (Scheduler.zoom c) (Scheduler.format c)
                       (Scheduler.rotate c) (Scheduler.lang c)
                       (Scheduler.theme c) (Scheduler.dark c))
       | None => inl (Scheduler.InvalidInterval n0)
       end = inr j)
    <-> match Scheduler.interval c with
        | Some i => (1 <=? i)%Z
        | None => false
        end = true).
  { intros w h n0 p0. unfold Scheduler.truthy_number.
    destruct (Scheduler.interval c) as [i |];
      [| split; [intros [j Hj]; discriminate | discriminate]].
    destruct (Z.eqb_spec i 0) as [-> | Hne];
      [split; [intros [j Hj]; discriminate | discriminate] |].
    destruct (Z.ltb_spec i 1), (Z.leb_spec 1 i); try lia;
      split; try discriminate; eauto.
    intros [j Hj]. discriminate. }
  destruct (Scheduler.viewport c) as [v |].
  - destruct (Scheduler.truthy_number (Scheduler.vc_width v));
      [| split; [intros [j Hj]; discriminate | discriminate]].
    destruct (Scheduler.truthy_number (Scheduler.vc_height v));
      [| split; [intros [j Hj]; discriminate | discriminate]].
    apply Hi.
  - destruct (Scheduler.truthy_number (Scheduler.width c)) as [w |] eqn:Ew;
      [| split; [intros [j Hj]; discriminate | discriminate]].
    destruct (Scheduler.truthy_number (Scheduler.height c)) as [h |] eqn:Eh;
      [| split; [intros [j Hj]; discriminate | discriminate]].
    assert (Hw : Scheduler.truthy_number (Some w) = Some w).
    { unfold Scheduler.truthy_number in *.
      destruct (Scheduler.width c) as [w0 |]; [| discriminate].
      destruct (w0 =? 0)%Z eqn:E; [discriminate |].
      injection Ew as ->. rewrite E. reflexivity. }
    assert (Hh : Scheduler.truthy_number (Some h) = Some h).
    { unfold Scheduler.truthy_number in *.
      destruct (Scheduler.height c) as [h0 |]; [| discriminate].
      destruct (h0 =? 0)%Z eqn:E; [discriminate |].
      injection Eh as ->. rewrite E. reflexivity. }
    cbn [Scheduler.vc_width Scheduler.vc_height]. rewrite Hw, Hh.
    apply Hi.
Qed.

Lemma validate_from_ok (l : list Scheduler.ScreenshotConfig) : forall index,
  (exists js, Scheduler.validate_from index l = inr js)
  <-> forallb Scheduler.has_required_fields l = true.
Proof.
  induction l as [| c l IH]; intros index; simpl.
  - split; eauto.
  - rewrite andb_true_iff, <- (validate_one_ok index c), <- (IH (S index)).
    destruct (Scheduler.validate_one index c) as [e | j].
    + split; [intros [js Hjs]; discriminate | intros [[j Hj] _]; discriminate].
    + destruct (Scheduler.validate_from (S index) l) as [e | js].
      * split; [intros [? ?]; discriminate | intros [_ [? ?]]; discriminate].
      * split; eauto.
Qed.

Lemma loadConfig_keeps_timers src s :
  Scheduler.timers (snd (Scheduler.loadConfig src s)) = Scheduler.timers s
  /\ Scheduler.jobs (snd (Scheduler.loadConfig src s)) = Scheduler.jobs s
  /\ Scheduler.launched (snd (Scheduler.loadConfig src s)) = Scheduler.launched s.
Proof.
  unfold Scheduler.loadConfig.
  destruct src as [c | [c |]]; simpl; auto;
    destruct (Scheduler.screenshots c); simpl; auto;
    destruct (Scheduler.validate_off_hours (Scheduler.off_hours c)) as [e | [o |]];
    simpl; auto.
Qed.

Lemma within_bounds_required (c : Scheduler.ScreenshotConfig) :
  Scheduler.within_documented_bounds c = true ->
  Scheduler.truthy_string (Scheduler.name c) <> None ->
  Scheduler.truthy_string (Scheduler.path c) <> None ->
  Scheduler.has_required_fields c = true.
Proof.
  unfold Scheduler.within_documented_bounds, Scheduler.has_required_fields.
  rewrite !andb_true_iff. intros [[[Hv Hi] _] _] Hn Hp.
  destruct (Scheduler.truthy_string (Scheduler.name c)); [| congruence].
  destruct (Scheduler.truthy_string (Scheduler.path c)); [| congruence].
  destruct (Scheduler.effective_viewport c) as [[w h] |]; [| discriminate].
  destruct (Scheduler.interval c); [exact Hi | discriminate].
Qed.

(** C2, as the code has it.  [loadConfig] accepts a list of entries exactly
    when every entry has a name, a path, a viewport with width and height
    and an interval of at least one second; [start] then schedules, and
    otherwise fails with no timer, job or capture added.  Entries within
    the documented bounds that have a name and a path are accepted.  Neither
    the documented bounds of width, height, wait and zoom nor the
    uniqueness of names is checked: [scheduleJob] leaves the scheduler as it
    is for a name that is already scheduled. *)
Theorem load_config_required_fields
    (src : Scheduler.ConfigSource) (cfg : Scheduler.Config)
    (entries : list Scheduler.ScreenshotConfig) (s : Scheduler.Scheduler) :
  Scheduler.source_config src = Some cfg ->
  Scheduler.screenshots cfg = Some entries ->
  is_inr (Scheduler.validate_off_hours (Scheduler.off_hours cfg)) = true ->
  ((exists js, fst (Scheduler.loadConfig src s) = inr js)
   <-> forallb Scheduler.has_required_fields entries = true)
  /\ (fst (Scheduler.start src s) = inr tt
      <-> forallb Scheduler.has_required_fields entries = true)
  /\ (forall e, fst (Scheduler.start src s) = inl e ->
        Scheduler.timers (snd (Scheduler.start src s)) = Scheduler.timers s
        /\ Scheduler.jobs (snd (Scheduler.start src s)) = Scheduler.jobs s
        /\ Scheduler.launched (snd (Scheduler.start src s))
           = Scheduler.launched s)
  /\ (Forall (fun c => Scheduler.within_documented_bounds c = true
                       /\ Scheduler.truthy_string (Scheduler.name c) <> None
                       /\ Scheduler.truthy_string (Scheduler.path c) <> None)
        entries ->
      fst (Scheduler.start src s) = inr tt)
  /\ (forall c delay s0,
        is_Some (Scheduler.jobs s0 !! Scheduler.j_name c) ->
        Scheduler.scheduleJob c delay s0 = s0).
Proof.
  intros Hsrc Hent Hoh.
  assert (Hload : fst (Scheduler.loadConfig src s)
                  = Scheduler.validate_from 0 entries).
  { unfold Scheduler.loadConfig.
    destruct src as [c | [c |]]; simpl in Hsrc; try discriminate;
      injection Hsrc as ->; rewrite Hent;
      destruct (Scheduler.validate_off_hours (Scheduler.off_hours cfg));
      try discriminate; reflexivity. }
  assert (Hstart : fst (Scheduler.start src s) = inr tt
                   <-> forallb Scheduler.has_required_fields entries = true).
  { rewrite <- (validate_from_ok entries 0), <- Hload. unfold Scheduler.start.
    destruct (Scheduler.loadConfig src s) as [[e | js] s']; simpl.
    - split; [discriminate | intros [? ?]; discriminate].
    - split; eauto. }
  split; [rewrite Hload; apply validate_from_ok |].
  split; [exact Hstart |].
  split; [| split].
  - intros e He. unfold Scheduler.start in *.
    pose proof (loadConfig_keeps_timers src s) as Hk.
    destruct (Scheduler.loadConfig src s) as [[e' | js] s']; simpl in *;
      [exact Hk | discriminate].
  - intros Hall. apply Hstart. apply forallb_forall. intros c Hc.
    rewrite Forall_forall in Hall.
    destruct (Hall c) as (Hb & Hn & Hp).
    { apply list_elem_of_In. exact Hc. }
    apply within_bounds_required; assumption.
  - intros c delay s0 [x Hx]. unfold Scheduler.scheduleJob. rewrite Hx.
    reflexivity.
Qed.

Lemma load_config_required_fields_witness :
  fst (Scheduler.start
         (Scheduler.FromOptions
            (Scheduler.mkConfig
               (Some [Samples.entry "kitchen" 800 480 60;
                      Samples.entry "hall" 1920 1080 300]) None))
         Scheduler.new)
  = inr tt.
Proof.
  apply (proj1 (proj2 (proj2 (proj2
           (load_config_required_fields
              (Scheduler.FromOptions
                 (Scheduler.mkConfig
                    (Some [Samples.entry "kitchen" 800 480 60;
                           Samples.entry "hall" 1920 1080 300]) None))
              _ _ Scheduler.new eq_refl eq_refl eq_refl)))));
  repeat constructor; discriminate.
Defined.

(** The claim C2 as the specification words it fails: a configuration whose
    two entries share a name and lie outside the documented bounds of width,
    height, wait and zoom is loaded, and [start] schedules its first
    entry. *)
Lemma load_config_counterexample :
  Scheduler.within_documented_bounds Samples.out_of_bounds_entry = false
  /\ Scheduler.entry_names
       [Samples.out_of_bounds_entry; Samples.out_of_bounds_entry]
     = ["kitchen"; "kitchen"]
  /\ is_inr (fst (Scheduler.loadConfig
                    (Scheduler.FromOptions Samples.duplicated_config)
                    Scheduler.new)) = true
  /\ fst (Scheduler.start (Scheduler.FromOptions Samples.duplicated_config)
            Scheduler.new) = inr tt
  /\ length (Scheduler.timers
               (snd (Scheduler.start
                       (Scheduler.FromOptions Samples.duplicated_config)
                       Scheduler.new))) = 1.
Proof. vm_compute. repeat split; reflexivity. Qed.

(** ** Firings *)

Section FiringFacts.
Variable isAddOn : bool.
Variables hassUrl outputPath : string.

Let captureScreenshot := Scheduler.captureScreenshot isAddOn hassUrl outputPath.
Let capture_body := Scheduler.capture_body isAddOn hassUrl outputPath.
Let fire := Scheduler.fire isAddOn hassUrl outputPath.
Let fire_all := Scheduler.fire_all isAddOn hassUrl outputPath.

Lemma capture_body_same_schedule c env fenv s :
  Scheduler.same_schedule s (snd (capture_body c env fenv s)).
Proof.
  unfold capture_body, Scheduler.capture_body, Scheduler.saveScreenshot.
  destruct (navigateAndScreenshot _ _ _ _ _) as [[e | img] b']; simpl;
    [repeat split |].
  destruct (Scheduler.mkdir_throws fenv); simpl; [repeat split |].
  destruct (Scheduler.writeFile_throws fenv); simpl; repeat split.
Qed.

Lemma captureScreenshot_same_schedule c h m env fenv s :
  Scheduler.same_schedule s (snd (captureScreenshot c h m env fenv s)).
Proof.
  unfold captureScreenshot, Scheduler.captureScreenshot.
  destruct (Scheduler.isOffHours _ _ _); [repeat split |].
  pose proof (capture_body_same_schedule c env fenv s) as H.
  unfold capture_body in H.
  destruct (Scheduler.capture_body _ _ _ _ _ _ _) as [[e | [pth url]] s'];
    exact H.
Qed.

Lemma drop_timer_intervals tid l t :
  find (fun t => Scheduler.timer_id t =? tid) l = Some t ->
  Scheduler.is_interval t = false ->
  List.filter Scheduler.is_interval (Scheduler.drop_timer tid l)
  = List.filter Scheduler.is_interval l.
Proof.
  induction l as [| x l IH]; simpl; [discriminate |].
  destruct (Scheduler.timer_id x =? tid) eqn:E.
  - intros [= ->] Hk. rewrite Hk. reflexivity.
  - intros Hf Hk. simpl. rewrite (IH Hf Hk). reflexivity.
Qed.

Lemma drop_timer_find tid tid' l t t' :
  find (fun t => Scheduler.timer_id t =? tid') l = Some t' ->
  Scheduler.is_interval t' = false ->
  find (fun t => Scheduler.timer_id t =? tid) l = Some t ->
  Scheduler.is_interval t = true ->
  find (fun t => Scheduler.timer_id t =? tid) (Scheduler.drop_timer tid' l)
  = Some t.
Proof.
  induction l as [| x l IH]; simpl; [discriminate |].
  destruct (Scheduler.timer_id x =? tid') eqn:E'.
  - intros [= ->] Hk'. destruct (Scheduler.timer_id t' =? tid) eqn:E.
    + intros [= ->] Hk. congruence.
    + auto.
  - intros Hf' Hk'. simpl. destruct (Scheduler.timer_id x =? tid) eqn:E.
    + auto.
    + intros Hf Hk. apply IH; assumption.
Qed.

Lemma is_interval_kind t :
  Scheduler.is_interval t
  = match Scheduler.kind t with
    | Scheduler.Interval _ => true
    | Scheduler.Timeout _ => false
    end.
Proof. reflexivity. Qed.

Lemma fire_same_recurring tid h m env fenv s :
  Scheduler.same_recurring s (snd (fire tid h m env fenv s)).
Proof.
  unfold fire, Scheduler.fire, Scheduler.find_timer.
  destruct (find _ (Scheduler.timers s)) as [t |] eqn:Hf;
    [| repeat split].
  pose proof (is_interval_kind t) as Hk.
  set (s1 := match Scheduler.kind t with
             | Scheduler.Timeout _ => Scheduler.remove_timer tid s
             | Scheduler.Interval _ => s
             end).
  assert (H1 : Scheduler.same_recurring s s1).
  { unfold s1. destruct (Scheduler.kind t); [| repeat split].
    split; [| repeat split]. simpl.
    apply (drop_timer_intervals tid _ t); assumption. }
  destruct (Scheduler.isShuttingDown s1) eqn:Hsd; [exact H1 |].
  pose proof (captureScreenshot_same_schedule (Scheduler.timer_job t) h m env
                fenv s1) as H2.
  unfold captureScreenshot in H2.
  destruct (Scheduler.captureScreenshot _ _ _ _ _ _ _ _ _) as [o s2].
  simpl in *. destruct H1 as (A1 & A2 & A3 & A4).
  destruct H2 as (B1 & B2 & B3 & B4).
  unfold Scheduler.same_recurring. rewrite B1, B2, B3, B4. auto.
Qed.

Lemma fire_keeps_interval tid tid' h m env fenv s t :
  Scheduler.find_timer tid s = Some t ->
  Scheduler.is_interval t = true ->
  Scheduler.find_timer tid (snd (fire tid' h m env fenv s)) = Some t.
Proof.
  intros Hf Hi. unfold fire, Scheduler.fire.
  destruct (Scheduler.find_timer tid' s) as [t' |] eqn:Hf'; [| exact Hf].
  pose proof (is_interval_kind t') as Hk.
  set (s1 := match Scheduler.kind t' with
             | Scheduler.Timeout _ => Scheduler.remove_timer tid' s
             | Scheduler.Interval _ => s
             end).
  assert (H1 : Scheduler.find_timer tid s1 = Some t).
  { unfold s1. destruct (Scheduler.kind t'); [| exact Hf].
    unfold Scheduler.find_timer in *. simpl.
    apply (drop_timer_find tid tid' _ t t'); assumption. }
  destruct (Scheduler.isShuttingDown s1); [exact H1 |].
  pose proof (captureScreenshot_same_schedule (Scheduler.timer_job t') h m env
                fenv s1) as H2.
  unfold captureScreenshot in H2.
  destruct (Scheduler.captureScreenshot _ _ _ _ _ _ _ _ _) as [o s2].
  simpl in *. destruct H2 as (B1 & _).
  unfold Scheduler.find_timer in *. rewrite B1. exact H1.
Qed.

Lemma fire_all_snoc fs f s :
  fire_all (fs ++ [f]) s
  = (fst (fire_all fs s)
       ++ [fst (fire (Scheduler.fi_timer f) (Scheduler.fi_hours f)
                  (Scheduler.fi_minutes f) (Scheduler.fi_env f)
                  (Scheduler.fi_fenv f) (snd (fire_all fs s)))],
     snd (fire (Scheduler.fi_timer f) (Scheduler.fi_hours f)
            (Scheduler.fi_minutes f) (Scheduler.fi_env f)
            (Scheduler.fi_fenv f) (snd (fire_all fs s)))).
Proof.
  unfold fire_all, Scheduler.fire_all. rewrite fold_left_app. simpl.
  unfold fire.
  destruct (Scheduler.fire _ _ _ _ _ _ _ _ _) as [o s']. reflexivity.
Qed.

Lemma fire_all_same_recurring fs s :
  Scheduler.same_recurring s (snd (fire_all fs s)).
Proof.
  induction fs as [| f fs IH] using rev_ind.
  - repeat split.
  - rewrite fire_all_snoc. simpl.
    pose proof (fire_same_recurring (Scheduler.fi_timer f)
                  (Scheduler.fi_hours f) (Scheduler.fi_minutes f)
                  (Scheduler.fi_env f) (Scheduler.fi_fenv f)
                  (snd (fire_all fs s))) as H.
    destruct IH as (A1 & A2 & A3 & A4). destruct H as (B1 & B2 & B3 & B4).
    unfold Scheduler.same_recurring. rewrite B1, B2, B3, B4. auto.
Qed.

Lemma fire_all_keeps_interval fs s tid t :
  Scheduler.find_timer tid s = Some t ->
  Scheduler.is_interval t = true ->
  Scheduler.find_timer tid (snd (fire_all fs s)) = Some t.
Proof.
  intros Hf Hi. induction fs as [| f fs IH] using rev_ind; [exact Hf |].
  rewrite fire_all_snoc. simpl. apply fire_keeps_interval; assumption.
Qed.

(** Outside off-hours, a firing in a healthy environment succeeds whatever
    the state of the session. *)
Lemma captureScreenshot_healthy c h m env fenv s :
  Scheduler.isOffHours (Scheduler.offHours s) h m = false ->
  healthy env = true ->
  Scheduler.mkdir_throws fenv = false ->
  Scheduler.writeFile_throws fenv = false ->
  Scheduler.success (fst (captureScreenshot c h m env fenv s)) = true.
Proof.
  intros Ho He Hm Hw.
  unfold captureScreenshot, Scheduler.captureScreenshot. rewrite Ho.
  unfold Scheduler.capture_body, Scheduler.saveScreenshot.
  destruct (navigateAndScreenshot_healthy isAddOn hassUrl
              (Scheduler.requestParams c) env (Scheduler.browser s) He)
    as (img & b' & Hn).
  rewrite Hn, Hm, Hw. reflexivity.
Qed.

End FiringFacts.

(** C5.  An error raised while a job fires, in navigation, capture,
    post-processing or saving, is caught in that firing and becomes the
    outcome [{ success: false, error }]; [captureScreenshot] always returns
    an outcome.  Whatever the firings and their failures, the recurring
    timers, the job table, the shutdown flag and the off-hours window stay
    as they were, every recurring timer is still found, and a later firing
    of any recurring timer in a healthy environment succeeds. *)
Theorem capture_failure_contained
    (isAddOn : bool) (hassUrl outputPath : string) :
  (forall c h m env fenv s,
     Scheduler.isOffHours (Scheduler.offHours s) h m = false ->
     match fst (Scheduler.capture_body isAddOn hassUrl outputPath c env fenv s)
     with
     | inl err =>
         fst (Scheduler.captureScreenshot isAddOn hassUrl outputPath c h m env
                fenv s)
         = Scheduler.mkOutcome false None None (Some err) false None
     | inr (pth, url) =>
         fst (Scheduler.captureScreenshot isAddOn hassUrl outputPath c h m env
                fenv s)
         = Scheduler.mkOutcome true (Some pth) (Some url) None false None
     end)
  /\ (forall c h m env fenv s e b',
        Scheduler.isOffHours (Scheduler.offHours s) h m = false ->
        navigateAndScreenshot isAddOn hassUrl (Scheduler.requestParams c) env
          (Scheduler.browser s) = (inl e, b') ->
        fst (Scheduler.captureScreenshot isAddOn hassUrl outputPath c h m env
               fenv s)
        = Scheduler.mkOutcome false None None
            (Some (Scheduler.BrowserFailure e)) false None)
  /\ (forall fs s,
        Scheduler.same_recurring s
          (snd (Scheduler.fire_all isAddOn hassUrl outputPath fs s)))
  /\ (forall fs s tid t h m env fenv,
        Scheduler.find_timer tid s = Some t ->
        Scheduler.is_interval t = true ->
        Scheduler.isShuttingDown s = false ->
        Scheduler.isOffHours (Scheduler.offHours s) h m = false ->
        healthy env = true ->
        Scheduler.mkdir_throws fenv = false ->
        Scheduler.writeFile_throws fenv = false ->
        let s' := snd (Scheduler.fire_all isAddOn hassUrl outputPath fs s) in
        Scheduler.find_timer tid s' = Some t
        /\ exists o,
             fst (Scheduler.fire isAddOn hassUrl outputPath tid h m env fenv s')
             = Some o
             /\ Scheduler.success o = true).
Proof.
  split; [| split; [| split]].
  - intros c h m env fenv s Ho. unfold Scheduler.captureScreenshot.
    rewrite Ho.
    destruct (Scheduler.capture_body _ _ _ _ _ _ _) as [[err | [pth url]] s'];
      reflexivity.
  - intros c h m env fenv s e b' Ho Hn.
    unfold Scheduler.captureScreenshot, Scheduler.capture_body.
    rewrite Ho, Hn. reflexivity.
  - intros fs s. apply fire_all_same_recurring.
  - intros fs s tid t h m env fenv Hf Hi Hsd Ho He Hm Hw s'.
    pose proof (fire_all_keeps_interval isAddOn hassUrl outputPath fs s tid t
                  Hf Hi) as Hf'.
    destruct (fire_all_same_recurring isAddOn hassUrl outputPath fs s)
      as (_ & _ & Hsd' & Ho').
    fold s' in Hf', Hsd', Ho'. split; [exact Hf' |].
    unfold Scheduler.fire. rewrite Hf'.
    rewrite is_interval_kind in Hi.
    destruct (Scheduler.kind t) as [ms | ms]; [discriminate |].
    rewrite Hsd', Hsd.
    pose proof (captureScreenshot_healthy isAddOn hassUrl outputPath
                  (Scheduler.timer_job t) h m env fenv s') as Hc.
    rewrite Ho' in Hc. specialize (Hc Ho He Hm Hw).
    destruct (Scheduler.captureScreenshot _ _ _ _ _ _ _ _ _) as [o s2].
    exists o. split; [reflexivity | exact Hc].
Qed.

Lemma capture_failure_contained_witness :
  let s := snd (Scheduler.start (Scheduler.FromOptions Samples.two_jobs)
                  Scheduler.new) in
  let failed :=
    Scheduler.fire_all false "http://ha:8123" "/config/www/screenshots"
      [Scheduler.mkFiring 0 12 0 Samples.not_found_env Samples.disk_ok] s in
  map (option_map Scheduler.success) (fst failed) = [Some false]
  /\ exists o,
       fst (Scheduler.fire false "http://ha:8123" "/config/www/screenshots"
              2 12 5 Samples.ok_env Samples.disk_ok (snd failed))
       = Some o
       /\ Scheduler.success o = true.
Proof.
  intros s failed. split; [reflexivity |].
  destruct (proj2 (proj2 (proj2
              (capture_failure_contained false "http://ha:8123"
                 "/config/www/screenshots")))
              [Scheduler.mkFiring 0 12 0 Samples.not_found_env Samples.disk_ok]
              s 2
              (Scheduler.mkTimer 2 (Scheduler.Interval 300000)
                 (Scheduler.mkJob "hall" "/lovelace/0" 1920 1080 300 None None
                    None None None None None None None))
              12%Z 5%Z Samples.ok_env Samples.disk_ok
              eq_refl eq_refl eq_refl eq_refl eq_refl eq_refl eq_refl)
    as (_ & o & Ho & Hs).
  exists o. split; [exact Ho | exact Hs].
Defined.

(** ** The bitmap encoder *)

(** *** Lists read by position *)

Lemma nth_flat_map_uniform {A B} (f : A -> list B) (rs : nat) (d : B) (da : A) :
  forall l k j,
    (forall a, In a l -> length (f a) = rs) ->
    k < length l -> j < rs ->
    nth (k * rs + j) (flat_map f l) d = nth j (f (nth k l da)) d.
Proof.
  induction l as [| a l IH]; intros k j Hlen Hk Hj; simpl in Hk; [lia |].
  assert (Ha : length (f a) = rs) by (apply Hlen; left; reflexivity).
  simpl flat_map. destruct k as [| k].
  - simpl. apply app_nth1. lia.
  - rewrite app_nth2 by lia.
    replace (S k * rs + j - length (f a)) with (k * rs + j) by lia.
    simpl nth. apply IH; [| lia | exact Hj].
    intros a' Ha'. apply Hlen. right. exact Ha'.
Qed.

Lemma nth_map_seq {B} (f : nat -> B) (n j : nat) (d : B) :
  j < n -> nth j (map f (seq 0 n)) d = f j.
Proof.
  intros Hj. rewrite (nth_indep _ d (f 0)) by (rewrite length_map, length_seq; lia).
  rewrite map_nth, seq_nth by lia. reflexivity.
Qed.

Lemma nth_rev_seq (h k : nat) :
  k < h -> nth k (rev (seq 0 h)) 0 = h - 1 - k.
Proof.
  intros Hk. rewrite rev_nth by (rewrite length_seq; lia).
  rewrite length_seq, seq_nth by lia. lia.
Qed.

Lemma flat_map_seq_shift {B} (n : nat) : forall (g : nat -> list B) (a : nat),
  flat_map g (seq a n) = flat_map (fun x => g (a + x)) (seq 0 n).
Proof.
  induction n as [| n IH]; intros g a; [reflexivity |].
  simpl. rewrite Nat.add_0_r. f_equal.
  rewrite (IH g (S a)), (IH (fun x => g (a + x)) 1).
  apply flat_map_ext. intros x. f_equal. lia.
Qed.

Lemma flat_map_ext_in {A B} (f g : A -> list B) (l : list A) :
  (forall a, In a l -> f a = g a) -> flat_map f l = flat_map g l.
Proof.
  induction l as [| a l IH]; intros H; [reflexivity |].
  simpl. rewrite (H a) by (left; reflexivity). f_equal.
  apply IH. intros a' Ha'. apply H. right. exact Ha'.
Qed.

Lemma flat_map_grid {B} (g : nat -> list B) (w h : nat) :
  flat_map (fun y => flat_map (fun x => g (y * w + x)) (seq 0 w)) (seq 0 h)
  = flat_map g (seq 0 (h * w)).
Proof.
  induction h as [| h IH]; [reflexivity |].
  replace (S h * w) with (h * w + w) by lia.
  rewrite seq_S, flat_map_app, IH, seq_app, flat_map_app. f_equal.
  cbn [flat_map Nat.add]. rewrite app_nil_r.
  symmetry. exact (flat_map_seq_shift w g (h * w)).
Qed.

Lemma enum_single (l : list Z) :
  flat_map (fun i => [nth i l 0%Z]) (seq 0 (length l)) = l.
Proof.
  induction l as [| a l IH]; [reflexivity |].
  simpl. f_equal. rewrite (flat_map_seq_shift _ _ 1). exact IH.
Qed.

Lemma enum_triple (n : nat) : forall l : list Z,
  length l = 3 * n ->
  flat_map (fun i => [nth (3 * i) l 0%Z; nth (3 * i + 1) l 0%Z;
                      nth (3 * i + 2) l 0%Z]) (seq 0 n) = l.
Proof.
  induction n as [| n IH]; intros l Hl.
  - destruct l; [reflexivity | simpl in Hl; lia].
  - destruct l as [| a [| b [| c l]]]; simpl in Hl; try lia.
    change (seq 0 (S n)) with (0 :: seq 1 n). cbn [flat_map app].
    change (nth (3 * 0) (a :: b :: c :: l) 0%Z) with a.
    change (nth (3 * 0 + 1) (a :: b :: c :: l) 0%Z) with b.
    change (nth (3 * 0 + 2) (a :: b :: c :: l) 0%Z) with c.
    do 3 f_equal.
    rewrite (flat_map_seq_shift _ _ 1).
    etransitivity; [| apply (IH l); lia].
    apply flat_map_ext. intros x.
    replace (3 * (1 + x)) with (S (S (S (3 * x)))) by lia.
    reflexivity.
Qed.

(** *** Sizes *)

Lemma length_flat_map_uniform {A B} (f : A -> list B) (rs : nat) (l : list A) :
  (forall a, In a l -> length (f a) = rs) ->
  length (flat_map f l) = length l * rs.
Proof.
  induction l as [| a l IH]; intros H; [reflexivity |].
  simpl. rewrite length_app, H by (left; reflexivity).
  rewrite IH; [reflexivity |]. intros a' Ha'. apply H. right. exact Ha'.
Qed.

Lemma length_headers (w h bits : nat) :
  length (Bmp.file_header w h bits ++ Bmp.info_header w h bits) = 54.
Proof. reflexivity. Qed.

Lemma length_color_table (bits : nat) :
  length (Bmp.color_table bits) = 4 * Bmp.palette_entries bits.
Proof.
  unfold Bmp.color_table.
  rewrite (length_flat_map_uniform _ 4) by reflexivity.
  rewrite length_seq. lia.
Qed.

Lemma length_row_bytes (bits w : nat) (data : list Z) (y : nat) :
  length (Bmp.row_bytes bits w data y)
  = if bits =? 24 then 3 * w else (w * bits + 7) / 8.
Proof.
  unfold Bmp.row_bytes. destruct (bits =? 24).
  - rewrite (length_flat_map_uniform _ 3) by reflexivity.
    rewrite length_seq. lia.
  - rewrite length_map, length_seq. reflexivity.
Qed.

Lemma row_bytes_fit (bits w : nat) (data : list Z) (y : nat) :
  Bmp.supported bits ->
  length (Bmp.row_bytes bits w data y) <= Bmp.row_size w bits.
Proof.
  intros Hs. rewrite length_row_bytes. unfold Bmp.row_size.
  destruct Hs as [-> | [-> | [-> | [-> | ->]]]]; simpl Nat.eqb; cbv iota; lia.
Qed.

Lemma length_padded_row (bits w : nat) (data : list Z) (y : nat) :
  Bmp.supported bits ->
  length (Bmp.padded_row bits w data y) = Bmp.row_size w bits.
Proof.
  intros Hs. pose proof (row_bytes_fit bits w data y Hs) as Hfit.
  unfold Bmp.padded_row. rewrite length_app, repeat_length. lia.
Qed.

Lemma length_pixel_rows (w h bits : nat) (data : list Z) :
  Bmp.supported bits ->
  length (Bmp.pixel_rows w h bits data) = h * Bmp.row_size w bits.
Proof.
  intros Hs. unfold Bmp.pixel_rows.
  rewrite (length_flat_map_uniform _ (Bmp.row_size w bits)).
  - rewrite length_rev, length_seq. reflexivity.
  - intros y _. apply length_padded_row. exact Hs.
Qed.

Lemma encode_split (w h bits : nat) (data : list Z) :
  Bmp.encode w h bits data
  = (Bmp.file_header w h bits ++ Bmp.info_header w h bits)
    ++ Bmp.color_table bits ++ Bmp.pixel_rows w h bits data.
Proof. unfold Bmp.encode. rewrite app_assoc. reflexivity. Qed.

Lemma length_encode (w h bits : nat) (data : list Z) :
  Bmp.supported bits ->
  length (Bmp.encode w h bits data)
  = 14 + 40 + 4 * Bmp.palette_entries bits + h * Bmp.row_size w bits.
Proof.
  intros Hs.
  rewrite encode_split, length_app, length_headers, length_app,
    length_color_table, length_pixel_rows by exact Hs.
  lia.
Qed.

(** *** Reading the headers back *)

Lemma le32_value (n : Z) (a b c d : Z) :
  (0 <= n < 4294967296)%Z ->
  Bmp.le32 n = [a; b; c; d] ->
  (a + 256 * (b + 256 * (c + 256 * d)))%Z = n.
Proof. unfold Bmp.le32. intros Hn [= <- <- <- <-]. lia. Qed.

Lemma palette_entries_small (bits : nat) :
  Bmp.supported bits -> Bmp.palette_entries bits <= 256.
Proof.
  intros [-> | [-> | [-> | [-> | ->]]]]; vm_compute; lia.
Qed.

Lemma encode_header_fields (w h bits : nat) (data : list Z) :
  Bmp.supported bits ->
  (Z.of_nat w < 4294967296)%Z -> (Z.of_nat h < 4294967296)%Z ->
  let f := Bmp.encode w h bits data in
  nth 0 f 0%Z = 66%Z /\ nth 1 f 0%Z = 77%Z
  /\ Z.to_nat (Bmp.rd32 f 10) = Bmp.data_offset bits
  /\ Z.to_nat (Bmp.rd32 f 18) = w
  /\ Z.to_nat (Bmp.rd32 f 22) = h
  /\ Z.to_nat (Bmp.rd16 f 28) = bits.
Proof.
  intros Hs Hw Hh f.
  pose proof (palette_entries_small bits Hs) as Hp.
  assert (Hb : bits <= 24) by (destruct Hs as [-> | [-> | [-> | [-> | ->]]]]; lia).
  subst f. unfold Bmp.encode, Bmp.file_header, Bmp.info_header, Bmp.rd32,
    Bmp.rd16, Bmp.le32, Bmp.le16, Bmp.data_offset.
  cbn [nth app Nat.add].
  repeat split; try reflexivity; lia.
Qed.

(** *** Reading the colour table and the rows back *)

Lemma encode_palette (w h bits : nat) (data : list Z) (i : nat) :
  i < Bmp.palette_entries bits ->
  nth (54 + 4 * i) (Bmp.encode w h bits data) 0%Z = Bmp.grey_level bits i.
Proof.
  intros Hi. rewrite encode_split.
  rewrite <- (length_headers w h bits) at 1. rewrite app_nth2_plus.
  rewrite app_nth1 by (rewrite length_color_table; lia).
  unfold Bmp.color_table.
  replace (4 * i) with (i * 4 + 0) by lia.
  rewrite (nth_flat_map_uniform _ 4 0%Z 0) by
    (try reflexivity; try lia; rewrite length_seq; exact Hi).
  rewrite seq_nth by exact Hi. reflexivity.
Qed.

Lemma encode_row (w h bits : nat) (data : list Z) (k j : nat) :
  Bmp.supported bits ->
  k < h -> j < Bmp.row_size w bits ->
  nth (Bmp.data_offset bits + k * Bmp.row_size w bits + j)
    (Bmp.encode w h bits data) 0%Z
  = nth j (Bmp.padded_row bits w data (h - 1 - k)) 0%Z.
Proof.
  intros Hs Hk Hj. rewrite encode_split, app_assoc.
  assert (Hlen : length ((Bmp.file_header w h bits ++ Bmp.info_header w h bits)
                         ++ Bmp.color_table bits) = Bmp.data_offset bits).
  { rewrite length_app, length_headers, length_color_table.
    unfold Bmp.data_offset. lia. }
  rewrite <- Hlen, <- Nat.add_assoc, app_nth2_plus.
  unfold Bmp.pixel_rows.
  rewrite (nth_flat_map_uniform _ (Bmp.row_size w bits) 0%Z 0).
  - rewrite nth_rev_seq by exact Hk. reflexivity.
  - intros y _. apply length_padded_row. exact Hs.
  - rewrite length_rev, length_seq. exact Hk.
  - exact Hj.
Qed.

Lemma padded_row_nth (bits w : nat) (data : list Z) (y j : nat) :
  j < length (Bmp.row_bytes bits w data y) ->
  nth j (Bmp.padded_row bits w data y) 0%Z
  = nth j (Bmp.row_bytes bits w data y) 0%Z.
Proof. intros Hj. unfold Bmp.padded_row. apply app_nth1. exact Hj. Qed.

(** *** Digits in a byte *)

Lemma digit_extract (B : Z) (ds : list Z) :
  (1 < B)%Z ->
  Forall (fun d => (0 <= d < B)%Z) ds ->
  forall k, k < length ds ->
    ((fold_left (fun acc d => acc * B + d) ds 0
      / B ^ Z.of_nat (length ds - 1 - k)) mod B)%Z
    = nth k ds 0%Z.
Proof.
  intros HB. induction ds as [| d ds IH] using rev_ind; intros Hall k Hk;
    [simpl in Hk; lia |].
  apply Forall_app in Hall. destruct Hall as [Hds Hd].
  apply Forall_cons_iff in Hd. destruct Hd as [Hd _].
  rewrite fold_left_app. cbn [fold_left].
  rewrite length_app in *. simpl length in *.
  set (V := fold_left (fun acc d0 => (acc * B + d0)%Z) ds 0%Z) in *.
  destruct (Nat.eq_dec k (length ds)) as [-> | Hne].
  - replace (length ds + 1 - 1 - length ds) with 0 by lia.
    rewrite nth_middle. simpl Z.pow. rewrite Z.div_1_r.
    rewrite Z.add_comm, Z.mod_add by lia. apply Z.mod_small. exact Hd.
  - rewrite app_nth1 by lia. rewrite <- (IH Hds k) by lia.
    replace (length ds + 1 - 1 - k) with (S (length ds - 1 - k)) by lia.
    rewrite Nat2Z.inj_succ, Z.pow_succ_r by lia.
    rewrite <- Z.div_div by (try lia; apply Z.pow_pos_nonneg; lia).
    rewrite Z.div_add_l by lia. rewrite (Z.div_small d B) by exact Hd.
    rewrite Z.add_0_r. reflexivity.
Qed.

Lemma index_of_grey_level (bits i : nat) :
  Bmp.supported bits -> bits <> 24 -> i < 2 ^ bits ->
  Bmp.index_of bits (Bmp.grey_level bits i) = Z.of_nat i.
Proof.
  intros Hs Hn. unfold Bmp.index_of, Bmp.grey_level.
  destruct Hs as [-> | [-> | [-> | [-> | ->]]]]; try congruence;
    cbn [Nat.sub Nat.pow Nat.mul Nat.add]; intros Hi;
    change (Z.of_nat 7) with 7%Z; change (Z.of_nat 6) with 6%Z;
    change (Z.of_nat 4) with 4%Z; change (Z.of_nat 0) with 0%Z;
    cbn [Z.pow Z.pow_pos Pos.iter Z.mul Pos.mul]; lia.
Qed.

Lemma fold_left_map_digits {A} (f : A -> Z) (B : Z) (l : list A) : forall acc,
  fold_left (fun a x => (a * B + f x)%Z) l acc
  = fold_left (fun a d => (a * B + d)%Z) (map f l) acc.
Proof. induction l as [| x l IH]; intros acc; [reflexivity | apply IH]. Qed.

Lemma representable_index (bits : nat) (data : list Z) (pos : nat) :
  Bmp.supported bits -> bits <> 24 ->
  Bmp.representable bits data ->
  pos < length data ->
  exists i, i < 2 ^ bits
    /\ nth pos data 0%Z = Bmp.grey_level bits i
    /\ Bmp.index_of bits (nth pos data 0%Z) = Z.of_nat i.
Proof.
  intros Hs Hn [H24 | Hall] Hpos; [congruence |].
  rewrite Forall_forall in Hall.
  destruct (Hall (nth pos data 0%Z)) as (i & Hi & Heq).
  { apply list_elem_of_In. apply nth_In. exact Hpos. }
  exists i. split; [exact Hi | split; [exact Heq |]].
  rewrite Heq. apply index_of_grey_level; assumption.
Qed.

Lemma in_grid (w h x y : nat) : x < w -> y < h -> y * w + x < w * h.
Proof. intros Hx Hy. nia. Qed.

(** The reader finds, for a depth up to 8, the grey sample that was
    encoded. *)
Lemma decode_pixel_grey (w h bits : nat) (data : list Z) (y x : nat) :
  Bmp.supported bits -> bits <> 24 ->
  Bmp.representable bits data ->
  length data = w * h ->
  y < h -> x < w ->
  Bmp.decode_pixel (Bmp.encode w h bits data) (Bmp.data_offset bits) w h bits
    y x
  = [nth (y * w + x) data 0%Z].
Proof.
  intros Hs Hn Hrep Hlen Hy Hx.
  assert (Hppb : 0 < 8 / bits /\ bits * (8 / bits) = 8 /\ 0 < bits
                 /\ Bmp.palette_entries bits = 2 ^ bits).
  { destruct Hs as [-> | [-> | [-> | [-> | ->]]]]; try congruence;
      vm_compute; repeat split; lia. }
  destruct Hppb as (Hppb & Hmul & Hbits & Hpal).
  set (ppb := 8 / bits) in *.
  assert (Hj : x / ppb < (w * bits + 7) / 8).
  { apply Nat.Div0.div_lt_upper_bound.
    assert (w * bits <= 8 * ((w * bits + 7) / 8)) by lia. nia. }
  unfold Bmp.decode_pixel.
  replace (bits =? 24) with false by (symmetry; apply Nat.eqb_neq; exact Hn).
  fold ppb.
  pose proof (row_bytes_fit bits w data y Hs) as Hfit.
  assert (Hrb : length (Bmp.row_bytes bits w data y) = (w * bits + 7) / 8).
  { rewrite length_row_bytes.
    replace (bits =? 24) with false by (symmetry; apply Nat.eqb_neq; exact Hn).
    reflexivity. }
  rewrite (encode_row w h bits data (h - 1 - y) (x / ppb) Hs) by lia.
  replace (h - 1 - (h - 1 - y)) with y by lia.
  rewrite padded_row_nth by lia.
  unfold Bmp.row_bytes.
  replace (bits =? 24) with false by (symmetry; apply Nat.eqb_neq; exact Hn).
  rewrite nth_map_seq by exact Hj.
  unfold Bmp.packed_byte, Bmp.pixels_per_byte. fold ppb.
  set (t := fun k : nat =>
              if (x / ppb * ppb + k <? w)%nat
              then Bmp.index_of bits (nth (y * w + (x / ppb * ppb + k)) data 0%Z)
              else 0%Z).
  change (fold_left _ (seq 0 ppb) 0%Z)
    with (fold_left (fun a k => (a * 2 ^ Z.of_nat bits + t k)%Z) (seq 0 ppb) 0%Z).
  rewrite fold_left_map_digits.
  assert (Hmod : x mod ppb < ppb) by (apply Nat.mod_upper_bound; lia).
  assert (Hx' : x / ppb * ppb + x mod ppb = x).
  { pose proof (Nat.div_mod_eq x ppb). lia. }
  rewrite Nat2Z.inj_mul, Z.pow_mul_r by lia.
  replace (ppb - 1 - x mod ppb)
    with (length (map t (seq 0 ppb)) - 1 - x mod ppb)
    by (rewrite length_map, length_seq; reflexivity).
  rewrite digit_extract.
  - rewrite nth_map_seq by exact Hmod. unfold t. rewrite Hx'.
    replace (x <? w)%nat with true by (symmetry; apply Nat.ltb_lt; exact Hx).
    destruct (representable_index bits data (y * w + x) Hs Hn Hrep)
      as (i & Hi & Hval & Hidx).
    { rewrite Hlen. apply in_grid; assumption. }
    rewrite Hidx, Nat2Z.id, encode_palette by (rewrite Hpal; exact Hi).
    rewrite Hval. reflexivity.
  - apply Z.pow_gt_1; lia.
  - apply Forall_forall. intros d Hd.
    apply list_elem_of_In, in_map_iff in Hd. destruct Hd as (k & <- & Hk).
    apply in_seq in Hk. unfold t.
    assert (Hpos : (0 < 2 ^ Z.of_nat bits)%Z) by (apply Z.pow_pos_nonneg; lia).
    destruct (Nat.ltb_spec (x / ppb * ppb + k) w) as [Hlt | Hge]; [| lia].
    destruct (representable_index bits data (y * w + (x / ppb * ppb + k))
                Hs Hn Hrep) as (i & Hi & _ & Hidx).
    { rewrite Hlen. apply in_grid; assumption. }
    rewrite Hidx.
    assert (Z.of_nat (2 ^ bits) = 2 ^ Z.of_nat bits)%Z
      by (rewrite Nat2Z.inj_pow; reflexivity).
    lia.
  - rewrite length_map, length_seq. exact Hmod.
Qed.

(** At depth 24 the three bytes of a pixel are stored in reverse order and
    the reader puts them back. *)
Lemma decode_pixel_colour (w h : nat) (data : list Z) (y x : nat) :
  y < h -> x < w ->
  Bmp.decode_pixel (Bmp.encode w h 24 data) (Bmp.data_offset 24) w h 24 y x
  = [nth (3 * (y * w + x)) data 0%Z; nth (3 * (y * w + x) + 1) data 0%Z;
     nth (3 * (y * w + x) + 2) data 0%Z].
Proof.
  intros Hy Hx.
  assert (Hs : Bmp.supported 24) by (unfold Bmp.supported; tauto).
  pose proof (row_bytes_fit 24 w data y Hs) as Hfit.
  assert (Hrb : length (Bmp.row_bytes 24 w data y) = 3 * w)
    by (rewrite length_row_bytes; reflexivity).
  assert (Hbyte : forall c, c < 3 ->
            nth (Bmp.data_offset 24 + (h - 1 - y) * Bmp.row_size w 24 + 3 * x + c)
              (Bmp.encode w h 24 data) 0%Z
            = nth c [nth (3 * (y * w + x) + 2) data 0%Z;
                     nth (3 * (y * w + x) + 1) data 0%Z;
                     nth (3 * (y * w + x)) data 0%Z] 0%Z).
  { intros c Hc. rewrite <- Nat.add_assoc.
    rewrite (encode_row w h 24 data (h - 1 - y) (3 * x + c) Hs) by lia.
    replace (h - 1 - (h - 1 - y)) with y by lia.
    rewrite padded_row_nth by lia.
    unfold Bmp.row_bytes. simpl Nat.eqb. cbv iota.
    replace (3 * x + c) with (x * 3 + c) by lia.
    rewrite (nth_flat_map_uniform _ 3 0%Z 0) by
      (try reflexivity; try lia; rewrite length_seq; exact Hx).
    rewrite seq_nth by exact Hx. reflexivity. }
  unfold Bmp.decode_pixel. simpl Nat.eqb. cbv iota.
  rewrite (Hbyte 2), (Hbyte 1) by lia.
  pose proof (Hbyte 0) as H0. rewrite Nat.add_0_r in H0. rewrite H0 by lia.
  reflexivity.
Qed.

(** C10.  For a depth in 1, 2, 4, 8, 24 the encoder writes a file header
    of 14 bytes that starts with BM, an info header of 40 bytes, for
    depths up to 8 a grey colour table of [2 ^ depth] entries, then the
    rows from the bottom one to the top one, each padded with zero bytes
    to a multiple of four bytes (12 bytes for width 3 at depth 24); at
    depth 24 a pixel is stored as its three samples in reverse order; and
    the reference reader recovers width, height, depth and every sample
    of a buffer that the depth can represent. *)
Theorem bmp_encode_layout_roundtrip (w h bits : nat) (data : list Z) :
  Bmp.supported bits ->
  (Z.of_nat w < 4294967296)%Z -> (Z.of_nat h < 4294967296)%Z ->
  length data = w * h * Bmp.samples_per_pixel bits ->
  Bmp.representable bits data ->
  Bmp.encode w h bits data
  = Bmp.file_header w h bits ++ Bmp.info_header w h bits
    ++ Bmp.color_table bits
    ++ flat_map (Bmp.padded_row bits w data) (rev (seq 0 h))
  /\ length (Bmp.file_header w h bits) = 14
  /\ length (Bmp.info_header w h bits) = 40
  /\ firstn 2 (Bmp.encode w h bits data) = [66%Z; 77%Z]
  /\ length (Bmp.color_table bits) = 4 * (if bits <=? 8 then 2 ^ bits else 0)
  /\ (forall i, i < Bmp.palette_entries bits ->
        firstn 4 (skipn (4 * i) (Bmp.color_table bits))
        = [Bmp.grey_level bits i; Bmp.grey_level bits i;
           Bmp.grey_level bits i; 0%Z])
  /\ (forall y, length (Bmp.padded_row bits w data y) = Bmp.row_size w bits)
  /\ Bmp.row_size w bits mod 4 = 0
  /\ w * bits <= 8 * Bmp.row_size w bits < w * bits + 32
  /\ Bmp.row_size 3 24 = 12
  /\ length (Bmp.encode w h bits data)
     = 14 + 40 + 4 * Bmp.palette_entries bits + h * Bmp.row_size w bits
  /\ (bits = 24 -> forall y x, x < w ->
        firstn 3 (skipn (3 * x) (Bmp.padded_row bits w data y))
        = [nth (3 * (y * w + x) + 2) data 0%Z;
           nth (3 * (y * w + x) + 1) data 0%Z;
           nth (3 * (y * w + x)) data 0%Z])
  /\ Bmp.decode (Bmp.encode w h bits data) = Some (w, h, bits, data).
Proof.
  intros Hs Hw Hh Hlen Hrep.
  split; [reflexivity |]. split; [reflexivity |]. split; [reflexivity |].
  split; [reflexivity |].
  split; [apply length_color_table |].
  split.
  { intros i Hi. unfold Bmp.color_table.
    assert (Hgen : forall n i a, i < n ->
              firstn 4 (skipn (4 * i)
                (flat_map (fun i0 => let g := Bmp.grey_level bits i0 in
                                     [g; g; g; 0%Z]) (seq a n)))
              = [Bmp.grey_level bits (a + i); Bmp.grey_level bits (a + i);
                 Bmp.grey_level bits (a + i); 0%Z]).
    { clear i Hi. induction n as [| n IH]; intros i a Hi; [lia |].
      destruct i as [| i].
      - rewrite Nat.add_0_r. reflexivity.
      - replace (4 * S i) with (S (S (S (S (4 * i))))) by lia.
        cbn [seq flat_map app skipn].
        rewrite IH by lia. replace (S a + i) with (a + S i) by lia.
        reflexivity. }
    exact (Hgen _ i 0 Hi). }
  split; [intros y; apply length_padded_row; exact Hs |].
  split; [unfold Bmp.row_size; lia |].
  split; [unfold Bmp.row_size; lia |].
  split; [reflexivity |].
  split; [apply length_encode; exact Hs |].
  split.
  { intros -> y x Hx. unfold Bmp.padded_row, Bmp.row_bytes.
    simpl Nat.eqb. cbv iota.
    set (F := fun x0 : nat => _).
    assert (Hgen : forall n x a rest, x < n ->
              firstn 3 (skipn (3 * x) (flat_map F (seq a n) ++ rest))
              = F (a + x)).
    { clear x Hx. induction n as [| n IH]; intros x a rest Hx; [lia |].
      destruct x as [| x].
      - rewrite Nat.add_0_r. reflexivity.
      - replace (3 * S x) with (S (S (S (3 * x)))) by lia.
        cbn [seq flat_map]. unfold F at 1. cbn [app skipn].
        rewrite IH by lia. replace (S a + x) with (a + S x) by lia.
        reflexivity. }
    rewrite (Hgen w x 0 _ Hx). reflexivity. }
  destruct (encode_header_fields w h bits data Hs Hw Hh)
    as (H0 & H1 & Hoff & Hwd & Hht & Hbits).
  unfold Bmp.decode. rewrite H0, H1, Hoff, Hwd, Hht, Hbits.
  simpl andb. cbv iota. do 2 f_equal.
  destruct (Nat.eq_dec bits 24) as [-> | Hn].
  - transitivity
      (flat_map (fun y => flat_map
                   (fun x => [nth (3 * (y * w + x)) data 0%Z;
                              nth (3 * (y * w + x) + 1) data 0%Z;
                              nth (3 * (y * w + x) + 2) data 0%Z])
                   (seq 0 w)) (seq 0 h)).
    + apply flat_map_ext_in. intros y Hy. apply in_seq in Hy.
      apply flat_map_ext_in. intros x Hx. apply in_seq in Hx.
      apply decode_pixel_colour; lia.
    + rewrite (flat_map_grid
                 (fun i => [nth (3 * i) data 0%Z; nth (3 * i + 1) data 0%Z;
                            nth (3 * i + 2) data 0%Z]) w h).
      apply enum_triple. rewrite Hlen.
      change (Bmp.samples_per_pixel 24) with 3. lia.
  - assert (Hspp : Bmp.samples_per_pixel bits = 1).
    { unfold Bmp.samples_per_pixel.
      replace (bits =? 24) with false by (symmetry; apply Nat.eqb_neq; exact Hn).
      reflexivity. }
    rewrite Hspp, Nat.mul_1_r in Hlen.
    transitivity
      (flat_map (fun y => flat_map (fun x => [nth (y * w + x) data 0%Z])
                            (seq 0 w)) (seq 0 h)).
    + apply flat_map_ext_in. intros y Hy. apply in_seq in Hy.
      apply flat_map_ext_in. intros x Hx. apply in_seq in Hx.
      apply decode_pixel_grey; try assumption; lia.
    + rewrite (flat_map_grid (fun i => [nth i data 0%Z]) w h).
      replace (h * w) with (length data) by lia.
      apply enum_single.
Qed.

Lemma bmp_encode_layout_roundtrip_witness :
  Bmp.decode (Bmp.encode 3 2 1 [255; 0; 255; 0; 0; 255]%Z)
  = Some (3, 2, 1, [255; 0; 255; 0; 0; 255]%Z).
Proof.
  assert (Hrep : Bmp.representable 1 [255; 0; 255; 0; 0; 255]%Z).
  { right.
    repeat (constructor;
            [first [exists 1; split; [simpl; lia | reflexivity]
                   | exists 0; split; [simpl; lia | reflexivity]] |]).
    constructor. }
  destruct (bmp_encode_layout_roundtrip 3 2 1 [255; 0; 255; 0; 0; 255]%Z)
    as (_ & _ & _ & _ & _ & _ & _ & _ & _ & _ & _ & _ & H);
    [left; reflexivity | reflexivity | reflexivity | reflexivity | exact Hrep |].
  exact H.
Defined.


(* ================================================================== *)
(** * Further properties of the code *)
(* ================================================================== *)

(** ** Rules for assertions *)

Import Hoare.

Lemma triple_ret {A} (P : Browser -> Prop) (a : A) Q E :
  (forall b, P b -> Q a b) -> triple P (ret a) Q E.
Proof. intros H b Hb. apply H. exact Hb. Qed.

Lemma triple_throw {A} (P : Browser -> Prop) (e : error)
    (Q : A -> Browser -> Prop) E :
  (forall b, P b -> E b) -> triple P (throw e) Q E.
Proof. intros H b Hb. apply H. exact Hb. Qed.

Lemma triple_get (P : Browser -> Prop) Q E :
  (forall b, P b -> Q b b) -> triple P get Q E.
Proof. intros H b Hb. apply H. exact Hb. Qed.

Lemma triple_modify (P : Browser -> Prop) (f : Browser -> Browser) Q E :
  (forall b, P b -> Q tt (f b)) -> triple P (modify f) Q E.
Proof. intros H b Hb. apply H. exact Hb. Qed.

Lemma triple_bind {A B} (P : Browser -> Prop) (m : M A) (k : A -> M B)
    (R : A -> Browser -> Prop) Q E :
  triple P m R E -> (forall a, triple (R a) (k a) Q E) ->
  triple P (bind m k) Q E.
Proof.
  intros Hm Hk b Hb. unfold bind. specialize (Hm b Hb).
  destruct (m b) as [[e | a] b1]; [exact Hm |].
  exact (Hk a b1 Hm).
Qed.

Lemma triple_catch {A} (P : Browser -> Prop) (m : M A) (h : error -> M A)
    (F : Browser -> Prop) Q E :
  triple P m Q F -> (forall e, triple F (h e) Q E) ->
  triple P (catch m h) Q E.
Proof.
  intros Hm Hh b Hb. unfold catch. specialize (Hm b Hb).
  destruct (m b) as [[e | a] b1]; [| exact Hm].
  exact (Hh e b1 Hm).
Qed.

Lemma triple_any {A} (P : Browser -> Prop) (m : M A) :
  triple P m (fun _ _ => True) (fun _ => True).
Proof. intros b _. destruct (m b) as [[e | a] b1]; exact I. Qed.

Lemma triple_weaken {A} (P P' : Browser -> Prop) (m : M A)
    (Q Q' : A -> Browser -> Prop) (E E' : Browser -> Prop) :
  triple P' m Q' E' ->
  (forall b, P b -> P' b) -> (forall a b, Q' a b -> Q a b) ->
  (forall b, E' b -> E b) ->
  triple P m Q E.
Proof.
  intros H HP HQ HE b Hb. specialize (H b (HP b Hb)).
  destruct (m b) as [[e | a] b1]; auto.
Qed.

Lemma triple_conj {A} (P : Browser -> Prop) (m : M A)
    (Q1 Q2 : A -> Browser -> Prop) (E1 E2 : Browser -> Prop) :
  triple P m Q1 E1 -> triple P m Q2 E2 ->
  triple P m (fun a b => Q1 a b /\ Q2 a b) (fun b => E1 b /\ E2 b).
Proof.
  intros H1 H2 b Hb. specialize (H1 b Hb). specialize (H2 b Hb).
  destruct (m b) as [[e | a] b1]; auto.
Qed.

(** An engine call keeps an assertion that adding its action keeps. *)
Lemma triple_call (J : Browser -> Prop) (a : action) (throws : option error)
    (E : Browser -> Prop) :
  (forall b, J b -> J (add_log a b)) -> (forall b, J b -> E b) ->
  triple J (call a throws) (fun _ => J) E.
Proof.
  intros Ha HE b Hb. unfold call, bind, modify.
  destruct throws; simpl; auto.
Qed.

Lemma triple_call_with {A} (J : Browser -> Prop) (a : action)
    (r : error + A) (E : Browser -> Prop) :
  (forall b, J b -> J (add_log a b)) -> (forall b, J b -> E b) ->
  triple J (call_with a r) (fun _ => J) E.
Proof.
  intros Ha HE b Hb. unfold call_with, bind, modify.
  destruct r; simpl; auto.
Qed.

(** Walks through an operation with one assertion [J] kept at every step;
    [side] proves that a state update keeps [J], [err] that [J] gives the
    assertion on errors. *)
Ltac keep_step side err :=
  match goal with
  | |- triple ?J (bind _ _) _ _ =>
      apply (triple_bind J _ _ (fun _ => J)); [| intros ?]
  | |- triple _ (ret _) _ _ => apply triple_ret; intros ? ?; assumption
  | |- triple _ (throw _) _ _ => apply triple_throw; err
  | |- triple _ get _ _ => apply triple_get; intros ? ?; assumption
  | |- triple _ (modify _) _ _ => apply triple_modify; side
  | |- triple _ (call _ _) _ _ => apply triple_call; [side | err]
  | |- triple _ (call_with _ _) _ _ => apply triple_call_with; [side | err]
  | |- triple _ (if ?c then _ else _) _ _ => destruct c
  | |- triple _ (match ?x with _ => _ end) _ _ => destruct x
  | |- triple _ (open_url _ _ _ _) _ _ => unfold open_url
  end.

Lemma triple_getPage (J E : Browser -> Prop) (env : Env) :
  (forall b, J b -> page b = None ->
     J (add_log Launch b) /\ E (add_log Launch b)
     /\ forall v, J (set_page v (add_log Launch b))) ->
  triple J (getPage env) (fun _ => J) E.
Proof.
  intros H b Hb. unfold getPage, bind, get, call_with, modify, ret, throw.
  destruct (page b) eqn:Hp; [exact Hb |].
  destruct (H b Hb Hp) as (H1 & H2 & H3).
  destruct (launch env); simpl; auto.
Qed.

(** ** What navigation never does *)

Import Units.

Lemma log_extends_refl b : log_extends b b.
Proof.
  exists []. rewrite app_nil_r. repeat split; auto.
Qed.

Lemma log_extends_add b0 a b :
  Lifecycle.is_screenshot a = false -> Lifecycle.is_launch a = false ->
  log_extends b0 b -> log_extends b0 (add_log a b).
Proof.
  intros Hs Hl (acts & Hlog & Hshot & Hpage).
  exists (acts ++ [a]). unfold add_log. simpl.
  rewrite Hlog, <- app_assoc, !existsb_app. simpl. rewrite Hshot, Hs, Hl.
  repeat split; try reflexivity.
  - destruct (Hpage H) as [-> _]. reflexivity.
  - apply Hpage. exact H.
Qed.

Lemma log_extends_set b0 (f : Browser -> Browser) b :
  log (f b) = log b -> (page b <> None -> page (f b) <> None) ->
  log_extends b0 b -> log_extends b0 (f b).
Proof.
  intros Hlog Hpg (acts & Hl & Hshot & Hpage).
  exists acts. rewrite Hlog. repeat split; try assumption.
  - apply Hpage. exact H.
  - apply Hpg. apply Hpage. exact H.
Qed.

Ltac log_side :=
  let b := fresh "b" in
  let Hb := fresh "Hb" in
  intros b Hb;
  first [ apply log_extends_add; [reflexivity | reflexivity | exact Hb]
        | apply log_extends_set;
          [reflexivity | destruct b; simpl; congruence | exact Hb] ].

Lemma navigate_log (isAddOn : bool) (homeAssistantUrl : string)
    (p : Params) (env : Env) (b0 : Browser) :
  triple (log_extends b0) (_navigatePage isAddOn homeAssistantUrl p env)
    (fun _ => log_extends b0) (log_extends b0).
Proof.
  unfold _navigatePage.
  apply (triple_catch _ _ _ (log_extends b0));
    [| intros e; apply triple_throw; auto].
  unfold _navigatePage_try.
  apply (triple_bind _ _ _ (fun _ => log_extends b0)).
  - apply triple_getPage. intros b (acts & Hlog & Hshot & Hpage) Hnone.
    assert (Hb0 : page b0 = None).
    { destruct (page b0) eqn:E; [| reflexivity].
      exfalso. apply (proj2 (Hpage ltac:(discriminate))). exact Hnone. }
    assert (H : forall b', log b' = log b ++ [Launch] -> log_extends b0 b').
    { intros b' Hb'. exists (acts ++ [Launch]).
      rewrite Hb', Hlog, <- app_assoc, existsb_app. simpl. rewrite Hshot.
      repeat split; try reflexivity; congruence. }
    repeat split; intros; apply H; reflexivity.
  - intros cur. repeat keep_step log_side ltac:(auto).
Qed.

(** After a failed navigation the cached path is the one from before or the
    requested one. *)
Lemma navigate_failure_path (isAddOn : bool) (homeAssistantUrl : string)
    (p : Params) (env : Env) (b0 : Browser) :
  let J := fun b => lastRequestedPath b = lastRequestedPath b0
                    \/ lastRequestedPath b = Some (pagePath p) in
  triple J (_navigatePage isAddOn homeAssistantUrl p env) (fun _ => J) J.
Proof.
  intros J. unfold _navigatePage.
  apply (triple_catch _ _ _ J); [| intros e; apply triple_throw; auto].
  unfold _navigatePage_try.
  apply (triple_bind _ _ _ (fun _ => J)).
  - apply triple_getPage. intros [pg lp ll lt ld lg] Hb _. unfold J in *.
    simpl in *. auto.
  - intros cur.
    repeat keep_step
      ltac:(intros [pg lp ll lt ld lg] Hb; unfold J in *; simpl in *; auto)
      ltac:(auto).
Qed.

Ltac keep_one side err :=
  match goal with
  | |- triple ?J (bind _ _) _ _ =>
      apply (triple_bind J _ _ (fun _ => J));
      [solve [repeat keep_step side err] | intros ?]
  end.

(** What a navigation that returns has established. *)
Lemma navigate_success (isAddOn : bool) (homeAssistantUrl : string)
    (p : Params) (env : Env) :
  triple (fun _ => True) (_navigatePage isAddOn homeAssistantUrl p env)
    (fun r b =>
       page b <> None
       /\ lastRequestedPath b = Some (pagePath p)
       /\ lastRequestedLang b = lang p
       /\ lastRequestedTheme b = theme p
       /\ lastRequestedDarkMode b = Some (dark p)
       /\ fst r = mkViewport (width (viewport p))
                    (height (viewport p)
                     + Math_round (inject_Z HEADER_HEIGHT * zoom p)%Q)%Z)
    (fun _ => True).
Proof.
  pose (P1 := fun b : Browser => page b <> None).
  pose (P2 := fun b : Browser =>
                P1 b /\ lastRequestedPath b = Some (pagePath p)).
  pose (P3 := fun b : Browser => P2 b /\ lastRequestedLang b = lang p).
  pose (P4 := fun b : Browser =>
                P3 b /\ lastRequestedTheme b = theme p
                /\ lastRequestedDarkMode b = Some (dark p)).
  assert (side1 : forall a b, P1 b -> P1 (add_log a b))
    by (intros a [pg lp ll lt ld lg] H; exact H).
  unfold _navigatePage.
  apply (triple_catch _ _ _ (fun _ => True));
    [| intros e; apply triple_throw; auto].
  unfold _navigatePage_try.
  apply (triple_bind _ _ _ (fun _ => P1)).
  { intros b _. unfold getPage, bind, get, call_with, modify, ret, throw.
    destruct (page b) eqn:Hp; [unfold P1; congruence |].
    destruct (launch env); simpl; [exact I | unfold P1; simpl; discriminate]. }
  intros cur.
  keep_one ltac:(intros [pg lp ll lt ld lg] Hb; unfold P1 in *; simpl in *;
                 first [assumption | discriminate])
           ltac:(auto).
  keep_one ltac:(idtac) ltac:(auto).
  keep_one ltac:(intros [pg lp ll lt ld lg] Hb; unfold P1 in *; simpl in *;
                 assumption)
           ltac:(auto).
  match goal with
  | x : (Z * bool * bool)%type |- _ =>
      destruct x as [[defaultWait openedNewPage] changedPath]
  end.
  apply (triple_bind _ _ _ (fun _ => P2)).
  { apply triple_modify. intros [pg lp ll lt ld lg] Hb. split; [exact Hb |].
    reflexivity. }
  intros _.
  do 4 keep_one
    ltac:(intros [pg lp ll lt ld lg] Hb; unfold P2, P1 in *; simpl in *;
          assumption)
    ltac:(auto).
  apply (triple_bind _ _ _ (fun a b => P2 b /\ a = b)).
  { apply triple_get. auto. }
  intros st1.
  apply (triple_bind _ _ _ (fun _ => P3)).
  { intros b [Hb ->]. unfold bind, call, modify, ret, throw.
    destruct (bool_decide (lang p = lastRequestedLang b)) eqn:E; simpl.
    - apply bool_decide_eq_true in E. split; [exact Hb | congruence].
    - destruct (selectLanguage_throws env); simpl; [exact I |].
      destruct b as [pg lp ll lt ld lg]. split; [exact Hb | reflexivity]. }
  intros defaultWait1.
  apply (triple_bind _ _ _ (fun a b => P3 b /\ a = b)).
  { apply triple_get. auto. }
  intros st2.
  apply (triple_bind _ _ _ (fun _ => P4)).
  { intros b [Hb ->]. unfold bind, call, modify, ret, throw.
    destruct (bool_decide (theme p = lastRequestedTheme b)) eqn:E1;
      destruct (bool_decide (Some (dark p) = lastRequestedDarkMode b)) eqn:E2;
      simpl.
    1: { apply bool_decide_eq_true in E1, E2. split; [exact Hb | split; congruence]. }
    all: destruct (setTheme_throws env); simpl; [exact I |];
      destruct b as [pg lp ll lt ld lg]; split; [exact Hb | split; reflexivity]. }
  intros defaultWait2.
  keep_one
    ltac:(intros [pg lp ll lt ld lg] Hb; unfold P4, P3, P2, P1 in *;
          simpl in *; assumption)
    ltac:(auto).
  apply triple_ret. intros b Hb. unfold P4, P3, P2, P1 in Hb. simpl. tauto.
Qed.

(** ** What a capture changes *)

Lemma screenshot_effect (p : Params) (env : Env) (b : Browser) :
  let r := _screenshotPage p env b in
  let headerHeight := Math_round (inject_Z HEADER_HEIGHT * zoom p)%Q in
  lastRequestedLang (snd r) = lastRequestedLang b
  /\ lastRequestedTheme (snd r) = lastRequestedTheme b
  /\ lastRequestedDarkMode (snd r) = lastRequestedDarkMode b
  /\ (page b <> None ->
      page (snd r) = page b
      /\ exists type,
           log (snd r)
           = log b ++ [Screenshot type headerHeight (width (viewport p))
                         (height (viewport p) - headerHeight)%Z])
  /\ match fst r with
     | inr img => lastRequestedPath (snd r) = lastRequestedPath b
     | inl e => lastRequestedPath (snd r) = None
     end.
Proof.
  destruct b as [pg lp ll lt ld lg].
  destruct env as [l sv ev g t sz w sl sth sc tb bm].
  cbv zeta. set (hh := Math_round _).
  unfold _screenshotPage, _screenshotPage_try. fold hh.
  destruct pg as [cur |]; [| destruct l as [e | v]];
    destruct sc as [e' | f]; destruct tb as [e2 |]; destruct bm as [e3 |];
    session_run; split_ifs; simpl;
    repeat split; try reflexivity; try congruence; eauto.
Qed.


(** ** The unit of navigation and capture *)

(** X1.  [navigateAndScreenshot] captures only after its own navigation
    returned: an image it returns was captured in the state navigation
    left, in which the cached path is the requested one, and afterwards the
    cache holds the requested path, language, theme and dark mode.  When
    it throws, either navigation threw that error and no capture was
    made, or navigation had returned and the cached path is [undefined]. *)
Theorem navigateAndScreenshot_atomic (isAddOn : bool)
    (homeAssistantUrl : string) (p : Params) (env : Env) (b : Browser) :
  let r := navigateAndScreenshot isAddOn homeAssistantUrl p env b in
  let nav := _navigatePage isAddOn homeAssistantUrl p env b in
  match fst r with
  | inr img =>
      (exists vp wait,
          fst nav = inr (vp, wait)
          /\ lastRequestedPath (snd nav) = Some (pagePath p)
          /\ _screenshotPage (with_viewport p vp) env (snd nav)
             = (inr img, snd r))
      /\ lastRequestedPath (snd r) = Some (pagePath p)
      /\ lastRequestedLang (snd r) = lang p
      /\ lastRequestedTheme (snd r) = theme p
      /\ lastRequestedDarkMode (snd r) = Some (dark p)
  | inl e =>
      (fst nav = inl e /\ snd r = snd nav
       /\ exists acts,
            log (snd r) = log b ++ acts
            /\ existsb Lifecycle.is_screenshot acts = false)
      \/ (is_inr (fst nav) = true /\ lastRequestedPath (snd r) = None)
  end.
Proof.
  intros r nav.
  pose proof (navigate_success isAddOn homeAssistantUrl p env b I) as Hs.
  pose proof (navigate_log isAddOn homeAssistantUrl p env b b
                (log_extends_refl b)) as Hl.
  fold nav in Hs, Hl. subst r. unfold navigateAndScreenshot, bind.
  fold nav. destruct nav as [[e | [vp wait]] b1]; simpl in *.
  - left. destruct Hl as (acts & Hlog & Hshot & _). eauto.
  - destruct Hs as (Hpg & Hpath & Hlang & Hth & Hdk & Hvp).
    pose proof (screenshot_effect (with_viewport p vp) env b1) as He.
    cbv zeta in He.
    destruct He as (El & Et & Ed & _ & Ep).
    destruct (_screenshotPage (with_viewport p vp) env b1) as [[e | img] b2]
      eqn:Esh; simpl in *.
    + right. auto.
    + split; [exists vp, wait; repeat split; assumption |].
      repeat split; congruence.
Qed.

(** X2.  The region captured by [navigateAndScreenshot] starts below the
    header band of [Math.round(56 * zoom)] pixels and has the requested
    width and height: navigation adds the band to the height of the shared
    viewport object and capture takes it off again.  The capture is the
    only one the unit makes, and its last call to the engine. *)
Theorem navigateAndScreenshot_clip (isAddOn : bool)
    (homeAssistantUrl : string) (p : Params) (env : Env) (b : Browser) :
  let r := navigateAndScreenshot isAddOn homeAssistantUrl p env b in
  match fst r with
  | inr img =>
      exists acts type,
        log (snd r)
        = log b ++ acts
          ++ [Screenshot type (Math_round (inject_Z HEADER_HEIGHT * zoom p)%Q)
                (width (viewport p)) (height (viewport p))]
        /\ existsb Lifecycle.is_screenshot acts = false
  | inl _ => True
  end.
Proof.
  intros r.
  pose proof (navigate_success isAddOn homeAssistantUrl p env b I) as Hs.
  pose proof (navigate_log isAddOn homeAssistantUrl p env b b
                (log_extends_refl b)) as Hl.
  subst r. unfold navigateAndScreenshot, bind.
  destruct (_navigatePage isAddOn homeAssistantUrl p env b)
    as [[e | [vp wait]] b1]; simpl in *; [exact I |].
  destruct Hs as (Hpg & _ & _ & _ & _ & Hvp).
  destruct Hl as (acts & Hlog & Hshot & _).
  pose proof (screenshot_effect (with_viewport p vp) env b1) as He.
  cbv zeta in He. destruct He as (_ & _ & _ & Hpage & _).
  destruct (Hpage Hpg) as (_ & type & Hlog2).
  destruct (_screenshotPage (with_viewport p vp) env b1) as [[e | img] b2];
    simpl in *; [exact I |].
  exists acts, type. split; [| exact Hshot].
  rewrite Hlog2, Hlog, <- app_assoc. subst vp. simpl.
  replace (height (viewport p) + Math_round (inject_Z HEADER_HEIGHT * zoom p)
           - Math_round (inject_Z HEADER_HEIGHT * zoom p))%Z
    with (height (viewport p)) by lia.
  reflexivity.
Qed.

Lemma log_extends_trans (b0 b1 b2 : Browser) :
  log_extends b0 b1 -> log_extends b1 b2 -> log_extends b0 b2.
Proof.
  intros (a1 & L1 & S1 & P1) (a2 & L2 & S2 & P2).
  exists (a1 ++ a2). rewrite L2, L1, <- app_assoc, !existsb_app, S1, S2.
  repeat split; try reflexivity.
  - destruct (P1 H) as [-> Hp]. destruct (P2 Hp) as [-> _]. reflexivity.
  - destruct (P1 H) as [_ Hp]. apply (P2 Hp).
Qed.

(** One unit adds no launch to a session that has a page, and keeps the
    page. *)
Lemma unit_no_launch (isAddOn : bool) (homeAssistantUrl : string)
    (p : Params) (env : Env) (b : Browser) :
  page b <> None ->
  let b' := snd (navigateAndScreenshot isAddOn homeAssistantUrl p env b) in
  page b' <> None
  /\ exists acts, log b' = log b ++ acts
                  /\ existsb Lifecycle.is_launch acts = false.
Proof.
  intros Hpg b'.
  pose proof (navigate_log isAddOn homeAssistantUrl p env b b
                (log_extends_refl b)) as Hl.
  subst b'. unfold navigateAndScreenshot, bind.
  destruct (_navigatePage isAddOn homeAssistantUrl p env b)
    as [[e | [vp wait]] b1]; simpl in *;
    destruct Hl as (acts & Hlog & _ & Hp); destruct (Hp Hpg) as [Hnl Hpg1].
  - split; [exact Hpg1 | eauto].
  - pose proof (screenshot_effect (with_viewport p vp) env b1) as He.
    cbv zeta in He. destruct He as (_ & _ & _ & Hpage & _).
    destruct (Hpage Hpg1) as (Hsame & type & Hlog2).
    split; [congruence |].
    exists (acts ++ [Screenshot type
                       (Math_round (inject_Z HEADER_HEIGHT * zoom (with_viewport p vp))%Q)
                       (width (viewport (with_viewport p vp)))
                       (height (viewport (with_viewport p vp))
                        - Math_round (inject_Z HEADER_HEIGHT
                                      * zoom (with_viewport p vp))%Q)%Z]).
    rewrite Hlog2, Hlog, <- app_assoc, existsb_app, Hnl. split; reflexivity.
Qed.

(** X3.  Once the browser runs it is not launched again: whatever units
    the queue runs on a session that has a page, and whichever of them
    fail, no unit calls [puppeteer.launch] and the page stays. *)
Theorem browser_launched_once (isAddOn : bool) (homeAssistantUrl : string)
    (us : list (Params * Env)) (b : Browser) :
  page b <> None ->
  let b' := run_units isAddOn homeAssistantUrl us b in
  page b' <> None
  /\ exists acts, log b' = log b ++ acts
                  /\ existsb Lifecycle.is_launch acts = false.
Proof.
  revert b. induction us as [| u us IH]; intros b Hpg; simpl.
  - split; [exact Hpg |]. exists []. rewrite app_nil_r. auto.
  - destruct (unit_no_launch isAddOn homeAssistantUrl (fst u) (snd u) b Hpg)
      as (Hpg1 & a1 & L1 & N1).
    destruct (IH _ Hpg1) as (Hpg2 & a2 & L2 & N2).
    split; [exact Hpg2 |].
    exists (a1 ++ a2). unfold run_units in *. simpl in *.
    rewrite L2, L1, <- app_assoc, existsb_app, N1, N2. auto.
Qed.

Lemma browser_launched_once_witness :
  let b := snd (navigateAndScreenshot false "http://ha:8123"
                  (Samples.params "/lovelace/0" "png" None false)
                  Samples.ok_env fresh) in
  page (run_units false "http://ha:8123"
          [(Samples.params "/lovelace/1" "png" None false, Samples.not_found_env);
           (Samples.params "/lovelace/0" "bmp" (Some 2%Z) true, Samples.ok_env)]
          b) <> None.
Proof.
  intros b.
  apply (browser_launched_once false "http://ha:8123"
           [(Samples.params "/lovelace/1" "png" None false, Samples.not_found_env);
            (Samples.params "/lovelace/0" "bmp" (Some 2%Z) true, Samples.ok_env)]
           b).
  vm_compute. discriminate.
Defined.

(** X4.  A navigation that throws never clears the cached path: afterwards
    it is the path cached before or the requested path. *)
Theorem navigate_failure_keeps_cache (isAddOn : bool)
    (homeAssistantUrl : string) (p : Params) (env : Env) (b : Browser) :
  let r := _navigatePage isAddOn homeAssistantUrl p env b in
  match fst r with
  | inl e =>
      lastRequestedPath (snd r) = lastRequestedPath b
      \/ lastRequestedPath (snd r) = Some (pagePath p)
  | inr _ => lastRequestedPath (snd r) = Some (pagePath p)
  end.
Proof.
  intros r.
  pose proof (navigate_failure_path isAddOn homeAssistantUrl p env b b
                (or_introl eq_refl)) as Hf.
  pose proof (navigate_success isAddOn homeAssistantUrl p env b I) as Hs.
  subst r.
  destruct (_navigatePage isAddOn homeAssistantUrl p env b)
    as [[e | [vp wait]] b1]; simpl in *; [exact Hf | apply Hs].
Qed.

(** ** The first load and the change of path *)

(** The run of a first load whose calls succeed. *)
Lemma first_load_effect (isAddOn : bool) (homeAssistantUrl : string)
    (p : Params) (env : Env) (b : Browser) (v0 : option Viewport)
    (status : Z) :
  lastRequestedPath b = None ->
  launch env = inr v0 ->
  setViewport_throws env = None ->
  evaluateOnNewDocument_throws env = None ->
  goto_result env = inr status ->
  response_ok status = true ->
  setZoom_throws env = None ->
  selectLanguage_throws env = None ->
  setTheme_throws env = None ->
  let cur := match page b with Some c => c | None => v0 end in
  let vp := mkViewport (width (viewport p))
              (height (viewport p)
               + Math_round (inject_Z HEADER_HEIGHT * zoom p)%Q)%Z in
  let lang_differs := negb (bool_decide (lang p = lastRequestedLang b)) in
  let theme_differs :=
    negb (bool_decide (theme p = lastRequestedTheme b))
    || negb (bool_decide (Some (dark p) = lastRequestedDarkMode b)) in
  let defaultWait :=
    ((if isAddOn then 7000 else 1000) + (if lang_differs then 1000 else 0)
     + (if theme_differs then 500 else 0))%Z in
  let wait := match extraWait p with Some w => w | None => defaultWait end in
  let acts :=
    (match page b with Some _ => [] | None => [Launch] end)
    ++ (if viewport_differs cur vp then [SetViewport vp] else [])
    ++ [EvaluateOnNewDocument;
        Goto (page_url homeAssistantUrl (pagePath p)) false;
        RemoveScript;
        SetZoom (zoom p);
        WaitForLoaded (waitForFunction_times_out env)]
    ++ (if lang_differs then [SelectLanguage (or_default (lang p) "en")] else [])
    ++ (if theme_differs
        then [SetTheme (or_default (theme p) "") (dark p)] else [])
    ++ (if (wait =? 0)%Z then [] else [Sleep wait]) in
  _navigatePage isAddOn homeAssistantUrl p env b
  = (inr (vp, wait),
     mkBrowser (Some (if viewport_differs cur vp then Some vp else cur))
       (Some (pagePath p)) (lang p) (theme p) (Some (dark p))
       (log b ++ acts)).
Proof.
  destruct b as [pg lp ll lt ld lg].
  destruct p as [pp vp0 ew ec inv zm fm rt lng th dk].
  destruct env as [l sv ev g t sz w sl sth sc tb bm].
  simpl. intros -> -> -> -> -> Hok -> -> ->.
  cbv zeta.
  set (vp := mkViewport _ _).
  destruct pg as [cur |]; session_run;
    cbv beta iota zeta delta [viewport zoom pagePath extraWait lang theme dark];
    fold vp.
  all: destruct (viewport_differs _ vp); session_run.
  all: rewrite Hok; session_run.
  all: destruct isAddOn; session_run.
  all: destruct (bool_decide (lng = ll)) eqn:El; session_run.
  all: destruct (bool_decide (th = lt)) eqn:Et; session_run.
  all: destruct (bool_decide (Some dk = ld)) eqn:Ed; session_run.
  all: try (apply bool_decide_eq_true in El; subst ll).
  all: try (apply bool_decide_eq_true in Et; subst lt).
  all: try (apply bool_decide_eq_true in Ed; subst ld).
  all: clearbody vp; destruct ew as [x |]; simpl; session_run.
  all: try (destruct (x =? 0)%Z); session_run.
  all: rewrite <- ?app_assoc; reflexivity.
Qed.

(** X5.  A navigation with no cached path is a first load: the browser is
    launched if there is no page, the tokens are injected before
    [page.goto], which does not wait for the network to be idle; the
    script that dismisses an update toast is not run, the zoom is set
    once, and language and theme are applied when they differ from the
    cache.  The default wait is 1000 ms, 7000 ms in the add-on, plus 1000
    for the language and 500 for the theme. *)
Theorem navigate_first_load (isAddOn : bool) (homeAssistantUrl : string)
    (p : Params) (env : Env) (b : Browser) (v0 : option Viewport)
    (status : Z) :
  lastRequestedPath b = None ->
  launch env = inr v0 ->
  setViewport_throws env = None ->
  evaluateOnNewDocument_throws env = None ->
  goto_result env = inr status ->
  response_ok status = true ->
  setZoom_throws env = None ->
  selectLanguage_throws env = None ->
  setTheme_throws env = None ->
  let cur := match page b with Some c => c | None => v0 end in
  let vp := mkViewport (width (viewport p))
              (height (viewport p)
               + Math_round (inject_Z HEADER_HEIGHT * zoom p)%Q)%Z in
  let lang_differs := negb (bool_decide (lang p = lastRequestedLang b)) in
  let theme_differs :=
    negb (bool_decide (theme p = lastRequestedTheme b))
    || negb (bool_decide (Some (dark p) = lastRequestedDarkMode b)) in
  let defaultWait :=
    ((if isAddOn then 7000 else 1000) + (if lang_differs then 1000 else 0)
     + (if theme_differs then 500 else 0))%Z in
  let wait := match extraWait p with Some w => w | None => defaultWait end in
  let acts :=
    (match page b with Some _ => [] | None => [Launch] end)
    ++ (if viewport_differs cur vp then [SetViewport vp] else [])
    ++ [EvaluateOnNewDocument;
        Goto (page_url homeAssistantUrl (pagePath p)) false;
        RemoveScript;
        SetZoom (zoom p);
        WaitForLoaded (waitForFunction_times_out env)]
    ++ (if lang_differs then [SelectLanguage (or_default (lang p) "en")] else [])
    ++ (if theme_differs
        then [SetTheme (or_default (theme p) "") (dark p)] else [])
    ++ (if (wait =? 0)%Z then [] else [Sleep wait]) in
  _navigatePage isAddOn homeAssistantUrl p env b
  = (inr (vp, wait),
     mkBrowser (Some (if viewport_differs cur vp then Some vp else cur))
       (Some (pagePath p)) (lang p) (theme p) (Some (dark p))
       (log b ++ acts)).
Proof. apply first_load_effect. Qed.

Lemma navigate_first_load_witness :
  fst (_navigatePage true "http://ha:8123"
         (Samples.params "/lovelace/0" "png" None false) Samples.ok_env fresh)
  = inr (mkViewport 800 536, 7500%Z).
Proof.
  rewrite (navigate_first_load true "http://ha:8123"
             (Samples.params "/lovelace/0" "png" None false) Samples.ok_env
             fresh None 200%Z);
    reflexivity.
Defined.

(** X6.  A navigation to a path other than the cached one reloads the
    page: the tokens are injected again, [page.goto] waits for the network
    to be idle, the script that sets the zoom and dismisses an update toast
    runs, and 500 ms are waited after the page reports that it is loaded.
    The default wait is 2000 ms, 3000 ms in the add-on, plus 1000 when a
    toast was dismissed, 1000 for the language and 500 for the theme. *)
Theorem navigate_changed_path (isAddOn : bool) (homeAssistantUrl : string)
    (p : Params) (env : Env) (b : Browser) (cur : option Viewport)
    (last : string) (status : Z) (d : bool) :
  page b = Some cur ->
  lastRequestedPath b = Some last ->
  last <> pagePath p ->
  setViewport_throws env = None ->
  evaluateOnNewDocument_throws env = None ->
  goto_result env = inr status ->
  response_ok status = true ->
  toast_result env = inr d ->
  setZoom_throws env = None ->
  selectLanguage_throws env = None ->
  setTheme_throws env = None ->
  let vp := mkViewport (width (viewport p))
              (height (viewport p)
               + Math_round (inject_Z HEADER_HEIGHT * zoom p)%Q)%Z in
  let lang_differs := negb (bool_decide (lang p = lastRequestedLang b)) in
  let theme_differs :=
    negb (bool_decide (theme p = lastRequestedTheme b))
    || negb (bool_decide (Some (dark p) = lastRequestedDarkMode b)) in
  let defaultWait :=
    ((if isAddOn then 3000 else 2000) + (if d then 1000 else 0)
     + (if lang_differs then 1000 else 0)
     + (if theme_differs then 500 else 0))%Z in
  let wait := match extraWait p with Some w => w | None => defaultWait end in
  let acts :=
    (if viewport_differs cur vp then [SetViewport vp] else [])
    ++ [EvaluateOnNewDocument;
        Goto (page_url homeAssistantUrl (pagePath p)) true;
        RemoveScript;
        ZoomAndDismissToast (zoom p)]
    ++ (if d then [] else [SetZoom (zoom p)])
    ++ [WaitForLoaded (waitForFunction_times_out env); Sleep 500]
    ++ (if lang_differs then [SelectLanguage (or_default (lang p) "en")] else [])
    ++ (if theme_differs
        then [SetTheme (or_default (theme p) "") (dark p)] else [])
    ++ (if (wait =? 0)%Z then [] else [Sleep wait]) in
  _navigatePage isAddOn homeAssistantUrl p env b
  = (inr (vp, wait),
     mkBrowser (Some (if viewport_differs cur vp then Some vp else cur))
       (Some (pagePath p)) (lang p) (theme p) (Some (dark p))
       (log b ++ acts)).
Proof.
  destruct b as [pg lp ll lt ld lg].
  destruct p as [pp vp0 ew ec inv zm fm rt lng th dk].
  destruct env as [l sv ev g t sz w sl sth sc tb bm].
  simpl. intros -> -> Hne -> -> -> Hok -> -> -> ->.
  apply String.eqb_neq in Hne.
  cbv zeta.
  set (vp := mkViewport _ _).
  session_run;
    cbv beta iota zeta delta [viewport zoom pagePath extraWait lang theme dark];
    fold vp.
  destruct (viewport_differs _ vp); session_run.
  all: rewrite Hne; session_run.
  all: rewrite Hok; session_run.
  all: destruct isAddOn; session_run.
  all: destruct d; session_run.
  all: destruct (bool_decide (lng = ll)) eqn:El; session_run.
  all: destruct (bool_decide (th = lt)) eqn:Et; session_run.
  all: destruct (bool_decide (Some dk = ld)) eqn:Ed; session_run.
  all: try (apply bool_decide_eq_true in El; subst ll).
  all: try (apply bool_decide_eq_true in Et; subst lt).
  all: try (apply bool_decide_eq_true in Ed; subst ld).
  all: clearbody vp; destruct ew as [x |]; simpl; session_run.
  all: try (destruct (x =? 0)%Z); session_run.
  all: rewrite <- ?app_assoc; reflexivity.
Qed.

Lemma navigate_changed_path_witness :
  let b := snd (_navigatePage false "http://ha:8123"
                  (Samples.params "/lovelace/0" "png" None false)
                  Samples.ok_env fresh) in
  fst (_navigatePage false "http://ha:8123"
         (Samples.params "/lovelace/1" "png" None false) Samples.toast_env b)
  = inr (mkViewport 800 536, 3000%Z).
Proof.
  intros b.
  rewrite (navigate_changed_path false "http://ha:8123"
             (Samples.params "/lovelace/1" "png" None false) Samples.toast_env
             b (Some (mkViewport 800 536)) "/lovelace/0" 200%Z true);
    try reflexivity.
  discriminate.
Defined.

(** ** Requests that follow a capture *)

(** X7.  After a unit that returned an image, a request for the same path
    loads nothing, provided the calls it makes succeed; it applies the
    language again only when the new request names another language, and
    the theme only when theme or dark mode changed. *)
Theorem repeated_request_loads_nothing (isAddOn : bool)
    (homeAssistantUrl : string) (p p2 : Params) (env1 env2 : Env)
    (b b1 : Browser) (img : image) (d : bool) :
  navigateAndScreenshot isAddOn homeAssistantUrl p env1 b = (inr img, b1) ->
  pagePath p2 = pagePath p ->
  setViewport_throws env2 = None ->
  toast_result env2 = inr d ->
  setZoom_throws env2 = None ->
  selectLanguage_throws env2 = None ->
  setTheme_throws env2 = None ->
  exists r b2 acts,
    _navigatePage isAddOn homeAssistantUrl p2 env2 b1 = (inr r, b2)
    /\ log b2 = log b1 ++ acts
    /\ existsb is_load acts = false
    /\ existsb selects_language acts = negb (bool_decide (lang p2 = lang p))
    /\ existsb sets_theme acts
       = negb (bool_decide (theme p2 = theme p))
         || negb (bool_decide (dark p2 = dark p)).
Proof.
  intros Hunit Hpath Hsv Ht Hz Hsl Hth.
  pose proof (navigate_success isAddOn homeAssistantUrl p env1 b I) as Hs.
  unfold navigateAndScreenshot, bind in Hunit.
  destruct (_navigatePage isAddOn homeAssistantUrl p env1 b)
    as [[e | [vp wait]] b0]; [discriminate |].
  simpl in Hs. destruct Hs as (Hpg & Hp & Hlang & Htheme & Hdark & _).
  pose proof (screenshot_effect (with_viewport p vp) env1 b0) as He.
  cbv zeta in He. rewrite Hunit in He. simpl in He.
  destruct He as (El & Et & Ed & Hpage & Ep).
  destruct (Hpage Hpg) as (Hsame & _).
  destruct (page b1) as [cur |] eqn:Hcur; [| congruence].
  pose proof (navigate_same_path isAddOn homeAssistantUrl p2 env2 b1 cur d
                Hcur ltac:(congruence) Hsv Ht Hz Hsl Hth) as Hnav.
  cbv zeta in Hnav.
  do 3 eexists. split; [exact Hnav |]. simpl log. split; [reflexivity |].
  rewrite El, Et, Ed, Hlang, Htheme, Hdark.
  set (vp2 := mkViewport _ _).
  set (w2 := match extraWait p2 with Some w => w | None => _ end).
  clearbody w2 vp2.
  assert (Hdk : bool_decide (Some (dark p2) = Some (dark p))
                = bool_decide (dark p2 = dark p)).
  { apply bool_decide_ext. split; congruence. }
  rewrite Hdk.
  repeat split;
    destruct (viewport_differs cur vp2), d,
      (bool_decide (lang p2 = lang p)),
      (bool_decide (theme p2 = theme p)),
      (bool_decide (dark p2 = dark p)),
      (w2 =? 0)%Z; reflexivity.
Qed.

Lemma repeated_request_loads_nothing_witness :
  let p := Samples.params "/lovelace/0" "png" None false in
  let r := navigateAndScreenshot false "http://ha:8123" p Samples.ok_env fresh in
  exists r2 b2 acts,
    _navigatePage false "http://ha:8123" p Samples.ok_env (snd r) = (inr r2, b2)
    /\ log b2 = log (snd r) ++ acts
    /\ existsb is_load acts = false.
Proof.
  intros p r.
  destruct (repeated_request_loads_nothing false "http://ha:8123" p p
              Samples.ok_env Samples.ok_env fresh (snd r)
              (SharpBuffer [Png None] Samples.two_pixels) false)
    as (r2 & b2 & acts & H1 & H2 & H3 & _); try reflexivity.
  exists r2, b2, acts. auto.
Defined.

(** X8.  [invert] only matters for two colours: for every other value of
    [einkColors] the unit returns the same image, or throws the same
    error, in the same state, whatever [invert] is. *)
Theorem invert_only_for_two_colours (isAddOn : bool)
    (homeAssistantUrl : string) (p : Params) (env : Env) (b : Browser) :
  einkColors p <> Some 2%Z ->
  navigateAndScreenshot isAddOn homeAssistantUrl (Lifecycle.with_invert p true)
    env b
  = navigateAndScreenshot isAddOn homeAssistantUrl
      (Lifecycle.with_invert p false) env b.
Proof.
  intros Hne.
  destruct p as [pp vp0 ew ec inv zm fm rt lng th dk]. simpl in Hne.
  assert (H2 : is_num ec 2 = false).
  { destruct ec as [n |]; [| reflexivity]. simpl. apply Z.eqb_neq.
    congruence. }
  unfold Lifecycle.with_invert, navigateAndScreenshot, bind. simpl.
  change (_navigatePage isAddOn homeAssistantUrl
            (mkParams pp vp0 ew ec true zm fm rt lng th dk) env b)
    with (_navigatePage isAddOn homeAssistantUrl
            (mkParams pp vp0 ew ec false zm fm rt lng th dk) env b).
  destruct (_navigatePage isAddOn homeAssistantUrl
              (mkParams pp vp0 ew ec false zm fm rt lng th dk) env b)
    as [[e | [vp wait]] b1]; [reflexivity |].
  unfold with_viewport, _screenshotPage, _screenshotPage_try. simpl.
  rewrite H2. reflexivity.
Qed.

Lemma invert_only_for_two_colours_witness :
  navigateAndScreenshot false "http://ha:8123"
    (Lifecycle.with_invert (Samples.params "/lovelace/0" "bmp" (Some 16%Z) false)
       true) Samples.ok_env fresh
  = navigateAndScreenshot false "http://ha:8123"
      (Lifecycle.with_invert (Samples.params "/lovelace/0" "bmp" (Some 16%Z) false)
         false) Samples.ok_env fresh.
Proof.
  apply invert_only_for_two_colours. discriminate.
Defined.

(** ** Releasing the browser *)

(** X9.  [cleanup] on a session with a page closes page and browser and
    forgets page and cache; a second [cleanup] makes no call and changes
    nothing; and the next navigation is a first load that launches the
    browser again, whatever path was cached before. *)
Theorem cleanup_then_first_load (isAddOn : bool) (homeAssistantUrl : string)
    (x y x' y' : bool) (p : Params) (env : Env) (b : Browser)
    (v0 : option Viewport) (status : Z) :
  page b <> None ->
  launch env = inr v0 ->
  setViewport_throws env = None ->
  evaluateOnNewDocument_throws env = None ->
  goto_result env = inr status ->
  response_ok status = true ->
  setZoom_throws env = None ->
  selectLanguage_throws env = None ->
  setTheme_throws env = None ->
  let c := Lifecycle.cleanup x y b in
  fst c = [Lifecycle.ClosePage x; Lifecycle.CloseBrowser y]
  /\ snd c = mkBrowser None None None None None (log b)
  /\ Lifecycle.cleanup x' y' (snd c) = ([], snd c)
  /\ exists r b' acts,
       _navigatePage isAddOn homeAssistantUrl p env (snd c) = (inr r, b')
       /\ log b' = log b ++ Launch :: acts
       /\ In (Goto (page_url homeAssistantUrl (pagePath p)) false) acts
       /\ lastRequestedPath b' = Some (pagePath p).
Proof.
  intros Hpg Hl Hsv Hev Hg Hok Hz Hsl Hth c.
  unfold Lifecycle.cleanup in c.
  destruct (page b) as [cur |] eqn:Hcur; [| congruence].
  subst c. simpl fst. simpl snd.
  split; [reflexivity |]. split; [reflexivity |]. split; [reflexivity |].
  pose proof (first_load_effect isAddOn homeAssistantUrl p env
                (mkBrowser None None None None None (log b)) v0 status
                eq_refl Hl Hsv Hev Hg Hok Hz Hsl Hth) as Hnav.
  cbv zeta in Hnav. simpl page in Hnav. simpl log in Hnav.
  do 3 eexists. split; [exact Hnav |]. simpl.
  split; [reflexivity |]. split; [| reflexivity].
  apply in_or_app. right. right. left. reflexivity.
Qed.

Lemma cleanup_then_first_load_witness :
  let b := snd (navigateAndScreenshot false "http://ha:8123"
                  (Samples.params "/lovelace/0" "png" None false)
                  Samples.ok_env fresh) in
  Lifecycle.cleanup false false (snd (Lifecycle.cleanup true false b))
  = ([], snd (Lifecycle.cleanup true false b)).
Proof.
  intros b.
  exact (proj1 (proj2 (proj2
           (cleanup_then_first_load false "http://ha:8123" true false false
              false (Samples.params "/lovelace/1" "png" None false)
              Samples.ok_env b None 200%Z ltac:(vm_compute; discriminate)
              eq_refl eq_refl eq_refl eq_refl eq_refl eq_refl eq_refl
              eq_refl)))).
Defined.

(** ** Scheduling *)

Lemma scheduleJob_timers_grow c d s t :
  In t (Scheduler.timers s) -> In t (Scheduler.timers (Scheduler.scheduleJob c d s)).
Proof.
  intros Hin. unfold Scheduler.scheduleJob.
  destruct (Scheduler.jobs s !! Scheduler.j_name c); [exact Hin |].
  simpl. apply in_or_app. left. exact Hin.
Qed.

Lemma scheduleJob_owned c d s :
  Startup.intervals_owned s ->
  Startup.intervals_owned (Scheduler.scheduleJob c d s).
Proof.
  intros Hown. unfold Scheduler.scheduleJob.
  destruct (Scheduler.jobs s !! Scheduler.j_name c) eqn:Hj; [exact Hown |].
  intros t Hin Hint. simpl in Hin. apply in_app_or in Hin.
  destruct Hin as [Hin | Hin].
  - destruct (Hown t Hin Hint) as (name & c' & Hl).
    exists name, c'. simpl.
    rewrite lookup_insert_ne; [exact Hl |]. congruence.
  - apply in_app_or in Hin. destruct Hin as [Hin | Hin].
    + destruct (0 <? d)%Z; simpl in Hin; [| contradiction].
      destruct Hin as [<- | []]. discriminate.
    + destruct Hin as [<- | []].
      exists (Scheduler.j_name c), c. simpl. apply lookup_insert_eq.
Qed.

Lemma scheduleJob_timed c d s :
  Startup.jobs_timed s -> Startup.jobs_timed (Scheduler.scheduleJob c d s).
Proof.
  intros Htimed. unfold Scheduler.scheduleJob.
  destruct (Scheduler.jobs s !! Scheduler.j_name c) eqn:Hj; [exact Htimed |].
  intros name c' tid Hl. simpl in Hl.
  destruct (decide (Scheduler.j_name c = name)) as [<- | Hne].
  - rewrite lookup_insert_eq in Hl. injection Hl as <- <-.
    split; [reflexivity |]. simpl. apply in_or_app. right.
    apply in_or_app. right. left. reflexivity.
  - rewrite lookup_insert_ne in Hl by exact Hne.
    destruct (Htimed name c' tid Hl) as [Hn Hin].
    split; [exact Hn |]. simpl. apply in_or_app. left. exact Hin.
Qed.

Lemma schedule_from_invariants (l : list Scheduler.Job) : forall index s,
  Startup.intervals_owned s -> Startup.jobs_timed s ->
  Startup.intervals_owned (Scheduler.schedule_from index l s)
  /\ Startup.jobs_timed (Scheduler.schedule_from index l s).
Proof.
  induction l as [| c l IH]; intros index s Ho Ht; simpl; [auto |].
  apply IH; [apply scheduleJob_owned | apply scheduleJob_timed]; assumption.
Qed.

Lemma first_named_cons name c l :
  Startup.first_named name (c :: l)
  = if String.eqb (Scheduler.j_name c) name then Some c
    else Startup.first_named name l.
Proof. reflexivity. Qed.

Lemma schedule_from_lookup (l : list Scheduler.Job) : forall index s name,
  fst <$> (Scheduler.jobs (Scheduler.schedule_from index l s) !! name)
  = match Scheduler.jobs s !! name with
    | Some x => Some (fst x)
    | None => Startup.first_named name l
    end.
Proof.
  induction l as [| c l IH]; intros index s name.
  - simpl. destruct (Scheduler.jobs s !! name); reflexivity.
  - cbn [Scheduler.schedule_from]. rewrite IH, first_named_cons.
    unfold Scheduler.scheduleJob.
    destruct (Scheduler.jobs s !! Scheduler.j_name c) as [x |] eqn:Hj.
    + destruct (String.eqb_spec (Scheduler.j_name c) name) as [<- | Hne].
      * rewrite Hj. reflexivity.
      * reflexivity.
    + simpl. destruct (String.eqb_spec (Scheduler.j_name c) name) as [<- | Hne].
      * rewrite lookup_insert_eq, Hj. reflexivity.
      * rewrite lookup_insert_ne by exact Hne. reflexivity.
Qed.

Lemma new_invariants :
  Startup.intervals_owned Scheduler.new /\ Startup.jobs_timed Scheduler.new.
Proof.
  split.
  - intros t [].
  - intros name c tid Hl. simpl in Hl. rewrite lookup_empty in Hl.
    discriminate.
Qed.

Lemma loadConfig_new src :
  Scheduler.jobs (snd (Scheduler.loadConfig src Scheduler.new)) = ∅
  /\ Scheduler.timers (snd (Scheduler.loadConfig src Scheduler.new)) = []
  /\ Scheduler.launched (snd (Scheduler.loadConfig src Scheduler.new)) = [].
Proof.
  destruct (loadConfig_keeps_timers src Scheduler.new) as (H1 & H2 & H3).
  auto.
Qed.

(** X10.  After [start] on a new scheduler the job table holds, under each
    name, the first entry of the configuration with that name (a later
    entry of the same name is not scheduled); each job in the table is
    filed under its own name and has its recurring timer, of period
    [interval * 1000] ms, and every recurring timer belongs to a job of
    the table. *)
Theorem start_job_table (src : Scheduler.ConfigSource)
    (entries : list Scheduler.Job) :
  fst (Scheduler.loadConfig src Scheduler.new) = inr entries ->
  let s := snd (Scheduler.start src Scheduler.new) in
  (forall name,
     fst <$> (Scheduler.jobs s !! name) = Startup.first_named name entries)
  /\ Startup.jobs_timed s
  /\ Startup.intervals_owned s.
Proof.
  intros Hload s. subst s. unfold Scheduler.start.
  destruct (loadConfig_new src) as (Hj & Ht & _).
  destruct (Scheduler.loadConfig src Scheduler.new) as [[e | js] s0];
    simpl in *; [discriminate |].
  injection Hload as ->.
  assert (Ho0 : Startup.intervals_owned s0) by (intros t Hin; rewrite Ht in Hin; destruct Hin).
  assert (Ht0 : Startup.jobs_timed s0).
  { intros name c tid Hl. rewrite Hj, lookup_empty in Hl. discriminate. }
  destruct (schedule_from_invariants entries 0 s0 Ho0 Ht0) as [Ho Htm].
  split; [| auto].
  intros name. rewrite schedule_from_lookup, Hj, lookup_empty. reflexivity.
Qed.

Lemma start_job_table_witness :
  fst <$> (Scheduler.jobs
             (snd (Scheduler.start
                     (Scheduler.FromOptions Samples.duplicated_config)
                     Scheduler.new)) !! "kitchen")
  = Some (Scheduler.mkJob "kitchen" "/lovelace/0" 50 50 60 (Some 99999%Z) None
            None (Some (10 # 1)%Q) None None None None None).
Proof.
  rewrite (proj1 (start_job_table
                    (Scheduler.FromOptions Samples.duplicated_config) _
                    eq_refl)).
  reflexivity.
Defined.

Lemma timer_plan_app l1 l2 :
  Startup.timer_plan (l1 ++ l2) = Startup.timer_plan l1 ++ Startup.timer_plan l2.
Proof. apply map_app. Qed.

Lemma schedule_from_plan (l : list Scheduler.Job) : forall index s,
  NoDup (map Scheduler.j_name l) ->
  (forall c, In c l -> Scheduler.jobs s !! Scheduler.j_name c = None) ->
  Startup.timer_plan (Scheduler.timers (Scheduler.schedule_from index l s))
  = Startup.timer_plan (Scheduler.timers s) ++ Startup.planned index l
  /\ Scheduler.launched (Scheduler.schedule_from index l s)
     = Scheduler.launched s ++ (if index =? 0 then firstn 1 l else []).
Proof.
  induction l as [| c l IH]; intros index s Hnd Hfree.
  - simpl. rewrite !app_nil_r. destruct (index =? 0); rewrite ?app_nil_r; auto.
  - cbn [Scheduler.schedule_from].
    apply NoDup_cons in Hnd. destruct Hnd as [Hnotin Hnd].
    assert (Hc : Scheduler.jobs s !! Scheduler.j_name c = None)
      by (apply Hfree; left; reflexivity).
    set (s1 := Scheduler.scheduleJob c
                 (Z.of_nat index * Scheduler.STAGGER_DELAY)%Z s).
    assert (Hfree1 : forall c', In c' l ->
              Scheduler.jobs s1 !! Scheduler.j_name c' = None).
    { intros c' Hin. unfold s1, Scheduler.scheduleJob. rewrite Hc. simpl.
      rewrite lookup_insert_ne.
      - apply Hfree. right. exact Hin.
      - intros Heq. apply Hnotin. rewrite Heq.
        apply list_elem_of_In, in_map, Hin. }
    destruct (IH (S index) s1 Hnd Hfree1) as [Hplan Hlaunched].
    rewrite Hplan, Hlaunched. simpl Nat.eqb. cbv iota. rewrite app_nil_r.
    unfold s1, Scheduler.scheduleJob. rewrite Hc.
    cbn [Startup.planned].
    assert (Hpos : (0 <? Z.of_nat index * Scheduler.STAGGER_DELAY)%Z
                   = negb (index =? 0)).
    { unfold Scheduler.STAGGER_DELAY. destruct index; simpl Nat.eqb; simpl negb.
      - reflexivity.
      - apply Z.ltb_lt. lia. }
    rewrite Hpos.
    destruct (index =? 0); simpl; rewrite ?timer_plan_app, <- ?app_assoc;
      simpl; rewrite ?app_nil_r; split; reflexivity.
Qed.

(** X11.  For a configuration whose names are distinct, [start] launches
    the capture of the first job at once and gives the job at position
    [i > 0] a start-up timeout of [i * 2000] ms; every job gets a recurring
    timer of [interval * 1000] ms, and no other timer is created. *)
Theorem start_stagger (src : Scheduler.ConfigSource)
    (entries : list Scheduler.Job) :
  fst (Scheduler.loadConfig src Scheduler.new) = inr entries ->
  NoDup (map Scheduler.j_name entries) ->
  let s := snd (Scheduler.start src Scheduler.new) in
  Startup.timer_plan (Scheduler.timers s) = Startup.planned 0 entries
  /\ Scheduler.launched s = firstn 1 entries.
Proof.
  intros Hload Hnd s. subst s. unfold Scheduler.start.
  destruct (loadConfig_new src) as (Hj & Ht & Hl).
  destruct (Scheduler.loadConfig src Scheduler.new) as [[e | js] s0];
    simpl in *; [discriminate |].
  injection Hload as ->.
  destruct (schedule_from_plan entries 0 s0 Hnd) as [Hplan Hlaunched].
  { intros c _. rewrite Hj. apply lookup_empty. }
  rewrite Hplan, Hlaunched, Ht, Hl. auto.
Qed.

Lemma start_stagger_witness :
  Startup.timer_plan
    (Scheduler.timers
       (snd (Scheduler.start (Scheduler.FromOptions Samples.two_jobs)
               Scheduler.new)))
  = [(Scheduler.Interval 60000,
      Scheduler.mkJob "kitchen" "/lovelace/0" 800 480 60 None None None None
        None None None None None);
     (Scheduler.Timeout 2000,
      Scheduler.mkJob "hall" "/lovelace/0" 1920 1080 300 None None None None
        None None None None None);
     (Scheduler.Interval 300000,
      Scheduler.mkJob "hall" "/lovelace/0" 1920 1080 300 None None None None
        None None None None None)].
Proof.
  rewrite (proj1 (start_stagger (Scheduler.FromOptions Samples.two_jobs) _
                    eq_refl
                    ltac:(vm_compute; apply (bool_decide_unpack _); vm_compute;
                          exact I))).
  reflexivity.
Defined.

(** ** Shutdown *)



Section Shutdown.
Variable isAddOn : bool.
Variables hassUrl outputPath : string.

Let fire := Scheduler.fire isAddOn hassUrl outputPath.
Let fire_all := Scheduler.fire_all isAddOn hassUrl outputPath.





End Shutdown.



(** ** Firings during off-hours *)

Section OffHoursFacts.
Variable isAddOn : bool.
Variables hassUrl outputPath : string.

Let fire := Scheduler.fire isAddOn hassUrl outputPath.
Let fire_all := Scheduler.fire_all isAddOn hassUrl outputPath.

Lemma fire_off_hours tid h m env fenv s :
  Scheduler.isOffHours (Scheduler.offHours s) h m = true ->
  (fst (fire tid h m env fenv s) = None
   \/ fst (fire tid h m env fenv s) = Some Startup.skipped_outcome)
  /\ Scheduler.browser (snd (fire tid h m env fenv s)) = Scheduler.browser s
  /\ Scheduler.disk (snd (fire tid h m env fenv s)) = Scheduler.disk s
  /\ Scheduler.offHours (snd (fire tid h m env fenv s)) = Scheduler.offHours s.
Proof.
  intros Hoff. unfold fire, Scheduler.fire.
  destruct (Scheduler.find_timer tid s) as [t |]; [| simpl; auto].
  set (s1 := match Scheduler.kind t with
             | Scheduler.Timeout _ => Scheduler.remove_timer tid s
             | Scheduler.Interval _ => s
             end).
  assert (H1 : Scheduler.browser s1 = Scheduler.browser s
               /\ Scheduler.disk s1 = Scheduler.disk s
               /\ Scheduler.offHours s1 = Scheduler.offHours s)
    by (unfold s1; destruct (Scheduler.kind t); simpl; auto).
  destruct H1 as (B & D & O).
  destruct (Scheduler.isShuttingDown s1); [simpl; auto |].
  unfold Scheduler.captureScreenshot. rewrite O, Hoff. simpl. auto.
Qed.

Lemma fire_all_off_hours fs s :
  Forall (fun f => Scheduler.isOffHours (Scheduler.offHours s)
                     (Scheduler.fi_hours f) (Scheduler.fi_minutes f) = true)
    fs ->
  Forall (fun o => o = None \/ o = Some Startup.skipped_outcome)
    (fst (fire_all fs s))
  /\ Scheduler.browser (snd (fire_all fs s)) = Scheduler.browser s
  /\ Scheduler.disk (snd (fire_all fs s)) = Scheduler.disk s
  /\ Scheduler.offHours (snd (fire_all fs s)) = Scheduler.offHours s.
Proof.
  induction fs as [| f fs IH] using rev_ind; intros Hall.
  - simpl. auto.
  - apply Forall_app in Hall. destruct Hall as [Hfs Hf].
    apply Forall_inv in Hf.
    destruct (IH Hfs) as (I1 & I2 & I3 & I4).
    unfold fire_all. rewrite fire_all_snoc. simpl.
    rewrite <- I4 in Hf.
    destruct (fire_off_hours (Scheduler.fi_timer f) (Scheduler.fi_hours f)
                (Scheduler.fi_minutes f) (Scheduler.fi_env f)
                (Scheduler.fi_fenv f) _ Hf) as (F1 & F2 & F3 & F4).
    unfold fire, fire_all in *. rewrite F2, F3, F4.
    repeat split; auto.
    apply Forall_app. split; [exact I1 | constructor; auto].
Qed.

End OffHoursFacts.

(** X13.  During off-hours nothing is captured: whatever timers fire at
    times inside the window, each firing is skipped with the outcome
    [{ success: false, skipped: true, reason: 'off-hours' }] (or does
    nothing at all, when the timer is gone or the scheduler is shutting
    down); the browser is not launched or called, and no file is
    written. *)
Theorem off_hours_firings_idle (isAddOn : bool) (hassUrl outputPath : string)
    (fs : list Scheduler.firing) (s : Scheduler.Scheduler) :
  Forall (fun f => Scheduler.isOffHours (Scheduler.offHours s)
                     (Scheduler.fi_hours f) (Scheduler.fi_minutes f) = true)
    fs ->
  let r := Scheduler.fire_all isAddOn hassUrl outputPath fs s in
  Forall (fun o => o = None \/ o = Some Startup.skipped_outcome) (fst r)
  /\ Scheduler.browser (snd r) = Scheduler.browser s
  /\ Scheduler.disk (snd r) = Scheduler.disk s.
Proof.
  intros Hall r.
  destruct (fire_all_off_hours isAddOn hassUrl outputPath fs s Hall)
    as (H1 & H2 & H3 & _).
  auto.
Qed.

Lemma off_hours_firings_idle_witness :
  let s := Scheduler.set_offHours (Some ("22:00", "06:00"))
             (snd (Scheduler.start (Scheduler.FromOptions Samples.two_jobs)
                     Scheduler.new)) in
  Scheduler.browser
    (snd (Scheduler.fire_all true "http://ha:8123" "/config/www/screenshots"
            [Scheduler.mkFiring 0 23 0 Samples.ok_env Samples.disk_ok;
             Scheduler.mkFiring 1 5 59 Samples.ok_env Samples.disk_ok] s))
  = Session.fresh.
Proof.
  intros s.
  apply (proj1 (proj2 (off_hours_firings_idle true "http://ha:8123"
                         "/config/www/screenshots"
                         [Scheduler.mkFiring 0 23 0 Samples.ok_env
                            Samples.disk_ok;
                          Scheduler.mkFiring 1 5 59 Samples.ok_env
                            Samples.disk_ok] s
                         ltac:(repeat constructor)))).
Defined.

(** ** The off-hours window that [loadConfig] accepts *)

Lemma in_range_bounds lo hi c :
  Scheduler.in_range lo hi c = true -> lo <= nat_of_ascii c <= hi.
Proof.
  unfold Scheduler.in_range. rewrite andb_true_iff, !Nat.leb_le. auto.
Qed.

Lemma in_range_not_colon lo hi c :
  Scheduler.in_range lo hi c = true -> hi < 58 ->
  Ascii.eqb c ":" = false.
Proof.
  intros H Hhi. apply Ascii.eqb_neq. intros ->.
  apply in_range_bounds in H. change (nat_of_ascii ":") with 58 in H. lia.
Qed.

Lemma split_colon_cons c rest :
  Scheduler.split_colon (String c rest)
  = if Ascii.eqb c ":" then ("", rest)
    else let '(a, b) := Scheduler.split_colon rest in (String c a, b).
Proof. reflexivity. Qed.

Lemma Number_of_one a :
  Scheduler.Number_of_digits (String a "")
  = Z.of_nat (nat_of_ascii a - 48).
Proof. unfold Scheduler.Number_of_digits. simpl. lia. Qed.

Lemma Number_of_two a b :
  Scheduler.Number_of_digits (String a (String b ""))
  = (Z.of_nat (nat_of_ascii a - 48) * 10 + Z.of_nat (nat_of_ascii b - 48))%Z.
Proof. unfold Scheduler.Number_of_digits. simpl. lia. Qed.

Lemma timeRegex_minutes (s : string) :
  Scheduler.timeRegex_test s = true ->
  (0 <= Scheduler.minutes_of s < 1440)%Z.
Proof.
  unfold Scheduler.timeRegex_test, Scheduler.is_digit.
  fold (Scheduler.in_range 48 57).
  destruct s as [| a [| b [| c [| d [| e [| f s]]]]]];
    cbn [list_ascii_of_string]; try discriminate.
  - fold (Scheduler.in_range 48 57 a) (Scheduler.in_range 48 57 d).
    rewrite !andb_true_iff. intros [[[Ha Hb] Hc] Hd].
    apply Ascii.eqb_eq in Hb. subst b.
    unfold Scheduler.minutes_of.
    rewrite split_colon_cons, (in_range_not_colon _ _ _ Ha) by lia.
    rewrite split_colon_cons. change (Ascii.eqb ":" ":") with true. cbv iota beta.
    rewrite Number_of_one, Number_of_two.
    apply in_range_bounds in Ha, Hc, Hd. lia.
  - fold (Scheduler.in_range 48 57 b) (Scheduler.in_range 48 57 e).
    rewrite !andb_true_iff, orb_true_iff, !andb_true_iff.
    intros [[[Hh Hc] Hd] He].
    apply Ascii.eqb_eq in Hc. subst c.
    assert (Ha : Ascii.eqb a ":" = false).
    { destruct Hh as [[Ha _] | [Ha _]].
      - apply (in_range_not_colon _ _ _ Ha). lia.
      - apply Ascii.eqb_eq in Ha. subst a. reflexivity. }
    assert (Hb : Ascii.eqb b ":" = false).
    { destruct Hh as [[_ Hb] | [_ Hb]];
        apply (in_range_not_colon _ _ _ Hb); lia. }
    unfold Scheduler.minutes_of.
    rewrite split_colon_cons, Ha, split_colon_cons, Hb, split_colon_cons.
    change (Ascii.eqb ":" ":") with true. cbv iota beta.
    rewrite !Number_of_two.
    apply in_range_bounds in Hd, He.
    destruct Hh as [[H1 H2] | [H1 H2]].
    + apply in_range_bounds in H1, H2. lia.
    + apply Ascii.eqb_eq in H1. subst a. apply in_range_bounds in H2.
      change (nat_of_ascii "2") with 50. lia.
Qed.

Lemma loadConfig_window (src : Scheduler.ConfigSource) (s : Scheduler.Scheduler)
    (st en : string) :
  Scheduler.offHours s = None ->
  Scheduler.offHours (snd (Scheduler.loadConfig src s)) = Some (st, en) ->
  Scheduler.timeRegex_test st = true /\ Scheduler.timeRegex_test en = true.
Proof.
  intros Hnone. unfold Scheduler.loadConfig.
  assert (Hgen : forall config,
            Scheduler.offHours
              (snd match Scheduler.screenshots config with
                   | None => (inl Scheduler.NoScreenshotsArray, s)
                   | Some entries =>
                       match Scheduler.validate_off_hours
                               (Scheduler.off_hours config) with
                       | inl e => (inl e, s)
                       | inr o =>
                           (Scheduler.validate_from 0 entries,
                            match o with
                            | Some _ => Scheduler.set_offHours o s
                            | None => s
                            end)
                       end
                   end) = Some (st, en) ->
            Scheduler.timeRegex_test st = true
            /\ Scheduler.timeRegex_test en = true).
  { intros config.
    destruct (Scheduler.screenshots config); simpl; [| congruence].
    unfold Scheduler.validate_off_hours.
    destruct (Scheduler.off_hours config) as [oh |]; simpl; [| congruence].
    destruct (Scheduler.truthy_string (Scheduler.oh_start oh)) as [a |];
      simpl; [| congruence].
    destruct (Scheduler.truthy_string (Scheduler.oh_end oh)) as [b |];
      simpl; [| congruence].
    destruct (Scheduler.timeRegex_test a) eqn:Ea; simpl; [| congruence].
    destruct (Scheduler.timeRegex_test b) eqn:Eb; simpl; [| congruence].
    intros [= <- <-]. auto. }
  destruct src as [config | [config |]]; simpl; try apply Hgen. congruence.
Qed.

(** X14.  A window that [loadConfig] stored is a pair of times of the day:
    both ends parse to a minute between 0 and 1439.  For a clock time
    [hours]:[minutes], [isOffHours] then holds exactly when the time
    passed since the start of the window, counted round the clock, is
    less than the length of the window counted the same way; a window with
    equal start and end suppresses nothing. *)
Theorem accepted_window_round_the_clock (src : Scheduler.ConfigSource)
    (st en : string) (hours minutes : Z) :
  Scheduler.offHours (snd (Scheduler.loadConfig src Scheduler.new))
  = Some (st, en) ->
  (0 <= hours < 24)%Z -> (0 <= minutes < 60)%Z ->
  let s := Scheduler.minutes_of st in
  let e := Scheduler.minutes_of en in
  let t := (hours * 60 + minutes)%Z in
  (0 <= s < 1440)%Z /\ (0 <= e < 1440)%Z
  /\ (Scheduler.isOffHours (Some (st, en)) hours minutes = true
      <-> ((t - s) mod 1440 < (e - s) mod 1440)%Z)
  /\ (s = e -> Scheduler.isOffHours (Some (st, en)) hours minutes = false).
Proof.
  intros Hw Hh Hm s e t.
  destruct (loadConfig_window src Scheduler.new st en eq_refl Hw) as [Hs He].
  apply timeRegex_minutes in Hs, He. fold s in Hs. fold e in He.
  assert (Hgen : Scheduler.isOffHours (Some (st, en)) hours minutes
                 = if (s <=? e)%Z then (s <=? t)%Z && (t <? e)%Z
                   else (s <=? t)%Z || (t <? e)%Z) by reflexivity.
  assert (Ht : (0 <= t < 1440)%Z) by (unfold t; lia).
  split; [exact Hs |]. split; [exact He |]. rewrite Hgen. split.
  - destruct (Z.leb_spec s e).
    + rewrite andb_true_iff, Z.leb_le, Z.ltb_lt.
      rewrite (Z.mod_small (e - s)) by lia.
      destruct (Z_lt_le_dec t s).
      * replace ((t - s) mod 1440)%Z with (t - s + 1440)%Z.
        { lia. }
        rewrite <- (Z.mod_small (t - s + 1440) 1440) by lia.
        rewrite <- Z.add_mod_idemp_r by lia.
        rewrite Z.mod_same by lia. f_equal. lia.
      * rewrite (Z.mod_small (t - s)) by lia. lia.
    + rewrite orb_true_iff, Z.leb_le, Z.ltb_lt.
      replace ((e - s) mod 1440)%Z with (e - s + 1440)%Z.
      2:{ rewrite <- (Z.mod_small (e - s + 1440) 1440) by lia.
          rewrite <- Z.add_mod_idemp_r by lia.
          rewrite Z.mod_same by lia. f_equal. lia. }
      destruct (Z_lt_le_dec t s).
      * replace ((t - s) mod 1440)%Z with (t - s + 1440)%Z.
        { lia. }
        rewrite <- (Z.mod_small (t - s + 1440) 1440) by lia.
        rewrite <- Z.add_mod_idemp_r by lia.
        rewrite Z.mod_same by lia. f_equal. lia.
      * rewrite (Z.mod_small (t - s)) by lia. lia.
  - intros <-. rewrite Z.leb_refl.
    destruct (Z.leb_spec s t); destruct (Z.ltb_spec t s); simpl; auto; lia.
Qed.

Lemma accepted_window_round_the_clock_witness :
  Scheduler.isOffHours (Some ("22:00", "06:00")) 23 30 = true
  <-> ((23 * 60 + 30 - Scheduler.minutes_of "22:00") mod 1440
       < (Scheduler.minutes_of "06:00" - Scheduler.minutes_of "22:00")
         mod 1440)%Z.
Proof.
  apply (accepted_window_round_the_clock
           (Scheduler.FromOptions
              (Scheduler.mkConfig (Some [])
                 (Some (Scheduler.mkOffHoursConfig (Some "22:00")
                          (Some "06:00")))))
           "22:00" "06:00" 23 30 eq_refl); lia.
Defined.

(** ** What a capture stores *)






(** ** The entries that [loadConfig] accepts *)

Lemma validate_one_job (index : nat) (c : Scheduler.ScreenshotConfig)
    (j : Scheduler.Job) :
  Scheduler.validate_one index c = inr j ->
  Scheduler.truthy_string (Scheduler.name c) = Some (Scheduler.j_name j)
  /\ Scheduler.truthy_string (Scheduler.path c) = Some (Scheduler.j_path j)
  /\ Scheduler.effective_viewport c
     = Some (Scheduler.j_width j, Scheduler.j_height j)
  /\ Scheduler.interval c = Some (Scheduler.j_interval j)
  /\ (1 <= Scheduler.j_interval j)%Z
  /\ Scheduler.j_wait j = Scheduler.wait c
  /\ Scheduler.j_eink j = Scheduler.eink c
  /\ Scheduler.j_invert j = Scheduler.invert c
  /\ Scheduler.j_zoom j = Scheduler.zoom c
  /\ Scheduler.j_format j = Scheduler.format c
  /\ Scheduler.j_rotate j = Scheduler.rotate c
  /\ Scheduler.j_lang j = Scheduler.lang c
  /\ Scheduler.j_theme j = Scheduler.theme c
  /\ Scheduler.j_dark j = Scheduler.dark c.
Proof.
  unfold Scheduler.validate_one, Scheduler.effective_viewport.
  destruct (Scheduler.truthy_string (Scheduler.name c)) as [n |];
    [| discriminate].
  destruct (Scheduler.truthy_string (Scheduler.path c)) as [pth |];
    [| discriminate].
  assert (Htn : forall x k, Scheduler.truthy_number x = Some k -> x = Some k).
  { intros [x |] k; simpl; [| discriminate].
    destruct (x =? 0)%Z; [discriminate | auto]. }
  assert (Htt : forall k, Scheduler.truthy_number (Some k) = Some k
                          \/ Scheduler.truthy_number (Some k) = None).
  { intros k. simpl. destruct (k =? 0)%Z; auto. }
  destruct (Scheduler.viewport c) as [v |].
  - destruct (Scheduler.truthy_number (Scheduler.vc_width v)) as [w |];
      [| discriminate].
    destruct (Scheduler.truthy_number (Scheduler.vc_height v)) as [h |];
      [| destruct (Scheduler.truthy_number (Scheduler.interval c));
         discriminate].
    destruct (Scheduler.truthy_number (Scheduler.interval c)) as [i |] eqn:Ei;
      [| discriminate].
    destruct (Z.ltb_spec i 1); [discriminate |].
    intros [= <-]. simpl. apply Htn in Ei. repeat split; auto.
  - destruct (Scheduler.truthy_number (Scheduler.width c)) as [w |] eqn:Ew;
      [| discriminate].
    destruct (Scheduler.truthy_number (Scheduler.height c)) as [h |] eqn:Eh;
      [| discriminate].
    cbn [Scheduler.vc_width Scheduler.vc_height].
    assert (Hw : Scheduler.truthy_number (Some w) = Some w).
    { destruct (Scheduler.width c) as [w0 |]; [| discriminate].
      simpl in Ew. destruct (w0 =? 0)%Z eqn:E; [discriminate |].
      injection Ew as ->. simpl. rewrite E. reflexivity. }
    assert (Hh : Scheduler.truthy_number (Some h) = Some h).
    { destruct (Scheduler.height c) as [h0 |]; [| discriminate].
      simpl in Eh. destruct (h0 =? 0)%Z eqn:E; [discriminate |].
      injection Eh as ->. simpl. rewrite E. reflexivity. }
    rewrite Hw, Hh.
    destruct (Scheduler.truthy_number (Scheduler.interval c)) as [i |] eqn:Ei;
      [| discriminate].
    destruct (Z.ltb_spec i 1); [discriminate |].
    intros [= <-]. simpl. apply Htn in Ei. repeat split; auto.
Qed.

Lemma validate_from_jobs (l : list Scheduler.ScreenshotConfig) :
  forall index js,
  Scheduler.validate_from index l = inr js ->
  Forall2 (fun c j => exists i, Scheduler.validate_one i c = inr j) l js.
Proof.
  induction l as [| c l IH]; intros index js; simpl.
  - intros [= <-]. constructor.
  - destruct (Scheduler.validate_one index c) as [e | j] eqn:E1;
      [discriminate |].
    destruct (Scheduler.validate_from (S index) l) as [e | js'] eqn:E2;
      [discriminate |].
    intros [= <-]. constructor; [eauto | eapply IH; eassumption].
Qed.

Lemma loadConfig_entries (src : Scheduler.ConfigSource)
    (s : Scheduler.Scheduler) (js : list Scheduler.Job) :
  fst (Scheduler.loadConfig src s) = inr js ->
  exists cfg entries,
    Scheduler.source_config src = Some cfg
    /\ Scheduler.screenshots cfg = Some entries
    /\ Scheduler.validate_from 0 entries = inr js.
Proof.
  unfold Scheduler.loadConfig.
  destruct src as [c | [c |]]; simpl; try discriminate.
  all: destruct (Scheduler.screenshots c) as [entries |] eqn:Es;
    [| discriminate].
  all: destruct (Scheduler.validate_off_hours (Scheduler.off_hours c));
    [discriminate |].
  all: simpl; intros H; exists c, entries; auto.
Qed.

Lemma effective_viewport_fields (c : Scheduler.ScreenshotConfig) (w h : Z) :
  Scheduler.effective_viewport c = Some (w, h) ->
  match Scheduler.viewport c with
  | Some v => Scheduler.vc_width v = Some w /\ Scheduler.vc_height v = Some h
  | None => Scheduler.width c = Some w /\ Scheduler.height c = Some h
  end
  /\ w <> 0%Z /\ h <> 0%Z.
Proof.
  assert (Htn : forall x k, Scheduler.truthy_number x = Some k ->
                            x = Some k /\ k <> 0%Z).
  { intros [x |] k; simpl; [| discriminate].
    destruct (Z.eqb_spec x 0); [discriminate |]. intros [= <-]. auto. }
  unfold Scheduler.effective_viewport.
  destruct (Scheduler.viewport c) as [v |].
  - destruct (Scheduler.truthy_number (Scheduler.vc_width v)) as [w' |] eqn:Ew;
      [| discriminate].
    destruct (Scheduler.truthy_number (Scheduler.vc_height v)) as [h' |] eqn:Eh;
      [| discriminate].
    intros [= <- <-]. apply Htn in Ew, Eh. tauto.
  - destruct (Scheduler.truthy_number (Scheduler.width c)) as [w' |] eqn:Ew;
      [| discriminate].
    destruct (Scheduler.truthy_number (Scheduler.height c)) as [h' |] eqn:Eh;
      [| discriminate].
    intros [= <- <-]. apply Htn in Ew, Eh. tauto.
Qed.

(** X16.  The jobs that [loadConfig] returns are the entries of the
    configuration, one for one and in their order.  Each job has the name,
    path and interval of its entry, an interval of at least one second,
    and the optional fields unchanged; its width and height are those of
    the [viewport] object when the entry has one, and the separate
    [width] and [height] only when it has none. *)
Theorem accepted_jobs_follow_entries (src : Scheduler.ConfigSource)
    (s : Scheduler.Scheduler) (js : list Scheduler.Job) :
  fst (Scheduler.loadConfig src s) = inr js ->
  exists cfg entries,
    Scheduler.source_config src = Some cfg
    /\ Scheduler.screenshots cfg = Some entries
    /\ Forall2
         (fun c j =>
            Scheduler.truthy_string (Scheduler.name c)
            = Some (Scheduler.j_name j)
            /\ Scheduler.truthy_string (Scheduler.path c)
               = Some (Scheduler.j_path j)
            /\ Scheduler.interval c = Some (Scheduler.j_interval j)
            /\ (1 <= Scheduler.j_interval j)%Z
            /\ match Scheduler.viewport c with
               | Some v =>
                   Scheduler.vc_width v = Some (Scheduler.j_width j)
                   /\ Scheduler.vc_height v = Some (Scheduler.j_height j)
               | None =>
                   Scheduler.width c = Some (Scheduler.j_width j)
                   /\ Scheduler.height c = Some (Scheduler.j_height j)
               end
            /\ Scheduler.j_width j <> 0%Z /\ Scheduler.j_height j <> 0%Z
            /\ (Scheduler.j_wait j, Scheduler.j_eink j, Scheduler.j_invert j,
                Scheduler.j_zoom j, Scheduler.j_format j,
                Scheduler.j_rotate j, Scheduler.j_lang j,
                Scheduler.j_theme j, Scheduler.j_dark j)
               = (Scheduler.wait c, Scheduler.eink c, Scheduler.invert c,
                  Scheduler.zoom c, Scheduler.format c, Scheduler.rotate c,
                  Scheduler.lang c, Scheduler.theme c, Scheduler.dark c))
         entries js.
Proof.
  intros Hload.
  destruct (loadConfig_entries src s js Hload) as (cfg & entries & H1 & H2 & H3).
  exists cfg, entries. split; [exact H1 |]. split; [exact H2 |].
  apply validate_from_jobs in H3.
  eapply Forall2_impl; [exact H3 |].
  intros c j [i Hv]. cbv beta.
  destruct (validate_one_job i c j Hv)
    as (A1 & A2 & A3 & A4 & A5 & A6 & A7 & A8 & A9 & A10 & A11 & A12 & A13
        & A14).
  destruct (effective_viewport_fields c _ _ A3) as (V1 & V2 & V3).
  repeat split; try assumption. congruence.
Qed.

Lemma accepted_jobs_follow_entries_witness :
  exists cfg entries,
    Scheduler.source_config (Scheduler.FromOptions Samples.two_jobs)
    = Some cfg
    /\ Scheduler.screenshots cfg = Some entries
    /\ length entries = 2.
Proof.
  destruct (accepted_jobs_follow_entries
              (Scheduler.FromOptions Samples.two_jobs) Scheduler.new _
              eq_refl) as (cfg & entries & H1 & H2 & H3).
  exists cfg, entries. split; [exact H1 |]. split; [exact H2 |].
  apply Forall2_length in H3. exact H3.
Defined.

Lemma validate_one_error (index : nat) (c : Scheduler.ScreenshotConfig)
    (e : Scheduler.ConfigError) :
  Scheduler.validate_one index c = inl e ->
  match e with
  | Scheduler.MissingName i =>
      i = index /\ Scheduler.truthy_string (Scheduler.name c) = None
  | Scheduler.MissingPath n | Scheduler.MissingViewport n
  | Scheduler.ViewportMissingDimension n | Scheduler.InvalidInterval n =>
      Scheduler.truthy_string (Scheduler.name c) = Some n
  | _ => False
  end.
Proof.
  unfold Scheduler.validate_one.
  destruct (Scheduler.truthy_string (Scheduler.name c)) as [n |];
    [| intros [= <-]; auto].
  destruct (Scheduler.truthy_string (Scheduler.path c)) as [pth |];
    [| intros [= <-]; auto].
  destruct (Scheduler.viewport c) as [v |].
  - destruct (Scheduler.truthy_number (Scheduler.vc_width v));
      [| intros [= <-]; auto].
    destruct (Scheduler.truthy_number (Scheduler.vc_height v));
      [| intros [= <-]; auto].
    destruct (Scheduler.truthy_number (Scheduler.interval c)) as [i |];
      [| intros [= <-]; auto].
    destruct (i <? 1)%Z; [intros [= <-]; auto | discriminate].
  - destruct (Scheduler.truthy_number (Scheduler.width c));
      [| intros [= <-]; auto].
    destruct (Scheduler.truthy_number (Scheduler.height c));
      [| intros [= <-]; auto].
    destruct (Scheduler.truthy_number (Scheduler.vc_width _));
      [| intros [= <-]; auto].
    destruct (Scheduler.truthy_number (Scheduler.vc_height _));
      [| intros [= <-]; auto].
    destruct (Scheduler.truthy_number (Scheduler.interval c)) as [i |];
      [| intros [= <-]; auto].
    destruct (i <? 1)%Z; [intros [= <-]; auto | discriminate].
Qed.

Lemma validate_from_first (good : list Scheduler.ScreenshotConfig) :
  forall index bad rest e,
  forallb Scheduler.has_required_fields good = true ->
  Scheduler.validate_one (index + length good) bad = inl e ->
  Scheduler.validate_from index (good ++ bad :: rest) = inl e.
Proof.
  induction good as [| c good IH]; intros index bad rest e Hgood Hbad.
  - simpl in *. rewrite Nat.add_0_r in Hbad. rewrite Hbad. reflexivity.
  - simpl in Hgood. apply andb_true_iff in Hgood. destruct Hgood as [Hc Hgood].
    apply (validate_one_ok index) in Hc. destruct Hc as [j Hj].
    simpl. rewrite Hj.
    rewrite (IH (S index) bad rest e Hgood); [reflexivity |].
    simpl in Hbad. rewrite Nat.add_succ_r in Hbad. exact Hbad.
Qed.

(** X17.  [loadConfig] reports the first entry that it cannot accept:
    when the entries before position [i] have their required fields and
    the entry at [i] has not, the error is the one that this entry
    raises, whatever follows it.  The error names the entry, by its
    position [i] when the name is missing and by its name otherwise. *)
Theorem validation_reports_first_failure (src : Scheduler.ConfigSource)
    (cfg : Scheduler.Config)
    (good rest : list Scheduler.ScreenshotConfig)
    (bad : Scheduler.ScreenshotConfig) (s : Scheduler.Scheduler) :
  Scheduler.source_config src = Some cfg ->
  Scheduler.screenshots cfg = Some (good ++ bad :: rest) ->
  is_inr (Scheduler.validate_off_hours (Scheduler.off_hours cfg)) = true ->
  forallb Scheduler.has_required_fields good = true ->
  Scheduler.has_required_fields bad = false ->
  exists e,
    fst (Scheduler.loadConfig src s) = inl e
    /\ Scheduler.validate_one (length good) bad = inl e
    /\ match e with
       | Scheduler.MissingName i =>
           i = length good
           /\ Scheduler.truthy_string (Scheduler.name bad) = None
       | Scheduler.MissingPath n | Scheduler.MissingViewport n
       | Scheduler.ViewportMissingDimension n | Scheduler.InvalidInterval n =>
           Scheduler.truthy_string (Scheduler.name bad) = Some n
       | _ => False
       end.
Proof.
  intros Hsrc Hent Hoh Hgood Hbad.
  destruct (Scheduler.validate_one (length good) bad) as [e | j] eqn:E.
  2:{ assert (Scheduler.has_required_fields bad = true)
        by (apply (validate_one_ok (length good)); eauto).
      congruence. }
  exists e. split; [| split; [reflexivity |]].
  - assert (Hload : fst (Scheduler.loadConfig src s)
                    = Scheduler.validate_from 0 (good ++ bad :: rest)).
    { unfold Scheduler.loadConfig.
      destruct src as [c | [c |]]; simpl in Hsrc; try discriminate;
        injection Hsrc as ->; rewrite Hent;
        destruct (Scheduler.validate_off_hours (Scheduler.off_hours cfg));
        try discriminate; reflexivity. }
    rewrite Hload. apply validate_from_first; assumption.
  - apply (validate_one_error _ _ _ E).
Qed.

Lemma validation_reports_first_failure_witness :
  fst (Scheduler.loadConfig
         (Scheduler.FromOptions
            (Scheduler.mkConfig
               (Some [Samples.entry "kitchen" 800 480 60;
                      Samples.entry "" 800 480 60;
                      Samples.entry "hall" 800 480 0])
               None))
         Scheduler.new)
  = inl (Scheduler.MissingName 1).
Proof.
  destruct (validation_reports_first_failure
              (Scheduler.FromOptions
                 (Scheduler.mkConfig
                    (Some [Samples.entry "kitchen" 800 480 60;
                           Samples.entry "" 800 480 60;
                           Samples.entry "hall" 800 480 0])
                    None))
              _ [Samples.entry "kitchen" 800 480 60]
              [Samples.entry "hall" 800 480 0]
              (Samples.entry "" 800 480 60) Scheduler.new
              eq_refl eq_refl eq_refl eq_refl eq_refl)
    as (e & H1 & H2 & _).
  vm_compute in H2. injection H2 as <-. exact H1.
Defined.

(** ** Where the configuration comes from *)

Lemma find_configPath (fs : gmap string Scheduler.Config) :
  List.find (fun path => bool_decide (is_Some (fs !! path)))
    Startup.configPaths
  = match fs !! "./screenshots-dev.json" with
    | Some _ => Some "./screenshots-dev.json"
    | None =>
        match fs !! "./screenshots.json" with
        | Some _ => Some "./screenshots.json"
        | None =>
            match fs !! "/data/screenshots.json" with
            | Some _ => Some "/data/screenshots.json"
            | None => None
            end
        end
    end.
Proof.
  unfold Startup.configPaths. cbn [List.find].
  destruct (fs !! "./screenshots-dev.json") eqn:E1.
  { rewrite bool_decide_eq_true_2 by eauto. reflexivity. }
  rewrite bool_decide_eq_false_2 by (apply is_Some_None).
  destruct (fs !! "./screenshots.json") eqn:E2.
  { rewrite bool_decide_eq_true_2 by eauto. reflexivity. }
  rewrite bool_decide_eq_false_2 by (apply is_Some_None).
  destruct (fs !! "/data/screenshots.json") eqn:E3.
  { rewrite bool_decide_eq_true_2 by eauto. reflexivity. }
  rewrite bool_decide_eq_false_2 by (apply is_Some_None).
  reflexivity.
Qed.

Lemma validate_from_error (l : list Scheduler.ScreenshotConfig) :
  forall index e,
  Scheduler.validate_from index l = inl e ->
  exists i c, Scheduler.validate_one i c = inl e.
Proof.
  induction l as [| c l IH]; intros index e; simpl; [discriminate |].
  destruct (Scheduler.validate_one index c) as [e1 | j] eqn:E1.
  - intros [= <-]. eauto.
  - destruct (Scheduler.validate_from (S index) l) as [e2 | js] eqn:E2;
      [| discriminate].
    intros [= <-]. eapply IH. exact E2.
Qed.

Lemma loadConfig_not_found (src : Scheduler.ConfigSource)
    (s : Scheduler.Scheduler) :
  fst (Scheduler.loadConfig src s) = inl Scheduler.ConfigFileNotFound ->
  src = Scheduler.FromFile None.
Proof.
  assert (Hoh : forall o,
            Scheduler.validate_off_hours o
            <> inl Scheduler.ConfigFileNotFound).
  { intros [oh |]; unfold Scheduler.validate_off_hours; [| discriminate].
    destruct (Scheduler.truthy_string (Scheduler.oh_start oh));
      [| discriminate].
    destruct (Scheduler.truthy_string (Scheduler.oh_end oh));
      [| discriminate].
    destruct (negb _); [discriminate |].
    destruct (negb _); discriminate. }
  assert (Hgen : forall config,
            fst match Scheduler.screenshots config with
                | None => (inl Scheduler.NoScreenshotsArray, s)
                | Some entries =>
                    match Scheduler.validate_off_hours
                            (Scheduler.off_hours config) with
                    | inl e => (inl e, s)
                    | inr o =>
                        (Scheduler.validate_from 0 entries,
                         match o with
                         | Some _ => Scheduler.set_offHours o s
                         | None => s
                         end)
                    end
                end <> inl Scheduler.ConfigFileNotFound).
  { intros config.
    destruct (Scheduler.screenshots config) as [entries |]; [| discriminate].
    pose proof (Hoh (Scheduler.off_hours config)) as Ho.
    destruct (Scheduler.validate_off_hours (Scheduler.off_hours config))
      as [e | o]; simpl; [congruence |].
    intros Hv. apply validate_from_error in Hv.
    destruct Hv as (i & c & Hv). apply validate_one_error in Hv. exact Hv. }
  unfold Scheduler.loadConfig.
  destruct src as [config | [config |]]; [| | reflexivity];
    intros H; exfalso; exact (Hgen config H).
Qed.

(** X18.  [loadConfiguration] prefers the options of the add-on: when the
    program runs as an add-on and [/data/options.json] has a
    [screenshots] array, the configuration is made of that array and of
    [off_hours], whatever files exist.  Otherwise it takes the first
    existing file among [./screenshots-dev.json], [./screenshots.json]
    and [/data/screenshots.json]; outside the add-on the options file is
    not looked at.  The program exits exactly when there is neither.  A
    source that was found is never reported by [loadConfig] as a missing
    file. *)
Theorem loadConfiguration_source (isAddOn : bool) (fs : Startup.files) :
  let usable :=
    match fs !! "/data/options.json" with
    | Some options =>
        if isAddOn
        then option_map (fun entries =>
                           Scheduler.mkConfig (Some entries)
                             (Scheduler.off_hours options))
               (Scheduler.screenshots options)
        else None
    | None => None
    end in
  let r := Startup.loadConfiguration isAddOn fs in
  (forall config, usable = Some config ->
     r = Startup.Located (Scheduler.FromOptions config))
  /\ (usable = None ->
      forall path before after,
        Startup.configPaths = before ++ path :: after ->
        Forall (fun p => fs !! p = None) before ->
        is_Some (fs !! path) ->
        r = Startup.Located (Scheduler.FromFile (fs !! path)))
  /\ (r = Startup.Exit
      <-> usable = None
          /\ Forall (fun p => fs !! p = None) Startup.configPaths)
  /\ (isAddOn = false ->
      r = Startup.loadConfiguration false (delete "/data/options.json" fs))
  /\ (forall src s, r = Startup.Located src ->
        fst (Scheduler.loadConfig src s) <> inl Scheduler.ConfigFileNotFound).
Proof.
  intros usable r. unfold Startup.files in *.
  assert (Hr : r = match usable with
                   | Some config =>
                       Startup.Located (Scheduler.FromOptions config)
                   | None =>
                       match List.find
                               (fun path => bool_decide (is_Some (fs !! path)))
                               Startup.configPaths with
                       | Some path =>
                           Startup.Located (Scheduler.FromFile (fs !! path))
                       | None => Startup.Exit
                       end
                   end).
  { unfold r, usable, Startup.loadConfiguration, Startup.files.
    destruct isAddOn; [| destruct (fs !! "/data/options.json"); reflexivity].
    destruct (fs !! "/data/options.json") as [options |]; [| reflexivity].
    destruct (Scheduler.screenshots options); reflexivity. }
  assert (Hfound : forall path,
            List.find (fun path => bool_decide (is_Some (fs !! path)))
              Startup.configPaths = Some path -> is_Some (fs !! path)).
  { intros path Hf. apply find_some in Hf. destruct Hf as [_ Hf].
    apply bool_decide_eq_true in Hf. exact Hf. }
  split; [| split; [| split; [| split]]].
  - intros config Hu. rewrite Hr, Hu. reflexivity.
  - intros Hu path before after Hpaths Hbefore Hsome.
    rewrite Hr, Hu.
    assert (Hf : List.find (fun path => bool_decide (is_Some (fs !! path)))
                   Startup.configPaths = Some path).
    { rewrite Hpaths. clear Hpaths.
      induction before as [| p before IH]; simpl.
      - rewrite bool_decide_eq_true_2 by exact Hsome. reflexivity.
      - apply Forall_cons in Hbefore. destruct Hbefore as [Hp Hbefore].
        rewrite Hp. rewrite bool_decide_eq_false_2 by (apply is_Some_None).
        apply IH, Hbefore. }
    rewrite Hf. reflexivity.
  - rewrite Hr. destruct usable as [config |].
    + split; [discriminate | intros [? _]; discriminate].
    + rewrite find_configPath. unfold Startup.configPaths.
      rewrite !Forall_cons.
      destruct (fs !! "./screenshots-dev.json") eqn:E1; cbv beta iota;
        [split; [discriminate | intros (_ & H & _); congruence] |].
      destruct (fs !! "./screenshots.json") eqn:E2; cbv beta iota;
        [split; [discriminate | intros (_ & _ & H & _); congruence] |].
      destruct (fs !! "/data/screenshots.json") eqn:E3; cbv beta iota;
        [split; [discriminate | intros (_ & _ & _ & H & _); congruence] |].
      split; auto 10.
  - intros ->. unfold r, Startup.loadConfiguration, Startup.files.
    cbv zeta iota.
    rewrite !find_configPath.
    rewrite !fin_maps.lookup_delete_ne by discriminate.
    destruct (fs !! "./screenshots-dev.json"), (fs !! "./screenshots.json"),
      (fs !! "/data/screenshots.json");
      rewrite ?fin_maps.lookup_delete_ne by discriminate; reflexivity.
  - intros src s Hsrc. rewrite Hr in Hsrc.
    intros Hnf. apply loadConfig_not_found in Hnf. subst src.
    destruct usable as [config |]; [discriminate |].
    destruct (List.find _ Startup.configPaths) as [path |];
      [| discriminate].
    specialize (Hfound path eq_refl). injection Hsrc as Hsrc.
    rewrite Hsrc in Hfound. destruct Hfound as [? ?]. discriminate.
Qed.

Lemma loadConfiguration_source_witness :
  Startup.loadConfiguration true
    (<["/data/options.json" := Samples.two_jobs]>
       (<["./screenshots.json" := Samples.duplicated_config]> ∅))
  = Startup.Located (Scheduler.FromOptions Samples.two_jobs).
Proof.
  apply (proj1 (loadConfiguration_source true
                  (<["/data/options.json" := Samples.two_jobs]>
                     (<["./screenshots.json" := Samples.duplicated_config]>
                        ∅)))).
  reflexivity.
Defined.

(** ** The queue runs dry and starts again *)

Section QueueDrain.
Import Queue.

Lemma run_app ins1 ins2 b : run (ins1 ++ ins2) b = run ins2 (run ins1 b).
Proof. apply fold_left_app. Qed.

Lemma drain_all q : forall b w t0 oks,
  awaiting b = [(w, t0)] -> queue b = q ->
  length oks = S (length q) ->
  let b' := run (map (Settle w) oks) b in
  processing b' = false /\ queue b' = [] /\ awaiting b' = []
  /\ activations b' = activations b
  /\ pushed (trace b') = pushed (trace b).
Proof.
  induction q as [| t1 q IH]; intros b w t0 oks Ha Hq Hl.
  - destruct oks as [| ok [| ? ?]]; simpl in Hl; try discriminate.
    destruct b as [q0 p a n tr]. simpl in *. subst.
    unfold settle. simpl. rewrite Nat.eqb_refl. simpl.
    rewrite pushed_app. destruct ok; simpl; rewrite app_nil_r; auto.
  - destruct oks as [| ok oks]; simpl in Hl; [discriminate |].
    injection Hl as Hl.
    destruct b as [q0 p a n tr]. simpl in Ha, Hq. subst.
    cbn [map run fold_left step].
    set (b1 := settle w ok _).
    assert (H1 : awaiting b1 = [(w, t1)] /\ queue b1 = q
                 /\ activations b1 = n
                 /\ pushed (trace b1) = pushed tr).
    { unfold b1, settle. simpl. rewrite Nat.eqb_refl. simpl.
      rewrite !pushed_app. destruct ok; simpl; rewrite !app_nil_r; auto. }
    destruct H1 as (A1 & Q1 & N1 & P1).
    destruct (IH b1 w t1 oks A1 Q1 Hl) as (R1 & R2 & R3 & R4 & R5).
    fold (run (map (Settle w) oks) b1).
    simpl. rewrite R4, R5, N1, P1. auto.
Qed.

Lemma enqueue_blocked ts : forall b,
  processing b = true ->
  let b' := run (map Enqueue ts) b in
  processing b' = true /\ awaiting b' = awaiting b
  /\ queue b' = queue b ++ ts
  /\ started (trace b') = started (trace b)
  /\ settled (trace b') = settled (trace b)
  /\ activations b' = activations b.
Proof.
  induction ts as [| t ts IH]; intros b Hp.
  - simpl. rewrite app_nil_r. repeat split; auto.
  - cbn [map run fold_left step].
    set (b1 := enqueue t b).
    assert (H1 : processing b1 = true /\ awaiting b1 = awaiting b
                 /\ queue b1 = queue b ++ [t]
                 /\ started (trace b1) = started (trace b)
                 /\ settled (trace b1) = settled (trace b)
                 /\ activations b1 = activations b).
    { unfold b1, enqueue, processQueue. simpl. rewrite Hp. simpl.
      rewrite started_app, settled_app. simpl. rewrite !app_nil_r.
      repeat split; auto. }
    destruct H1 as (P1 & A1 & Q1 & S1 & D1 & N1).
    destruct (IH b1 P1) as (R1 & R2 & R3 & R4 & R5 & R6).
    fold (run (map Enqueue ts) b1).
    simpl. rewrite R2, R3, R4, R5, R6, A1, Q1, S1, D1, N1, <- app_assoc.
    repeat split; auto.
Qed.

End QueueDrain.

(** X19.  The queue runs dry: in any state the queue can reach while a
    task runs, once the running task and each task queued behind it has
    settled, by resolving or rejecting, [processing] is cleared, nothing is
    queued or awaited, and every task that was ever enqueued has settled,
    in the order of its arrival and by the same activation.  The next
    [enqueue] then starts its task at once, in a new activation of
    [processQueue]. *)
Theorem queue_runs_dry_and_restarts (ins : list Queue.input) :
  let b := Queue.run ins Queue.init in
  Queue.processing b = true ->
  exists w,
    forall oks, length oks = S (length (Queue.queue b)) ->
      let b' := Queue.run (map (Queue.Settle w) oks) b in
      Queue.processing b' = false
      /\ Queue.queue b' = [] /\ Queue.awaiting b' = []
      /\ Queue.settled (Queue.trace b') = Queue.pushed (Queue.trace b)
      /\ Queue.activations b' = Queue.activations b
      /\ forall t,
           Queue.processing (Queue.enqueue t b') = true
           /\ Queue.awaiting (Queue.enqueue t b')
              = [(Queue.activations b, t)]
           /\ Queue.queue (Queue.enqueue t b') = []
           /\ Queue.activations (Queue.enqueue t b')
              = S (Queue.activations b).
Proof.
  intros b Hp.
  destruct (run_inv ins Queue.init (proj1 init_inv) (proj2 init_inv))
    as [Hinv Hord].
  fold b in Hinv, Hord.
  destruct Hinv as [(Hp' & _) | (_ & w & t0 & Ha)]; [congruence |].
  exists w. intros oks Hl b'.
  destruct (drain_all (Queue.queue b) b w t0 oks Ha eq_refl Hl)
    as (R1 & R2 & R3 & R4 & R5).
  fold b' in R1, R2, R3, R4, R5.
  assert (Hord' : Queue.queue_order b').
  { unfold b', b. rewrite <- run_app.
    apply (run_inv _ Queue.init (proj1 init_inv) (proj2 init_inv)). }
  destruct Hord' as [Hs Hd]. rewrite R2 in Hs. rewrite R3 in Hd.
  simpl in Hs, Hd. rewrite !app_nil_r in *.
  repeat split; try assumption.
  - rewrite Hd, Hs. exact R5.
  - unfold Queue.enqueue, Queue.processQueue. simpl. rewrite R1, R2. reflexivity.
  - unfold Queue.enqueue, Queue.processQueue. simpl.
    rewrite R1, R2, R3, R4. reflexivity.
  - unfold Queue.enqueue, Queue.processQueue. simpl. rewrite R1, R2. reflexivity.
  - unfold Queue.enqueue, Queue.processQueue. simpl.
    rewrite R1, R2, R4. reflexivity.
Qed.

Lemma queue_runs_dry_and_restarts_witness :
  let b := Queue.run [Queue.Enqueue 1; Queue.Enqueue 2] Queue.init in
  exists w,
    Queue.settled
      (Queue.trace (Queue.run (map (Queue.Settle w) [false; true]) b))
    = [1; 2].
Proof.
  intros b.
  destruct (queue_runs_dry_and_restarts [Queue.Enqueue 1; Queue.Enqueue 2]
              eq_refl) as (w & H).
  exists w. exact (proj1 (proj2 (proj2 (proj2 (H [false; true] eq_refl))))).
Defined.

(** X20.  The queue has no time limit: as long as the running task does
    not settle, no task enqueued after it is started.  Whatever is
    enqueued meanwhile waits in the queue in the order of its arrival;
    no new activation of [processQueue] begins. *)
Theorem queue_waits_for_running_task (ins : list Queue.input)
    (ts : list Queue.task) :
  let b := Queue.run ins Queue.init in
  Queue.processing b = true ->
  let b' := Queue.run (map Queue.Enqueue ts) b in
  (exists w t, Queue.awaiting b = [(w, t)] /\ Queue.awaiting b' = [(w, t)])
  /\ Queue.queue b' = Queue.queue b ++ ts
  /\ Queue.started (Queue.trace b') = Queue.started (Queue.trace b)
  /\ Queue.settled (Queue.trace b') = Queue.settled (Queue.trace b)
  /\ Queue.activations b' = Queue.activations b.
Proof.
  intros b Hp b'.
  destruct (run_inv ins Queue.init (proj1 init_inv) (proj2 init_inv))
    as [Hinv _].
  fold b in Hinv.
  destruct Hinv as [(Hp' & _) | (_ & w & t0 & Ha)]; [congruence |].
  destruct (enqueue_blocked ts b Hp) as (R1 & R2 & R3 & R4 & R5 & R6).
  fold b' in R1, R2, R3, R4, R5, R6.
  split; [exists w, t0; split; [exact Ha | rewrite R2; exact Ha] |].
  auto.
Qed.

Lemma queue_waits_for_running_task_witness :
  Queue.queue
    (Queue.run (map Queue.Enqueue [2; 3])
       (Queue.run [Queue.Enqueue 1] Queue.init))
  = [2; 3].
Proof.
  exact (proj1 (proj2 (queue_waits_for_running_task [Queue.Enqueue 1] [2; 3]
                         eq_refl))).
Defined.

(** ** Navigation and capture as separate units *)

(** X21.  Why navigation and capture are one unit: when they are queued
    apart ([navigatePage], then [screenshotPage]) and the navigation of
    another request runs between them, the capture of the first request
    is taken on the page of the other one.  At the capture the cached
    path is the path of the other request, and the capture calls
    [page.screenshot] and nothing else, with the clip of the first
    request. *)
Theorem separate_units_capture_other_page (isAddOn : bool)
    (homeAssistantUrl : string) (pA pB : Params) (envA envB envS : Env)
    (b b1 b2 b3 : Browser) (rA rB : Viewport * Z) (img : image) :
  _navigatePage isAddOn homeAssistantUrl pA envA b = (inr rA, b1) ->
  _navigatePage isAddOn homeAssistantUrl pB envB b1 = (inr rB, b2) ->
  _screenshotPage (with_viewport pA (fst rA)) envS b2 = (inr img, b3) ->
  lastRequestedPath b1 = Some (pagePath pA)
  /\ lastRequestedPath b2 = Some (pagePath pB)
  /\ lastRequestedPath b3 = Some (pagePath pB)
  /\ exists type,
       log b3
       = log b2
         ++ [Screenshot type (Math_round (inject_Z HEADER_HEIGHT * zoom pA)%Q)
               (width (viewport pA)) (height (viewport pA))].
Proof.
  intros HA HB HS.
  pose proof (navigate_success isAddOn homeAssistantUrl pA envA b I) as SA.
  rewrite HA in SA. destruct SA as (_ & PA & _ & _ & _ & VA).
  pose proof (navigate_success isAddOn homeAssistantUrl pB envB b1 I) as SB.
  rewrite HB in SB. destruct SB as (GB & PB & _).
  pose proof (screenshot_effect (with_viewport pA (fst rA)) envS b2) as SS.
  cbv zeta in SS. rewrite HS in SS. simpl fst in SS. simpl snd in SS.
  destruct SS as (_ & _ & _ & Hlog & Hpath).
  destruct (Hlog GB) as (_ & type & Hl).
  split; [exact PA |]. split; [exact PB |].
  split; [rewrite Hpath; exact PB |].
  exists type. rewrite Hl. rewrite VA. simpl.
  do 4 f_equal. lia.
Qed.

Lemma separate_units_capture_other_page_witness :
  lastRequestedPath
    (snd (_screenshotPage
            (with_viewport (Samples.params "/lovelace/0" "png" None false)
               (mkViewport 800 536))
            Samples.ok_env
            (snd (_navigatePage false "http://ha:8123"
                    (Samples.params "/lovelace/1" "png" None false)
                    Samples.ok_env
                    (snd (_navigatePage false "http://ha:8123"
                            (Samples.params "/lovelace/0" "png" None false)
                            Samples.ok_env fresh))))))
  = Some "/lovelace/1".
Proof.
  pose (pA := Samples.params "/lovelace/0" "png" None false).
  pose (pB := Samples.params "/lovelace/1" "png" None false).
  pose (b1 := snd (_navigatePage false "http://ha:8123" pA Samples.ok_env
                     fresh)).
  pose (b2 := snd (_navigatePage false "http://ha:8123" pB Samples.ok_env b1)).
  pose (rA := (mkViewport 800 536, 1500%Z)).
  pose (rB := (mkViewport 800 536, 2000%Z)).
  pose (b3 := snd (_screenshotPage (with_viewport pA (fst rA)) Samples.ok_env
                     b2)).
  assert (H1 : _navigatePage false "http://ha:8123" pA Samples.ok_env fresh
               = (inr rA, b1)) by (vm_compute; reflexivity).
  assert (H2 : _navigatePage false "http://ha:8123" pB Samples.ok_env b1
               = (inr rB, b2)) by (vm_compute; reflexivity).
  assert (H3 : exists img,
            _screenshotPage (with_viewport pA (fst rA)) Samples.ok_env b2
            = (inr img, b3)) by (vm_compute; eexists; reflexivity).
  destruct H3 as [img H3].
  exact (proj1 (proj2 (proj2
           (separate_units_capture_other_page false "http://ha:8123" pA pB
              Samples.ok_env Samples.ok_env Samples.ok_env fresh b1 b2 b3
              rA rB img H1 H2 H3)))).
Defined.
